(** * ouvrt: HID report decoding for the Oculus Rift and the HTC Vive controller

    A shallow embedding of the protocol layer of ouvrt (vive-imu.c, rift.c,
    rift-radio.c, vive-controller-usb.c) and the properties of it that the
    specification states.

    Conventions.  A C integer of width w is a [Z] and every narrowing cast
    is written out ([u8], [u16], [u32], [u64], [int16]).  A buffer that the
    C code reads through a struct pointer is a record holding the fields of
    that struct, already converted from wire order ([__le16_to_cpu] and
    friends): the layouts are declared in headers that are not part of the
    sources modelled here.  A store into a field narrows to the width of
    the field.  The transport (poll, read, HID feature reports) is the
    environment: every call takes its outcome from a script.  Where the
    behaviour of the C code is undefined (the division by zero of
    [rift_get_config]) a function has no result, written [None]. *)

From Stdlib Require Import ZArith List Lia Bool.
Import ListNotations.
Local Open Scope Z_scope.

(** ** C integer arithmetic *)

Definition u8 (x : Z) : Z := x mod 2 ^ 8.
Definition u16 (x : Z) : Z := x mod 2 ^ 16.
Definition u32 (x : Z) : Z := x mod 2 ^ 32.
Definition u64 (x : Z) : Z := x mod 2 ^ 64.

(** [(int16_t)x] for a 16 bit pattern [x]. *)
Definition int16 (x : Z) : Z :=
  if u16 x <? 2 ^ 15 then u16 x else u16 x - 2 ^ 16.

(** [~x] where [x] has type [unsigned int]: the complement is taken in 32
    bits.  An unsuffixed hexadecimal constant that does not fit [int] but
    fits [unsigned int], such as [0xffffffff], has this type. *)
Definition not_uint (x : Z) : Z := u32 (Z.lnot x).

(** [~x] where [x] has type [int] (a constant that fits [int], such as
    [0xaaaaa]): the two's complement value [-x-1]. *)
Definition not_int (x : Z) : Z := Z.lnot x.

(** [(int64_t)x] for a 64 bit pattern [x]. *)
Definition int64 (x : Z) : Z :=
  if u64 x <? 2 ^ 63 then u64 x else u64 x - 2 ^ 64.

(** An array of three integers, converted element by element. *)
Definition triple_map (f : Z -> Z) (v : Z * Z * Z) : Z * Z * Z :=
  let '(x, y, z) := v in (f x, f y, f z).

(** ** Constants of <poll.h> and <errno.h> on Linux *)

Definition POLLIN : Z := 0x001.
Definition POLLERR : Z := 0x008.
Definition POLLHUP : Z := 0x010.
Definition POLLNVAL : Z := 0x020.

Definition EIO : Z := 5.
Definition EINVAL : Z := 22.

(** A feature report exchange or a read: the return value of the call
    and the buffer it filled in, seen through the struct [R]. *)
Definition hid_reply (R : Type) : Type := (Z * R)%type.

(** ** vive-imu.c *)

Module ViveImu.

(** [struct vive_imu_sample], fields in host order. *)
Record vive_imu_sample := {
  acc : Z * Z * Z;
  gyro : Z * Z * Z;
  time : Z;
  seq : Z
}.

(** [struct vive_imu_report]: the array [sample[3]]. *)
Record vive_imu_report := {
  sample0 : vive_imu_sample;
  sample1 : vive_imu_sample;
  sample2 : vive_imu_sample
}.

(** [report->sample + i] for the indices the loop produces. *)
Definition sample_at (report : vive_imu_report) (i : Z) : vive_imu_sample :=
  if i =? 0 then sample0 report
  else if i =? 1 then sample1 report
  else sample2 report.

(** Modelled from the spec: the widths of [struct vive_imu], which is
    declared in vive-imu.h, not among the sources.  Of its fields the
    decoder reads and writes [sequence], an 8 bit counter, and [time], the
    64 bit microsecond counter of the specification; [raw.time], to which
    line 113 adds [0x100000000], has the same width. *)
Record vive_imu := {
  sequence : Z;
  imu_time : Z
}.

(** [struct raw_imu_sample]. *)
Record raw_imu_sample := {
  raw_time : Z;
  raw_acc : Z * Z * Z;
  raw_gyro : Z * Z * Z
}.

Definition oldest_sequence_index (a b c : Z) : Z :=
  if a =? u8 (b + 2) then 1
  else if b =? u8 (c + 2) then 2
  else 0.

(** The test that skips a sample, lines 98 to 100. *)
Definition already_seen (last_seq s : Z) : bool :=
  (s =? last_seq) || (s =? u8 (last_seq - 1)) || (s =? u8 (last_seq - 2)).

(** Lines 110 to 114: the 64 bit time of a sample from its 32 bit tick
    [t] and the time stored in the device.  The mask [~0xffffffff] is the
    complement of an [unsigned int] constant, widened to 64 bits only
    afterwards. *)
Definition sample_time (stored t : Z) : Z :=
  let raw := Z.land stored (not_uint 0xffffffff) in
  let raw := if t <? Z.land stored 0xffffffff
             then u64 (raw + 0x100000000) else raw in
  Z.lor raw t.

(** The body of the loop for a sample that is not skipped. *)
Definition raw_of (imu : vive_imu) (s : vive_imu_sample) : raw_imu_sample :=
  {| raw_time := sample_time (imu_time imu) (time s);
     raw_acc := triple_map int16 (acc s);
     raw_gyro := triple_map int16 (gyro s) |}.

(** The loop [for (j = 3; j; --j, i = (i + 1) % 3)].  The result is the
    device state after the loop and, in the order they were handled, the
    slots that were not skipped with the raw sample built from each. *)
Fixpoint decode_loop (j : nat) (i : Z) (last_seq : Z)
    (report : vive_imu_report) (imu : vive_imu)
  : vive_imu * list (Z * raw_imu_sample) :=
  match j with
  | O => (imu, [])
  | S j' =>
      let s := sample_at report i in
      if already_seen last_seq (seq s)
      then decode_loop j' ((i + 1) mod 3) last_seq report imu
      else
        let raw := raw_of imu s in
        let imu1 := {| sequence := seq s; imu_time := raw_time raw |} in
        let '(imu2, out) :=
          decode_loop j' ((i + 1) mod 3) last_seq report imu1 in
        (imu2, (i, raw) :: out)
  end.

Definition vive_imu_decode_message (imu : vive_imu)
    (report : vive_imu_report) : vive_imu * list (Z * raw_imu_sample) :=
  let last_seq := sequence imu in
  let i := oldest_sequence_index (seq (sample0 report))
             (seq (sample1 report)) (seq (sample2 report)) in
  decode_loop 3 i last_seq report imu.

(** *** Vocabulary of the specification *)

(** The three slots hold [n], [n+1], [n+2] (mod 256), written round-robin:
    the oldest value sits in slot 0, 1 or 2 and the others follow it
    cyclically. *)
Definition slot_rotation (a b c n : Z) : Prop :=
  (a = n /\ b = u8 (n + 1) /\ c = u8 (n + 2)) \/
  (b = n /\ c = u8 (n + 1) /\ a = u8 (n + 2)) \/
  (c = n /\ a = u8 (n + 1) /\ b = u8 (n + 2)).

(** Counter [x] trails counter [y] by exactly 2 (mod 256). *)
Definition trails_by_2 (x y : Z) : Prop := u8 (x + 2) = y.

(** [q] is the last delivered sequence number or one of its two
    predecessors (mod 256). *)
Definition in_window (last q : Z) : Prop :=
  exists k, 0 <= k <= 2 /\ q = u8 (last - k).

Definition in_windowb (last q : Z) : bool :=
  existsb (fun k => q =? u8 (last - k)) [0; 1; 2].

(** The sequence number of the slot a delivery came from. *)
Definition delivered_seq (report : vive_imu_report)
    (d : Z * raw_imu_sample) : Z :=
  seq (sample_at report (fst d)).

(** The timestamp unwrapper as the specification words it: [base] keeps
    the upper 32 bits, and a tick below the stored low half adds 2^32. *)
Definition unwrap_spec (stored t : Z) : Z :=
  let base := stored - stored mod 2 ^ 32 in
  let base := if t <? stored mod 2 ^ 32 then base + 2 ^ 32 else base in
  base + t.

(** *** Sample inputs *)

(** A sample with sequence number [s] and tick [t]. *)
Definition tick_sample (s t : Z) : vive_imu_sample :=
  {| acc := (1, 65535, 0); gyro := (0, 2, 32768); time := t; seq := s |}.

(** The slots hold 6, 7 and 5. *)
Definition report_675 : vive_imu_report :=
  {| sample0 := tick_sample 6 2000;
     sample1 := tick_sample 7 3000;
     sample2 := tick_sample 5 1000 |}.

(** Three samples 3, 4, 5 around one wrap of the 32 bit tick. *)
Definition report_wrap : vive_imu_report :=
  {| sample0 := tick_sample 3 0xfffffff0;
     sample1 := tick_sample 4 0x00000005;
     sample2 := tick_sample 5 0x00000010 |}.

Definition raw_times (out : list (Z * raw_imu_sample)) : list Z :=
  map (fun d => raw_time (snd d)) out.

End ViveImu.

(** ** rift.c *)

Module Rift.

(** *** The device *)

(** The sample handed to [debug_imu_fifo_in], in device units: the
    constant float factors (0.01, 1e-6, 0.0001) that the C code applies
    on the way are left out. *)
Record imu_sample := {
  temperature_raw : Z;
  time_raw : Z;
  magnetic_field_raw : Z * Z * Z;
  acceleration_raw : Z * Z * Z;
  angular_velocity_raw : Z * Z * Z
}.

(** [struct _OuvrtRiftPrivate] without the flicker flag, and what the
    device has sent out: the samples pushed to the FIFO (oldest first) and
    the number of keepalive reports. *)
Record rift_dev := {
  report_rate : Z;
  report_interval : Z;
  last_sample_timestamp : Z;
  fifo : list imu_sample;
  keepalives : Z
}.

Definition set_rate (dev : rift_dev) (rate interval : Z) : rift_dev :=
  {| report_rate := rate;
     report_interval := interval;
     last_sample_timestamp := last_sample_timestamp dev;
     fifo := fifo dev;
     keepalives := keepalives dev |}.

(** *** rift_get_config and rift_set_report_rate *)

(** [struct rift_config_report], the fields the driver uses. *)
Record rift_config_report := {
  cfg_flags : Z;
  cfg_packet_interval : Z;
  cfg_sample_rate : Z
}.

(** [None] is the division by zero of line 62: a report whose sample rate
    is below its packet interval plus one gives the report rate 0, and
    [1000000 / report_rate] has no defined behaviour (on Linux the process
    is killed by SIGFPE); the function does not return. *)
Definition rift_get_config (get : hid_reply rift_config_report)
    (dev : rift_dev) : option (Z * rift_dev) :=
  let '(ret, report) := get in
  if ret <? 0 then Some (ret, dev)
  else
    let sample_rate := cfg_sample_rate report in
    let rate := u16 (Z.quot sample_rate (cfg_packet_interval report + 1)) in
    if rate =? 0 then None
    else Some (0, set_rate dev rate (Z.quot 1000000 rate)).

(** The result is the return value, the device and the report sent, if
    one was.  [packet_interval] is a one byte field of the report: the
    assignment of line 89 keeps the low eight bits of the [int] the
    expression yields. *)
Definition rift_set_report_rate (get : hid_reply rift_config_report)
    (send_ret : Z) (dev : rift_dev) (report_rate : Z)
  : Z * rift_dev * option rift_config_report :=
  let '(ret, report) := get in
  if ret <? 0 then (ret, dev, None)
  else
    let sample_rate := cfg_sample_rate report in
    let report_rate :=
      if report_rate >? sample_rate then sample_rate else report_rate in
    let report_rate := if report_rate <? 5 then 5 else report_rate in
    let report :=
      {| cfg_flags := cfg_flags report;
         cfg_packet_interval := u8 (Z.quot sample_rate report_rate - 1);
         cfg_sample_rate := cfg_sample_rate report |} in
    if send_ret <? 0 then (send_ret, dev, Some report)
    else (0, set_rate dev report_rate (Z.quot 1000000 report_rate),
          Some report).

(** *** rift_get_led_patterns *)

(** [struct rift_led_pattern_report], the fields the driver uses. *)
Record rift_led_pattern_report := {
  led_pattern_length : Z;
  led_pattern : Z;
  led_index : Z;
  led_num : Z
}.

(** The table [rift->leds.patterns]. *)
Definition pattern_table : Type := Z -> Z.

Definition store (t : pattern_table) (index v : Z) : pattern_table :=
  fun k => if k =? index then v else t k.

(** The test of line 217; [pattern] is a [uint32_t] and [~0xaaaaa] an
    [int] converted to it. *)
Definition pattern_well_formed (pattern : Z) : bool :=
  Z.land pattern (u32 (not_int 0xaaaaa)) =? 0x55555.

(** Lines 224 to 232. *)
Definition deinterleave (pattern : Z) : Z :=
  let pattern := Z.land pattern 0xaaaaa in
  let pattern := Z.lor pattern (Z.shiftr pattern 1) in
  let pattern := Z.land pattern 0x66666 in
  let pattern := Z.lor pattern (Z.shiftr pattern 2) in
  let pattern := Z.land pattern 0xe1e1e in
  let pattern := Z.lor pattern (Z.shiftr pattern 4) in
  let pattern := Z.land pattern 0xe01fe in
  let pattern := Z.lor pattern (Z.shiftr pattern 8) in
  Z.land (Z.shiftr pattern 1) 0x3ff.

(** One turn of the loop up to the store into the table: [None] is
    [return -1]. *)
Definition led_pattern_record (num : Z) (report : rift_led_pattern_report)
    (table : pattern_table) : option pattern_table :=
  let index := led_index report in
  if index >=? num then None
  else if negb (led_pattern_length report =? 10) then None
  else if negb (pattern_well_formed (led_pattern report)) then None
  else Some (store table index (deinterleave (led_pattern report))).

(** The loop [for (i = 0; ; i++)]; [script] holds the outcomes of the
    feature report reads still to come, and a read past its end fails. *)
Fixpoint led_pattern_loop (script : list (hid_reply rift_led_pattern_report))
    (i num : Z) (report : rift_led_pattern_report) (table : pattern_table)
  : Z * pattern_table :=
  match led_pattern_record num report table with
  | None => (-1, table)
  | Some table' =>
      if i + 1 =? num then (0, table')
      else
        match script with
        | [] => (-1, table')
        | (ret, report') :: script' =>
            if ret <? 0 then (ret, table')
            else led_pattern_loop script' (i + 1) num report' table'
        end
  end.

Section LedPatterns.

(** The capacity of the table, declared in leds.h. *)
Variable MAX_LEDS : Z.

Definition rift_get_led_patterns
    (script : list (hid_reply rift_led_pattern_report))
    (table : pattern_table) : Z * pattern_table :=
  match script with
  | [] => (-1, table)
  | (ret, report) :: script' =>
      if ret <? 0 then (ret, table)
      else
        let num := led_num report in
        if num >? MAX_LEDS then (-1, table)
        else led_pattern_loop script' 0 num report table
  end.

(** What [rift_start] finds in its environment: the return value of
    [rift_get_positions] (its tables hold floats and are not modelled),
    the feature report exchanges of the later steps, and the return values
    of [rift_send_tracking] and [rift_send_display]. *)
Record start_env := {
  positions_ret : Z;
  led_script : list (hid_reply rift_led_pattern_report);
  config_get : hid_reply rift_config_report;
  rate_get : hid_reply rift_config_report;
  rate_send_ret : Z;
  tracking_ret : Z;
  display_ret : Z
}.

(** [rift_start] on an open device.  The last component tells whether
    the LEDs were registered with the tracker; [None] is the division by
    zero of [rift_get_config], from which [rift_start] does not return. *)
Definition rift_start (env : start_env) (dev : rift_dev)
    (table : pattern_table)
  : option (Z * rift_dev * pattern_table * bool) :=
  let ret := positions_ret env in
  if ret <? 0 then Some (ret, dev, table, false)
  else
    let '(ret, table) := rift_get_led_patterns (led_script env) table in
    if ret <? 0 then Some (ret, dev, table, false)
    else
      match rift_get_config (config_get env) dev with
      | None => None
      | Some (ret, dev) =>
          if ret <? 0 then Some (ret, dev, table, false)
          else
            let '(ret, dev, _) :=
              rift_set_report_rate (rate_get env) (rate_send_ret env) dev 500
            in
            if ret <? 0 then Some (ret, dev, table, false)
            else if tracking_ret env <? 0
                 then Some (tracking_ret env, dev, table, false)
            else if display_ret env <? 0
                 then Some (display_ret env, dev, table, false)
            else Some (0, dev, table, true)
      end.

End LedPatterns.

(** *** rift_decode_sensor_message *)

(** Three signed 21 bit lanes of a 64 bit word, in units of 1e-4. *)
Definition unpack_3x21bit (xyz : Z) : Z * Z * Z :=
  (Z.shiftr (int64 xyz) 43,
   Z.shiftr (int64 (u64 (Z.shiftl xyz 21))) 43,
   Z.shiftr (int64 (u64 (Z.shiftl xyz 42))) 43).

(** [struct rift_sensor_message] as the decoder reads it; [msg_sample0]
    and [msg_sample1] are the [accel] and [gyro] words of [sample[0]] and
    [sample[1]]. *)
Record rift_sensor_message := {
  msg_id : Z;
  msg_num_samples : Z;
  msg_sample_count : Z;
  msg_temperature : Z;
  msg_timestamp : Z;
  msg_sample0 : Z * Z;
  msg_sample1 : Z * Z;
  msg_mag : Z * Z * Z;
  msg_frame_count : Z;
  msg_frame_timestamp : Z;
  msg_frame_id : Z;
  msg_led_pattern_phase : Z;
  msg_exposure_count : Z;
  msg_exposure_timestamp : Z
}.

(** Modelled from the spec: [sizeof(struct rift_sensor_message)].  The
    struct is declared in rift-hid-reports.h, which is not among the
    sources; the specification sizes the input reports at 64 bytes, the
    size of the buffer [rift_thread] reads into and below which it calls a
    read an invalid report. *)
Definition SENSOR_MESSAGE_SIZE : Z := 64.

(** The interval check of lines 429 to 436 only prints a diagnostic; what
    stays is the store of the timestamp and the samples pushed. *)
Definition rift_decode_sensor_message (dev : rift_dev)
    (message : rift_sensor_message) (len : Z) : rift_dev :=
  if len <? SENSOR_MESSAGE_SIZE then dev
  else
    let num_samples := msg_num_samples message in
    let temperature := int16 (msg_temperature message) in
    let sample_timestamp := msg_timestamp message in
    let mag := triple_map int16 (msg_mag message) in
    let num_samples := if num_samples >? 1 then 2 else 1 in
    let state := fun sample : Z * Z =>
      {| temperature_raw := temperature;
         time_raw := sample_timestamp;
         magnetic_field_raw := mag;
         acceleration_raw := unpack_3x21bit (fst sample);
         angular_velocity_raw := unpack_3x21bit (snd sample) |} in
    let pushed :=
      if num_samples =? 2
      then [state (msg_sample0 message); state (msg_sample1 message)]
      else [state (msg_sample0 message)] in
    {| report_rate := report_rate dev;
       report_interval := report_interval dev;
       last_sample_timestamp := sample_timestamp;
       fifo := fifo dev ++ pushed;
       keepalives := keepalives dev |}.

(** *** rift_thread *)

Definition rift_send_keepalive (dev : rift_dev) : rift_dev :=
  {| report_rate := report_rate dev;
     report_interval := report_interval dev;
     last_sample_timestamp := last_sample_timestamp dev;
     fifo := fifo dev;
     keepalives := keepalives dev + 1 |}.

(** [struct pollfd] without the descriptor. *)
Record pollfd := {
  events : Z;
  revents : Z
}.

(** What one turn of the loop finds: the value of [dev->active] at the
    loop head, the return value of [poll] and the [revents] it reports,
    and the outcome of [read] should the turn get that far. *)
Record poll_round := {
  dev_active : bool;
  poll_ret : Z;
  poll_revents : Z;
  read_ret : Z;
  read_message : rift_sensor_message
}.

(** The body of the [while] loop.  The boolean is [false] when the
    body leaves the loop through [break]. *)
Definition rift_thread_round (ev : poll_round) (dev : rift_dev) (count : Z)
  : rift_dev * Z * bool :=
  let fds := {| events := POLLIN; revents := 0 |} in
  let fds := {| events := events fds; revents := poll_revents ev |} in
  let ret := poll_ret ev in
  if (ret =? -1) || (ret =? 0) || (count >? 9 * report_rate dev)
  then (rift_send_keepalive dev, 0, true)
  else if negb (Z.land (events fds)
                  (Z.lor (Z.lor POLLERR POLLHUP) POLLNVAL) =? 0)
  then (dev, count, false)
  else
    let ret := read_ret ev in
    if ret =? -1 then (dev, count, true)
    else if ret <? 64 then (dev, count, true)
    else (rift_decode_sensor_message dev (read_message ev) 64,
          count + 1, true).

(** How the loop ended: [dev->active] was cleared, the body broke out,
    or the script of the environment ran out while the loop was going. *)
Inductive loop_exit := Stopped | Broke | ScriptEnd.

Fixpoint rift_thread_loop (script : list poll_round) (dev : rift_dev)
    (count : Z) : rift_dev * Z * loop_exit :=
  match script with
  | [] => (dev, count, ScriptEnd)
  | ev :: script' =>
      if negb (dev_active ev) then (dev, count, Stopped)
      else
        let '(dev', count', go_on) := rift_thread_round ev dev count in
        if go_on then rift_thread_loop script' dev' count'
        else (dev', count', Broke)
  end.

Definition rift_thread (script : list poll_round) (dev : rift_dev)
  : rift_dev * Z * loop_exit :=
  rift_thread_loop script (rift_send_keepalive dev) 0.

(** *** The blink pattern format, as the specification words it *)

(** Symbol [i] of a packed value: the 2 bit group at bit [2 i]. *)
Definition symbol (pattern i : Z) : Z := Z.land (Z.shiftr pattern (2 * i)) 3.

Definition DARK : Z := 1.
Definition BRIGHT : Z := 3.

(** The packed form of the [n] low bits of [bits]: bright for 1, dark
    for 0, symbol 0 in the lowest position. *)
Fixpoint pack_symbols (n : nat) (bits : Z) : Z :=
  match n with
  | O => 0
  | S n' =>
      Z.lor (if Z.odd bits then BRIGHT else DARK)
            (Z.shiftl (pack_symbols n' (Z.shiftr bits 1)) 2)
  end.

Definition encode_pattern (bits : Z) : Z := pack_symbols 10 bits.

(** The ten bit values, for arguments by enumeration. *)
Definition all_patterns : list Z := map Z.of_nat (seq 0 1024).

(** What the round trip asks of one ten bit value. *)
Definition round_trip_ok (bits : Z) : bool :=
  pattern_well_formed (encode_pattern bits) &&
  (deinterleave (encode_pattern bits) =? bits) &&
  (encode_pattern bits <? 2 ^ 20) &&
  forallb (fun i => symbol (encode_pattern bits) i =?
                    (if Z.testbit bits i then BRIGHT else DARK))
          [0; 1; 2; 3; 4; 5; 6; 7; 8; 9].

(** A record with the declared count 10 and ten symbols dark or bright. *)
Definition record_valid (report : rift_led_pattern_report) : Prop :=
  led_pattern_length report = 10 /\
  forall i, 0 <= i < 10 ->
    symbol (led_pattern report) i = DARK \/
    symbol (led_pattern report) i = BRIGHT.

(** A record that the loop takes for a table of [num] entries: valid, its
    index below [num] and its packed value within the 20 bits of the ten
    symbols. *)
Definition record_accepted (num : Z) (report : rift_led_pattern_report)
  : Prop :=
  record_valid report /\
  0 <= led_index report < num /\
  0 <= led_pattern report < 2 ^ 20.

(** The table entry written for a record. *)
Definition store_record (table : pattern_table)
    (report : rift_led_pattern_report) : pattern_table :=
  store table (led_index report) (deinterleave (led_pattern report)).

(** The records the loop goes through: the one read before the loop and
    the next [num - 1] the device hands out. *)
Definition records_read (report : rift_led_pattern_report)
    (rest : list (hid_reply rift_led_pattern_report))
  : list rift_led_pattern_report :=
  report :: firstn (Z.to_nat (led_num report - 1)) (map snd rest).

(** The same buffer with another leading byte. *)
Definition set_msg_id (m : rift_sensor_message) (i : Z)
  : rift_sensor_message :=
  {| msg_id := i; msg_num_samples := msg_num_samples m;
     msg_sample_count := msg_sample_count m;
     msg_temperature := msg_temperature m; msg_timestamp := msg_timestamp m;
     msg_sample0 := msg_sample0 m; msg_sample1 := msg_sample1 m;
     msg_mag := msg_mag m; msg_frame_count := msg_frame_count m;
     msg_frame_timestamp := msg_frame_timestamp m;
     msg_frame_id := msg_frame_id m;
     msg_led_pattern_phase := msg_led_pattern_phase m;
     msg_exposure_count := msg_exposure_count m;
     msg_exposure_timestamp := msg_exposure_timestamp m |}.

(** *** Sample inputs *)

Definition dev0 : rift_dev :=
  {| report_rate := 500; report_interval := 2000;
     last_sample_timestamp := 0; fifo := []; keepalives := 0 |}.

Definition config_report (sample_rate : Z) : rift_config_report :=
  {| cfg_flags := 0; cfg_packet_interval := 19;
     cfg_sample_rate := sample_rate |}.

(** A sensor message with one sample, timestamp 2000 and the given id. *)
Definition message_with_id (i : Z) : rift_sensor_message :=
  {| msg_id := i; msg_num_samples := 1; msg_sample_count := 1;
     msg_temperature := 2500; msg_timestamp := 2000;
     msg_sample0 := (0, 0); msg_sample1 := (0, 0); msg_mag := (0, 0, 0);
     msg_frame_count := 0; msg_frame_timestamp := 0; msg_frame_id := 0;
     msg_led_pattern_phase := 0; msg_exposure_count := 0;
     msg_exposure_timestamp := 0 |}.

(** [poll] reports a hangup on the descriptor and the read fails. *)
Definition hangup_round : poll_round :=
  {| dev_active := true; poll_ret := 1; poll_revents := POLLHUP;
     read_ret := -1; read_message := message_with_id 0 |}.

(** [poll] reports input and a hangup, and 64 bytes are read. *)
Definition hangup_data_round : poll_round :=
  {| dev_active := true; poll_ret := 1;
     poll_revents := Z.lor POLLIN POLLHUP;
     read_ret := 64; read_message := message_with_id 11 |}.

Definition table0 : pattern_table := fun _ => 0.

(** A record for LED 3 whose symbols 0 and 2 are bright. *)
Definition led_record (len pattern : Z) : rift_led_pattern_report :=
  {| led_pattern_length := len; led_pattern := pattern;
     led_index := 3; led_num := 44 |}.

(** A record of a device with two LEDs. *)
Definition led_record_of_two (index pattern : Z) : rift_led_pattern_report :=
  {| led_pattern_length := 10; led_pattern := pattern;
     led_index := index; led_num := 2 |}.

(** [poll] reports input and 64 bytes are read, the first of them [i]. *)
Definition data_round (i : Z) : poll_round :=
  {| dev_active := true; poll_ret := 1; poll_revents := POLLIN;
     read_ret := 64; read_message := message_with_id i |}.

(** *** Packed lanes, as [unpack_3x21bit] reads them *)

(** Three 21 bit lanes in a 64 bit word: [x] in bits 43 to 63, [y] in
    bits 22 to 42, [z] in bits 1 to 21, and a last bit [b] that no lane
    reads. *)
Definition pack_3x21bit (x y z b : Z) : Z :=
  (x mod 2 ^ 21) * 2 ^ 43 + (y mod 2 ^ 21) * 2 ^ 22 +
  (z mod 2 ^ 21) * 2 + b.

(** *** rift_get_positions *)

(** [(int32_t)x] for a 32 bit pattern [x]. *)
Definition int32 (x : Z) : Z :=
  if u32 x <? 2 ^ 31 then u32 x else u32 x - 2 ^ 32.

(** [struct rift_position_report], the fields the driver uses. *)
Record rift_position_report := {
  pos_num : Z;
  pos_index : Z;
  pos_type : Z;
  pos_xyz : Z * Z * Z;
  pos_dir : Z * Z * Z
}.

(** What [rift_get_positions] fills in: [rift->leds.positions],
    [rift->leds.directions], [rift->imu.position] and [rift->leds.num].
    Coordinates are kept in the integer units of the report; the float
    factor 1e-6 that the C code applies is left out. *)
Record geometry := {
  led_positions : Z -> Z * Z * Z;
  led_directions : Z -> Z * Z * Z;
  imu_position : Z * Z * Z;
  leds_num : Z
}.

Definition store3 (t : Z -> Z * Z * Z) (index : Z) (v : Z * Z * Z)
  : Z -> Z * Z * Z :=
  fun k => if k =? index then v else t k.

(** One turn of the loop up to the stores: [None] is [return -1].  The
    16 bit type field is narrowed to the [uint8_t] variable [type]. *)
Definition position_record (num : Z) (report : rift_position_report)
    (g : geometry) : option geometry :=
  let index := pos_index report in
  if index >=? num then None
  else
    let type := u8 (pos_type report) in
    let pos := triple_map int32 (pos_xyz report) in
    if type =? 0 then
      Some {| led_positions := store3 (led_positions g) index pos;
              led_directions :=
                store3 (led_directions g) index
                       (triple_map int16 (pos_dir report));
              imu_position := imu_position g;
              leds_num := leds_num g |}
    else if type =? 1 then
      Some {| led_positions := led_positions g;
              led_directions := led_directions g;
              imu_position := pos;
              leds_num := leds_num g |}
    else Some g.

(** The loop [for (i = 0; ; i++)] of [rift_get_positions]: the value is
    0 when the loop is left through [break], otherwise what it returns. *)
Fixpoint position_loop (script : list (hid_reply rift_position_report))
    (i num : Z) (report : rift_position_report) (g : geometry)
  : Z * geometry :=
  match position_record num report g with
  | None => (-1, g)
  | Some g' =>
      if i + 1 =? num then (0, g')
      else
        match script with
        | [] => (-1, g')
        | (ret, report') :: script' =>
            if ret <? 0 then (ret, g')
            else position_loop script' (i + 1) num report' g'
        end
  end.

Section Positions.

(** The capacity of the position tables, declared in a header. *)
Variable MAX_POSITIONS : Z.

Definition rift_get_positions
    (script : list (hid_reply rift_position_report)) (g : geometry)
  : Z * geometry :=
  match script with
  | [] => (-1, g)
  | (ret, report) :: script' =>
      if ret <? 0 then (ret, g)
      else
        let num := u16 (pos_num report) in
        if num >? MAX_POSITIONS then (-1, g)
        else
          let '(ret, g') := position_loop script' 0 num report g in
          if ret <? 0 then (ret, g')
          else (0, {| led_positions := led_positions g';
                      led_directions := led_directions g';
                      imu_position := imu_position g';
                      leds_num := num - 1 |})
  end.

End Positions.

(** *** rift_send_display, rift_cv1_power_up, rift_cv1_power_down *)

(** [struct rift_display_report], the fields the driver uses. *)
Record rift_display_report := {
  dsp_brightness : Z;
  dsp_flags2 : Z;
  dsp_persistence : Z;
  dsp_total_rows : Z
}.

Section Display.

(** Flag bits of rift-hid-reports.h, taken to fit the field [flags2]. *)
Variables RIFT_DISPLAY_READ_PIXEL RIFT_DISPLAY_DIRECT_PENTILE : Z.

(** The result is the return value and the report sent, if one was. *)
Definition rift_send_display (get : hid_reply rift_display_report)
    (send_ret : Z) (low_persistence pixel_readback : bool)
  : Z * option rift_display_report :=
  let '(ret, report) := get in
  if ret <? 0 then (ret, None)
  else
    let total_rows := u16 (dsp_total_rows report) in
    let brightness := if low_persistence then 255 else 0 in
    let persistence :=
      if low_persistence then u16 (Z.quot (total_rows * 18) 100)
      else total_rows in
    let flags2 :=
      if pixel_readback
      then Z.lor (dsp_flags2 report) RIFT_DISPLAY_READ_PIXEL
      else Z.land (dsp_flags2 report) (not_int RIFT_DISPLAY_READ_PIXEL) in
    let flags2 := Z.land flags2 (not_int RIFT_DISPLAY_DIRECT_PENTILE) in
    (send_ret,
     Some {| dsp_brightness := brightness; dsp_flags2 := flags2;
             dsp_persistence := persistence;
             dsp_total_rows := dsp_total_rows report |}).

End Display.

(** The [components] byte of [struct rift_cv1_power_report] as it is read
    and as it is sent; [components] of the caller is a [uint8_t]. *)
Definition rift_cv1_power_up (get : hid_reply Z) (send_ret : Z)
    (components : Z) : Z * option Z :=
  let '(ret, report) := get in
  if ret <? 0 then (ret, None)
  else (send_ret, Some (Z.lor report (u8 components))).

Definition rift_cv1_power_down (get : hid_reply Z) (send_ret : Z)
    (components : Z) : Z * option Z :=
  let '(ret, report) := get in
  if ret <? 0 then (ret, None)
  else (send_ret, Some (Z.land report (not_int (u8 components)))).

(** *** rift_stop *)

(** [struct rift_tracking_report]: the flags and, untouched by
    [rift_stop], the other fields. *)
Record rift_tracking_report := {
  trk_flags : Z;
  trk_others : list Z
}.

Section Stop.

(** Flag bit of rift-hid-reports.h. *)
Variable RIFT_TRACKING_ENABLE : Z.

(** [rift_stop] ignores the return values of its HID calls.  A feature
    report read that fails leaves the zero-initialised report as it is.
    The result is the device and the tracking report sent; the LEDs are
    unregistered from the tracker in any case. *)
Definition rift_stop (tracking_get : hid_reply rift_tracking_report)
    (rate_get : hid_reply rift_config_report) (rate_send_ret : Z)
    (dev : rift_dev) : rift_dev * rift_tracking_report :=
  let report :=
    if fst tracking_get <? 0 then {| trk_flags := 0; trk_others := [] |}
    else snd tracking_get in
  let sent :=
    {| trk_flags := Z.land (trk_flags report) (not_int RIFT_TRACKING_ENABLE);
       trk_others := trk_others report |} in
  let '(_, dev', _) := rift_set_report_rate rate_get rate_send_ret dev 50 in
  (dev', sent).

End Stop.

(** *** Sample inputs for the feature reports *)

Definition geometry0 : geometry :=
  {| led_positions := fun _ => (0, 0, 0);
     led_directions := fun _ => (0, 0, 0);
     imu_position := (0, 0, 0); leds_num := 0 |}.

(** Record [index] of [num]: an LED for type 0, the IMU for type 1. *)
Definition position_report (num index type : Z) : rift_position_report :=
  {| pos_num := num; pos_index := index; pos_type := type;
     pos_xyz := (1000, 4294967295, 0); pos_dir := (0, 0, 65535) |}.

End Rift.

(** ** rift-radio.c *)

Module RiftRadio.

(** *** The control channel *)

(** What a feature report read returns, seen through the structs that
    the callers read it with: [unknown[0]] of the control report, and the
    [serial] and [firmware] views of the data report. *)
Record radio_feature := {
  ctl_unknown0 : Z;
  data_serial_number : list Z;
  data_firmware_date : list Z;
  data_firmware_version : list Z
}.

(** The HID device: the outcomes of the calls still to come (return value
    and report; a call past the end fails with -1) and the control triples
    [a, b, c] sent so far, oldest first. *)
Record hid := {
  pending : list (Z * radio_feature);
  sent : list (Z * Z * Z)
}.

Definition no_feature : radio_feature :=
  {| ctl_unknown0 := 0; data_serial_number := [];
     data_firmware_date := []; data_firmware_version := [] |}.

(** One HID call: its return value, the report and the device after. *)
Definition hid_call (h : hid) : Z * radio_feature * hid :=
  match pending h with
  | [] => (-1, no_feature, h)
  | (ret, f) :: rest => (ret, f, {| pending := rest; sent := sent h |})
  end.

Definition hid_send_control (h : hid) (a b c : Z) : Z * hid :=
  let '(ret, _, h') := hid_call h in
  (ret, {| pending := pending h'; sent := sent h' ++ [(a, b, c)] |}).

(** The loop [do ... while (report.unknown[0] & 0x80)] and the test that
    follows it. *)
Fixpoint transfer_wait (replies : list (Z * radio_feature))
  : Z * list (Z * radio_feature) :=
  match replies with
  | [] => (-1, [])
  | (ret, f) :: rest =>
      if ret <? 0 then (ret, rest)
      else if negb (Z.land (ctl_unknown0 f) 0x80 =? 0) then transfer_wait rest
      else if negb (Z.land (ctl_unknown0 f) 0x08 =? 0) then (- EIO, rest)
      else (0, rest)
  end.

Definition rift_radio_transfer (h : hid) (a b c : Z) : Z * hid :=
  let '(ret, h) := hid_send_control h a b c in
  if ret <? 0 then (ret, h)
  else
    let '(ret, rest) := transfer_wait (pending h) in
    (ret, {| pending := rest; sent := sent h |}).

(** [g_ascii_isalnum] and [g_ascii_isprint]. *)
Definition g_ascii_isalnum (c : Z) : bool :=
  ((48 <=? c) && (c <=? 57)) || ((65 <=? c) && (c <=? 90)) ||
  ((97 <=? c) && (c <=? 122)).

Definition g_ascii_isprint (c : Z) : bool := (32 <=? c) && (c <=? 126).

(** [for (i = 0; i < n && p(src[i]); i++) dst[i] = src[i];] *)
Fixpoint copy_while (p : Z -> bool) (n : nat) (src dst : list Z) : list Z :=
  match n, src with
  | S n', c :: src' =>
      if p c then c :: copy_while p n' src' (tl dst) else dst
  | _, _ => dst
  end.

(** [struct rift_wireless_device]; the name is left out. *)
Record rift_wireless_device := {
  dev_id : Z;
  serial : list Z;
  firmware_date : list Z;
  firmware_version : list Z;
  active : bool
}.

Record rift_remote := {
  remote_base : rift_wireless_device;
  remote_buttons : Z
}.

Record rift_touch_controller := {
  base : rift_wireless_device;
  cap_a_x : Z;
  cap_b_y : Z;
  cap_rest : Z;
  cap_stick : Z;
  cap_trigger : Z
}.

(** [struct rift_radio]: the remote and [touch[0]], [touch[1]]. *)
Record rift_radio := {
  remote : rift_remote;
  touch0 : rift_touch_controller;
  touch1 : rift_touch_controller
}.

(** [struct rift_radio_message] with both views of its payload. *)
Record rift_radio_message := {
  id : Z;
  device_type : Z;
  remote_msg_buttons : Z;
  touch_accel : Z * Z * Z;
  touch_gyro : Z * Z * Z;
  trigger_grip_stick : Z * Z * Z * Z * Z;
  adc_channel : Z;
  adc_value : Z
}.

(** The packed axes of lines 149 to 155, which the decoder computes and
    drops. *)
Definition touch_trigger (m : rift_radio_message) : Z :=
  let '(t0, t1, _, _, _) := trigger_grip_stick m in
  u16 (Z.lor t0 (Z.shiftl (Z.land t1 0x03) 8)).

Definition touch_grip (m : rift_radio_message) : Z :=
  let '(_, t1, t2, _, _) := trigger_grip_stick m in
  u16 (Z.lor (Z.shiftr (Z.land t1 0xfc) 2) (Z.shiftl (Z.land t2 0x0f) 6)).

Definition touch_stick (m : rift_radio_message) : Z * Z :=
  let '(_, _, t2, t3, t4) := trigger_grip_stick m in
  (u16 (Z.lor (Z.shiftr (Z.land t2 0xf0) 4) (Z.shiftl (Z.land t3 0x3f) 4)),
   u16 (Z.lor (Z.shiftr (Z.land t3 0xc0) 6) (Z.shiftl (Z.land t4 0xff) 2))).

Definition set_active (d : rift_wireless_device) : rift_wireless_device :=
  {| dev_id := dev_id d; serial := serial d;
     firmware_date := firmware_date d;
     firmware_version := firmware_version d; active := true |}.

Definition rift_decode_remote_message (r : rift_remote)
    (message : rift_radio_message) : rift_remote :=
  let buttons := int16 (remote_msg_buttons message) in
  if negb (remote_buttons r =? buttons)
  then {| remote_base := remote_base r; remote_buttons := buttons |}
  else r.

(** How the buffer of a message was disposed of. *)
Inductive disposal :=
| Decoded
| UnknownDevice
| Heartbeat
| UnknownMessage.

(** [for (i = 1; i < len && !buf[i]; i++);] over the bytes from index 1. *)
Fixpoint scan_zero (bytes : list Z) (i len : Z) : Z :=
  match bytes with
  | [] => i
  | b :: rest =>
      if (i <? len) && (b =? 0) then scan_zero rest (i + 1) len else i
  end.

Section Radio.

(** Constants of rift-hid-reports.h. *)
Variables RIFT_RADIO_MESSAGE_ID RIFT_RADIO_DATA_REPORT_ID : Z.
Variables RIFT_REMOTE RIFT_TOUCH_CONTROLLER_LEFT RIFT_TOUCH_CONTROLLER_RIGHT : Z.
Variables RIFT_RADIO_SERIAL_NUMBER_CONTROL
          RIFT_RADIO_FIRMWARE_VERSION_CONTROL : Z.
Variables RIFT_TOUCH_CONTROLLER_ADC_A_X RIFT_TOUCH_CONTROLLER_ADC_B_Y
          RIFT_TOUCH_CONTROLLER_ADC_REST RIFT_TOUCH_CONTROLLER_ADC_STICK
          RIFT_TOUCH_CONTROLLER_ADC_TRIGGER : Z.

(** [report_id] is the id the caller put into the report. *)
Definition rift_radio_read (h : hid) (a b c : Z) (report_id : Z)
  : Z * radio_feature * hid :=
  if negb (report_id =? RIFT_RADIO_DATA_REPORT_ID)
  then (- EINVAL, no_feature, h)
  else
    let '(ret, h) := rift_radio_transfer h a b c in
    if ret <? 0 then (ret, no_feature, h)
    else hid_call h.

Definition rift_radio_get_serial (h : hid) (device_type : Z)
    (serial : list Z) : Z * list Z * hid :=
  let '(ret, report, h) :=
    rift_radio_read h 0x03 RIFT_RADIO_SERIAL_NUMBER_CONTROL device_type
                    RIFT_RADIO_DATA_REPORT_ID in
  if ret <? 0 then (ret, serial, h)
  else (0, copy_while g_ascii_isalnum 14 (data_serial_number report) serial,
        h).

Definition rift_radio_get_firmware_version (h : hid) (device_type : Z)
    (firmware_date firmware_version : list Z) : Z * list Z * list Z * hid :=
  let '(ret, report, h) :=
    rift_radio_read h 0x03 RIFT_RADIO_FIRMWARE_VERSION_CONTROL device_type
                    RIFT_RADIO_DATA_REPORT_ID in
  if ret <? 0 then (ret, firmware_date, firmware_version, h)
  else (0,
        copy_while g_ascii_isprint 11 (data_firmware_date report)
                   firmware_date,
        copy_while g_ascii_isalnum 10 (data_firmware_version report)
                   firmware_version,
        h).

Definition rift_radio_activate (dev : rift_wireless_device) (h : hid)
  : Z * rift_wireless_device * hid :=
  let '(ret, serial', h) := rift_radio_get_serial h (dev_id dev) (serial dev) in
  let dev := {| dev_id := dev_id dev; serial := serial';
                firmware_date := firmware_date dev;
                firmware_version := firmware_version dev;
                active := active dev |} in
  if ret <? 0 then (ret, dev, h)
  else
    let '(ret, date', version', h) :=
      rift_radio_get_firmware_version h (dev_id dev) (firmware_date dev)
                                      (firmware_version dev) in
    let dev := {| dev_id := dev_id dev; serial := serial dev;
                  firmware_date := date'; firmware_version := version';
                  active := active dev |} in
    if ret <? 0 then (ret, dev, h)
    else (0, set_active dev, h).

Definition rift_decode_touch_message (touch : rift_touch_controller)
    (message : rift_radio_message) : rift_touch_controller :=
  let adc_value := u16 (adc_value message) in
  let ch := adc_channel message in
  if ch =? RIFT_TOUCH_CONTROLLER_ADC_A_X then
    {| base := base touch; cap_a_x := adc_value; cap_b_y := cap_b_y touch;
       cap_rest := cap_rest touch; cap_stick := cap_stick touch;
       cap_trigger := cap_trigger touch |}
  else if ch =? RIFT_TOUCH_CONTROLLER_ADC_B_Y then
    {| base := base touch; cap_a_x := cap_a_x touch; cap_b_y := adc_value;
       cap_rest := cap_rest touch; cap_stick := cap_stick touch;
       cap_trigger := cap_trigger touch |}
  else if ch =? RIFT_TOUCH_CONTROLLER_ADC_REST then
    {| base := base touch; cap_a_x := cap_a_x touch; cap_b_y := cap_b_y touch;
       cap_rest := adc_value; cap_stick := cap_stick touch;
       cap_trigger := cap_trigger touch |}
  else if ch =? RIFT_TOUCH_CONTROLLER_ADC_STICK then
    {| base := base touch; cap_a_x := cap_a_x touch; cap_b_y := cap_b_y touch;
       cap_rest := cap_rest touch; cap_stick := adc_value;
       cap_trigger := cap_trigger touch |}
  else if ch =? RIFT_TOUCH_CONTROLLER_ADC_TRIGGER then
    {| base := base touch; cap_a_x := cap_a_x touch; cap_b_y := cap_b_y touch;
       cap_rest := cap_rest touch; cap_stick := cap_stick touch;
       cap_trigger := adc_value |}
  else touch.

Definition with_base (touch : rift_touch_controller)
    (b : rift_wireless_device) : rift_touch_controller :=
  {| base := b; cap_a_x := cap_a_x touch; cap_b_y := cap_b_y touch;
     cap_rest := cap_rest touch; cap_stick := cap_stick touch;
     cap_trigger := cap_trigger touch |}.

(** [if (!touch->base.active) rift_radio_activate(&touch->base, fd);]
    followed by the decoding of the payload. *)
Definition activate_and_decode (touch : rift_touch_controller) (h : hid)
    (message : rift_radio_message) : rift_touch_controller * hid :=
  let '(touch, h) :=
    if negb (active (base touch))
    then let '(_, b, h) := rift_radio_activate (base touch) h in
         (with_base touch b, h)
    else (touch, h) in
  (rift_decode_touch_message touch message, h).

(** [bytes] is the buffer itself and [message] the same buffer read as a
    [struct rift_radio_message]. *)
Definition rift_decode_radio_message (radio : rift_radio) (h : hid)
    (bytes : list Z) (message : rift_radio_message) (len : Z)
  : rift_radio * hid * disposal :=
  if id message =? RIFT_RADIO_MESSAGE_ID then
    if device_type message =? RIFT_REMOTE then
      ({| remote := rift_decode_remote_message (remote radio) message;
          touch0 := touch0 radio; touch1 := touch1 radio |}, h, Decoded)
    else if device_type message =? RIFT_TOUCH_CONTROLLER_LEFT then
      let '(t, h) := activate_and_decode (touch0 radio) h message in
      ({| remote := remote radio; touch0 := t; touch1 := touch1 radio |},
       h, Decoded)
    else if device_type message =? RIFT_TOUCH_CONTROLLER_RIGHT then
      let '(t, h) := activate_and_decode (touch1 radio) h message in
      ({| remote := remote radio; touch0 := touch0 radio; touch1 := t |},
       h, Decoded)
    else (radio, h, UnknownDevice)
  else
    let i := scan_zero (tl bytes) 1 len in
    if negb (i =? len) then (radio, h, UnknownMessage)
    else (radio, h, Heartbeat).

End Radio.

(** *** Vocabulary of the specification *)

(** The five capacitive sense fields of a touch controller. *)
Definition cap_fields (t : rift_touch_controller) : list Z :=
  [cap_a_x t; cap_b_y t; cap_rest t; cap_stick t; cap_trigger t].

(** The number of positions at which two lists differ. *)
Fixpoint differences (l1 l2 : list Z) : nat :=
  match l1, l2 with
  | x :: l1', y :: l2' =>
      Nat.add (if Z.eqb x y then O else S O) (differences l1' l2')
  | _, _ => O
  end.

(** A touch controller loses or keeps nothing but the named field. *)
Definition set_cap (t : rift_touch_controller) (k : nat) (v : Z)
  : rift_touch_controller :=
  {| base := base t;
     cap_a_x := if Nat.eqb k 0 then v else cap_a_x t;
     cap_b_y := if Nat.eqb k 1 then v else cap_b_y t;
     cap_rest := if Nat.eqb k 2 then v else cap_rest t;
     cap_stick := if Nat.eqb k 3 then v else cap_stick t;
     cap_trigger := if Nat.eqb k 4 then v else cap_trigger t |}.

(** Of the five capacitive fields of [t'], field [k] holds [v] and the
    others are those of [t]. *)
Definition only_changed (k : nat) (t t' : rift_touch_controller) (v : Z)
  : Prop :=
  nth k (cap_fields t') 0 = v /\
  forall j, j <> k -> nth j (cap_fields t') 0 = nth j (cap_fields t) 0.

(** *** Sample inputs *)

Definition device0 (i : Z) : rift_wireless_device :=
  {| dev_id := i; serial := []; firmware_date := [];
     firmware_version := []; active := false |}.

Definition touch_controller0 (i : Z) : rift_touch_controller :=
  {| base := device0 i; cap_a_x := 10; cap_b_y := 20; cap_rest := 30;
     cap_stick := 40; cap_trigger := 50 |}.

(** The state [rift_radio_init] sets up, for the ids given. *)
Definition radio0 (remote_id left_id right_id : Z) : rift_radio :=
  {| remote := {| remote_base := device0 remote_id; remote_buttons := 0 |};
     touch0 := touch_controller0 left_id;
     touch1 := touch_controller0 right_id |}.

(** A radio message with the given id, device type and payload. *)
Definition radio_message (i ty buttons channel value : Z)
  : rift_radio_message :=
  {| id := i; device_type := ty; remote_msg_buttons := buttons;
     touch_accel := (0, 0, 0); touch_gyro := (0, 0, 0);
     trigger_grip_stick := (0, 0, 0, 0, 0);
     adc_channel := channel; adc_value := value |}.

(** A control report whose status byte shows neither busy nor error, and
    a data report. *)
Definition feature_ok : radio_feature :=
  {| ctl_unknown0 := 0; data_serial_number := [87; 77; 72; 68];
     data_firmware_date := [50; 48; 49; 54];
     data_firmware_version := [49; 48] |}.

(** A device that answers every call. *)
Definition hid_answering : hid :=
  {| pending := repeat (0, feature_ok) 6; sent := [] |}.

(** A device whose first call fails. *)
Definition hid_failing : hid :=
  {| pending := [(-1, feature_ok)]; sent := [] |}.

(** The five bytes [trigger_grip_stick] read as one little-endian word of
    40 bits, and lane [k] of 10 bits of such a word. *)
Definition tgs_word (m : rift_radio_message) : Z :=
  let '(t0, t1, t2, t3, t4) := trigger_grip_stick m in
  t0 + 2 ^ 8 * t1 + 2 ^ 16 * t2 + 2 ^ 24 * t3 + 2 ^ 32 * t4.

Definition lane10 (w k : Z) : Z := (w / 2 ^ (10 * k)) mod 2 ^ 10.

(** The byte values, for arguments by enumeration. *)
Definition all_bytes : list Z := map Z.of_nat (seq 0 256).

Definition is_byte (b : Z) : Prop := 0 <= b < 256.

(** What the packed axes ask of two neighbouring bytes [lo] and [hi]. *)
Definition lanes_ok (lo hi : Z) : bool :=
  (Z.lor lo (Z.shiftl (Z.land hi 0x03) 8) =? (lo + 256 * hi) mod 1024) &&
  (Z.lor (Z.shiftr (Z.land lo 0xfc) 2) (Z.shiftl (Z.land hi 0x0f) 6)
     =? ((lo + 256 * hi) / 4) mod 1024) &&
  (Z.lor (Z.shiftr (Z.land lo 0xf0) 4) (Z.shiftl (Z.land hi 0x3f) 4)
     =? ((lo + 256 * hi) / 16) mod 1024) &&
  (Z.lor (Z.shiftr (Z.land lo 0xc0) 6) (Z.shiftl (Z.land hi 0xff) 2)
     =? ((lo + 256 * hi) / 64) mod 1024).

(** A radio message with the given packed axes. *)
Definition axes_message (t0 t1 t2 t3 t4 : Z) : rift_radio_message :=
  {| id := 0; device_type := 0; remote_msg_buttons := 0;
     touch_accel := (0, 0, 0); touch_gyro := (0, 0, 0);
     trigger_grip_stick := (t0, t1, t2, t3, t4);
     adc_channel := 0; adc_value := 0 |}.

(** A control report that says busy. *)
Definition feature_busy : radio_feature :=
  {| ctl_unknown0 := 0x80; data_serial_number := [];
     data_firmware_date := []; data_firmware_version := [] |}.

(** A radio with both touch controllers active. *)
Definition radio_active (remote_id left_id right_id : Z) : rift_radio :=
  {| remote := {| remote_base := device0 remote_id; remote_buttons := 0 |};
     touch0 := with_base (touch_controller0 left_id)
                 (set_active (device0 left_id));
     touch1 := with_base (touch_controller0 right_id)
                 (set_active (device0 right_id)) |}.

End RiftRadio.

(** ** vive-controller-usb.c *)

Module ViveControllerUsb.
Import ViveImu.

(** [struct button_map]: a bit of the hardware bitmask and the logical
    button it stands for. *)
Record button_map := {
  bit : Z;
  button : Z
}.

Inductive button_event :=
| Pressed (dev_id button : Z)
| Released (dev_id button : Z).

(** Modelled from the spec: [ouvrt_handle_buttons] of buttons.c, which is
    not among the sources.  For each mapping whose bit differs between the
    old and the new bitmask, a press or release event, in the order of the
    mapping list; [bit m] is the position of the bit in the bitmask. *)
Fixpoint ouvrt_handle_buttons (dev_id buttons last_buttons : Z)
    (map : list button_map) : list button_event :=
  match map with
  | [] => []
  | m :: map' =>
      let now := Z.testbit buttons (bit m) in
      let before := Z.testbit last_buttons (bit m) in
      let rest := ouvrt_handle_buttons dev_id buttons last_buttons map' in
      if Bool.eqb now before then rest
      else (if now then Pressed dev_id (button m)
            else Released dev_id (button m)) :: rest
  end.

(** [struct vive_imu_range_modes_report]. *)
Record range_modes_report := {
  gyro_range : Z;
  accel_range : Z
}.

(** [vive_imu_get_range_modes] of vive-imu.c.  The ranges it stores are
    floats; the model keeps the integer factors [250 << gyro_range] and
    [2 << accel_range] they are multiples of.  [None] stands for the
    range 0.0 of a device that has not been asked yet. *)
Definition vive_imu_get_range_modes
    (replies : list (hid_reply range_modes_report)) : Z * option (Z * Z) :=
  match replies with
  | [] => (-1, None)
  | (ret, report) :: rest =>
      if ret <? 0 then (ret, None)
      else
        let again := (gyro_range report =? 0) || (accel_range report =? 0) in
        let second :=
          if again then
            match rest with
            | [] => (-1, report)
            | (ret2, report2) :: _ => (ret2, report2)
            end
          else (ret, report) in
        let '(ret, report) := second in
        if ret <? 0 then (ret, None)
        else if (gyro_range report >? 4) || (accel_range report >? 4)
        then (- EINVAL, None)
        else (0, Some (Z.shiftl 250 (gyro_range report),
                       Z.shiftl 2 (accel_range report)))
  end.

(** [struct vive_controller_lighthouse_pulse]. *)
Record lighthouse_pulse := {
  pulse_id : Z;
  pulse_duration : Z;
  pulse_timestamp : Z
}.

(** [struct vive_controller_button_report]. *)
Record button_report := {
  battery : Z;
  report_buttons : Z
}.

(** [OuvrtViveControllerUSB] with what the device has handed on: the raw
    IMU samples, the pulses given to the Lighthouse receiver as
    (sensor id, duration, timestamp), and the button events. *)
Record controller := {
  dev_active : bool;
  dev_id : Z;
  imu : vive_imu;
  imu_range : option (Z * Z);
  buttons : Z;
  imu_out : list (Z * raw_imu_sample);
  pulses : list (Z * Z * Z);
  events : list button_event
}.

(** The loop over [report->pulse[0..6]]: what is handed to
    [lighthouse_watchman_handle_pulse], in order. *)
Fixpoint decode_pulses (report : list lighthouse_pulse) : list (Z * Z * Z) :=
  match report with
  | [] => []
  | pulse :: rest =>
      let sensor_id := u16 (pulse_id pulse) in
      if sensor_id =? 0xffff then decode_pulses rest
      else if sensor_id >? 31 then []
      else (sensor_id, u16 (pulse_duration pulse),
            u32 (pulse_timestamp pulse)) :: decode_pulses rest
  end.

Definition vive_controller_decode_pulse_report (self : controller)
    (report : list lighthouse_pulse) : controller :=
  {| dev_active := dev_active self; dev_id := dev_id self; imu := imu self;
     imu_range := imu_range self; buttons := buttons self;
     imu_out := imu_out self;
     pulses := pulses self ++ decode_pulses (firstn 7 report);
     events := events self |}.

(** What a [read] produced: its return value, [buf[0]], and the buffer
    seen through the struct of the interface. *)
Record read_result (R : Type) := {
  rd_ret : Z;
  rd_id : Z;
  rd_view : R
}.
Arguments rd_ret {R} _.
Arguments rd_id {R} _.
Arguments rd_view {R} _.

(** What one turn of the loop of [vive_controller_usb_thread] finds. *)
Record usb_round := {
  u_active : bool;
  u_poll_ret : Z;
  u_revents0 : Z;
  u_revents1 : Z;
  u_revents2 : Z;
  u_range_replies : list (hid_reply range_modes_report);
  u_read0 : read_result vive_imu_report;
  u_read1 : read_result (list lighthouse_pulse);
  u_read2 : read_result button_report
}.

Section Controller.

(** Constants of vive-hid-reports.h and buttons.h. *)
Variables VIVE_IMU_REPORT_ID VIVE_CONTROLLER_LIGHTHOUSE_PULSE_REPORT_ID
          VIVE_CONTROLLER_BUTTON_REPORT_ID : Z.
Variables VIVE_CONTROLLER_USB_BUTTON_TRIGGER VIVE_CONTROLLER_USB_BUTTON_GRIP
          VIVE_CONTROLLER_USB_BUTTON_MENU VIVE_CONTROLLER_USB_BUTTON_SYSTEM
          VIVE_CONTROLLER_USB_BUTTON_THUMB VIVE_CONTROLLER_USB_BUTTON_TOUCH : Z.
Variables OUVRT_BUTTON_TRIGGER OUVRT_BUTTON_GRIP OUVRT_BUTTON_MENU
          OUVRT_BUTTON_SYSTEM OUVRT_BUTTON_THUMB OUVRT_TOUCH_THUMB : Z.

Definition vive_controller_usb_button_map : list button_map :=
  [ {| bit := VIVE_CONTROLLER_USB_BUTTON_TRIGGER;
       button := OUVRT_BUTTON_TRIGGER |};
    {| bit := VIVE_CONTROLLER_USB_BUTTON_GRIP;
       button := OUVRT_BUTTON_GRIP |};
    {| bit := VIVE_CONTROLLER_USB_BUTTON_MENU;
       button := OUVRT_BUTTON_MENU |};
    {| bit := VIVE_CONTROLLER_USB_BUTTON_SYSTEM;
       button := OUVRT_BUTTON_SYSTEM |};
    {| bit := VIVE_CONTROLLER_USB_BUTTON_THUMB;
       button := OUVRT_BUTTON_THUMB |};
    {| bit := VIVE_CONTROLLER_USB_BUTTON_TOUCH;
       button := OUVRT_TOUCH_THUMB |} ].

Definition vive_controller_decode_button_message (self : controller)
    (report : button_report) : controller :=
  let buttons' := u32 (report_buttons report) in
  if negb (battery report =? 0) && (buttons' =? 0) then self
  else if negb (buttons' =? buttons self) then
    {| dev_active := dev_active self; dev_id := dev_id self; imu := imu self;
       imu_range := imu_range self; buttons := buttons';
       imu_out := imu_out self; pulses := pulses self;
       events := events self ++
                 ouvrt_handle_buttons (dev_id self) buttons' (buttons self)
                   (firstn 6 vive_controller_usb_button_map) |}
  else self.

Definition set_range (self : controller) (r : option (Z * Z)) : controller :=
  {| dev_active := dev_active self; dev_id := dev_id self; imu := imu self;
     imu_range := r; buttons := buttons self; imu_out := imu_out self;
     pulses := pulses self; events := events self |}.

Definition set_inactive (self : controller) : controller :=
  {| dev_active := false; dev_id := dev_id self; imu := imu self;
     imu_range := imu_range self; buttons := buttons self;
     imu_out := imu_out self; pulses := pulses self;
     events := events self |}.

Definition handle_imu_message (self : controller)
    (report : vive_imu_report) : controller :=
  let '(imu', out) := vive_imu_decode_message (imu self) report in
  {| dev_active := dev_active self; dev_id := dev_id self; imu := imu';
     imu_range := imu_range self; buttons := buttons self;
     imu_out := imu_out self ++ out; pulses := pulses self;
     events := events self |}.

(** Lines 246 to 259, the IMU interface.  The boolean is [false] when the
    branch leaves the turn through [continue]. *)
Definition imu_interface (ev : usb_round) (self : controller)
  : controller * bool :=
  if negb (Z.land (u_revents0 ev) POLLIN =? 0) then
    let ret := rd_ret (u_read0 ev) in
    if ret =? -1 then (self, false)
    else if (ret =? 52) && (rd_id (u_read0 ev) =? VIVE_IMU_REPORT_ID)
    then (handle_imu_message self (rd_view (u_read0 ev)), true)
    else (self, true)
  else (self, true).

(** Lines 260 to 273, the Lighthouse receiver interface. *)
Definition pulse_interface (ev : usb_round) (self : controller)
  : controller * bool :=
  if negb (Z.land (u_revents1 ev) POLLIN =? 0) then
    let ret := rd_ret (u_read1 ev) in
    if ret =? -1 then (self, false)
    else if (ret =? 58) &&
            (rd_id (u_read1 ev) =? VIVE_CONTROLLER_LIGHTHOUSE_PULSE_REPORT_ID)
    then (vive_controller_decode_pulse_report self (rd_view (u_read1 ev)),
          true)
    else (self, true)
  else (self, true).

(** Lines 274 to 287, the button interface. *)
Definition button_interface (ev : usb_round) (self : controller)
  : controller * bool :=
  if negb (Z.land (u_revents2 ev) POLLIN =? 0) then
    let ret := rd_ret (u_read2 ev) in
    if ret =? -1 then (self, false)
    else if (ret =? 64) &&
            (rd_id (u_read2 ev) =? VIVE_CONTROLLER_BUTTON_REPORT_ID)
    then (vive_controller_decode_button_message self (rd_view (u_read2 ev)),
          true)
    else (self, true)
  else (self, true).

Definition poll_failed (revents : Z) : bool :=
  negb (Z.land revents (Z.lor (Z.lor POLLERR POLLHUP) POLLNVAL) =? 0).

(** The body of the [while] loop; the boolean is [false] on [break]. *)
Definition vive_controller_usb_thread_round (ev : usb_round)
    (self : controller) : controller * bool :=
  let ret := u_poll_ret ev in
  if ret =? -1 then (self, true)
  else if ret =? 0 then (self, true)
  else if poll_failed (u_revents0 ev) || poll_failed (u_revents1 ev)
  then (set_inactive self, false)
  else
    let ranged :=
      match imu_range self with
      | None =>
          let '(ret, r) := vive_imu_get_range_modes (u_range_replies ev) in
          if ret <? 0 then None else Some (set_range self r)
      | Some _ => Some self
      end in
    match ranged with
    | None => (self, true)
    | Some self =>
        let '(self, go_on) := imu_interface ev self in
        if negb go_on then (self, true)
        else
          let '(self, go_on) := pulse_interface ev self in
          if negb go_on then (self, true)
          else (fst (button_interface ev self), true)
    end.

Fixpoint vive_controller_usb_thread (script : list usb_round)
    (self : controller) : controller :=
  match script with
  | [] => self
  | ev :: script' =>
      if negb (u_active ev && dev_active self) then self
      else
        let '(self', go_on) := vive_controller_usb_thread_round ev self in
        if go_on then vive_controller_usb_thread script' self' else self'
  end.

End Controller.

(** *** Vocabulary of the specification *)

(** The report is the heartbeat of line 163: a battery reading with an
    all-zero button field. *)
Definition heartbeat (report : button_report) : Prop :=
  battery report <> 0 /\ u32 (report_buttons report) = 0.

(** The event for the mapping [m] when the bitmask [buttons] arrives. *)
Definition edge_event (dev_id buttons : Z) (m : button_map) : button_event :=
  if Z.testbit buttons (bit m) then Pressed dev_id (button m)
  else Released dev_id (button m).

(** *** Sample inputs *)

(** A turn in which only the IMU interface has input: [ret] bytes were
    read and the first of them is [i]. *)
Definition imu_round (ret i : Z) (report : vive_imu_report) : usb_round :=
  {| u_active := true; u_poll_ret := 1;
     u_revents0 := POLLIN; u_revents1 := 0; u_revents2 := 0;
     u_range_replies := [];
     u_read0 := {| rd_ret := ret; rd_id := i; rd_view := report |};
     u_read1 := {| rd_ret := -1; rd_id := 0; rd_view := [] |};
     u_read2 := {| rd_ret := -1; rd_id := 0;
                   rd_view := {| battery := 0; report_buttons := 0 |} |} |}.

Definition controller0 : controller :=
  {| dev_active := true; dev_id := 7;
     imu := {| sequence := 5; imu_time := 1000 |};
     imu_range := Some (250, 2); buttons := 0;
     imu_out := []; pulses := []; events := [] |}.

(** [poll] reports a hangup on the IMU interface. *)
Definition disconnect_round : usb_round :=
  {| u_active := true; u_poll_ret := 1;
     u_revents0 := POLLHUP; u_revents1 := 0; u_revents2 := 0;
     u_range_replies := [];
     u_read0 := {| rd_ret := -1; rd_id := 0;
                   rd_view := {| sample0 := tick_sample 0 0;
                                 sample1 := tick_sample 0 0;
                                 sample2 := tick_sample 0 0 |} |};
     u_read1 := {| rd_ret := -1; rd_id := 0; rd_view := [] |};
     u_read2 := {| rd_ret := -1; rd_id := 0;
                   rd_view := {| battery := 0; report_buttons := 0 |} |} |}.

(** What a pulse handed to the Lighthouse receiver looks like: a sensor
    id of at most 31, a 16 bit duration and a 32 bit timestamp. *)
Definition pulse_in_range (p : Z * Z * Z) : Prop :=
  let '(sensor_id, duration, timestamp) := p in
  0 <= sensor_id <= 31 /\ 0 <= duration < 2 ^ 16 /\
  0 <= timestamp < 2 ^ 32.

End ViveControllerUsb.

(** ** Properties of vive-imu.c *)

Module ViveImuFacts.
Import ViveImu.

Lemma in_windowb_spec last q : in_windowb last q = true <-> in_window last q.
Proof.
  unfold in_windowb, in_window. rewrite existsb_exists. split.
  - intros [k [Hk Hq]]. exists k. apply Z.eqb_eq in Hq.
    simpl in Hk. intuition lia.
  - intros [k [Hk Hq]]. exists k. split.
    + simpl. lia.
    + now apply Z.eqb_eq.
Qed.

Ltac u8_lia :=
  unfold trails_by_2, u8 in *; change (2 ^ 8) with 256 in *;
  Z.div_mod_to_equations; lia.

Ltac eqb_cases :=
  repeat match goal with
         | |- context [?x =? ?y] => destruct (Z.eqb_spec x y)
         end.

Lemma already_seen_window last q :
  0 <= last < 256 -> already_seen last q = in_windowb last q.
Proof.
  intros Hl. unfold already_seen, in_windowb. simpl.
  rewrite Z.sub_0_r, orb_false_r, orb_assoc.
  replace (u8 last) with last by u8_lia. reflexivity.
Qed.

Lemma oldest_sequence_index_range a b c :
  0 <= oldest_sequence_index a b c < 3.
Proof. unfold oldest_sequence_index. eqb_cases; lia. Qed.

(** On a round-robin triple the index is that of the slot holding [n]. *)
Lemma oldest_sequence_index_rotation a b c n :
  0 <= n < 256 -> slot_rotation a b c n ->
  oldest_sequence_index a b c =
    (if a =? n then 0 else if b =? n then 1 else 2) /\
  (a = n \/ b = n \/ c = n).
Proof.
  intros Hn [(-> & -> & ->)|[(-> & -> & ->)|(-> & -> & ->)]];
    unfold oldest_sequence_index; split; try tauto;
    eqb_cases; try reflexivity; exfalso; u8_lia.
Qed.

Lemma map_filter_comm {A B} (f : A -> B) (p : B -> bool) (l : list A) :
  map f (filter (fun x => p (f x)) l) = filter p (map f l).
Proof.
  induction l as [|x l IH]; simpl; [reflexivity|].
  destruct (p (f x)); simpl; now rewrite IH.
Qed.

Lemma last_cons {A} (l : list A) : forall x d,
  List.last (x :: l) d = List.last l x.
Proof.
  induction l as [|y l IH]; intros x d; [reflexivity|].
  change (List.last (x :: y :: l) d) with (List.last (y :: l) d).
  rewrite !IH. reflexivity.
Qed.

(** Which slots three turns of the loop handle, whatever the start. *)
Lemma decode_loop_slots i last report imu :
  map fst (snd (decode_loop 3 i last report imu)) =
  filter (fun k => negb (already_seen last (seq (sample_at report k))))
         [i; (i + 1) mod 3; ((i + 1) mod 3 + 1) mod 3].
Proof.
  simpl.
  repeat match goal with
         | |- context [already_seen ?l ?s] => destruct (already_seen l s)
         end; reflexivity.
Qed.

(** What a handled slot carries, and what the device remembers. *)
Lemma decode_loop_data j : forall i lst report imu,
  0 <= i < 3 ->
  let r := decode_loop j i lst report imu in
  (forall d, In d (snd r) ->
     0 <= fst d < 3 /\
     raw_acc (snd d) = triple_map int16 (acc (sample_at report (fst d))) /\
     raw_gyro (snd d) = triple_map int16 (gyro (sample_at report (fst d)))) /\
  sequence (fst r) =
    List.last (map (delivered_seq report) (snd r)) (sequence imu).
Proof.
  induction j as [|j IH]; intros i lst report imu Hi.
  - split; [intros d []|reflexivity].
  - assert (Hi' : 0 <= (i + 1) mod 3 < 3) by (apply Z.mod_pos_bound; lia).
    cbn [decode_loop]. cbv zeta.
    destruct (already_seen lst (seq (sample_at report i))).
    + apply IH; assumption.
    + set (imu1 := {| sequence := seq (sample_at report i);
                      imu_time := _ |}).
      specialize (IH ((i + 1) mod 3) lst report imu1 Hi').
      destruct (decode_loop j ((i + 1) mod 3) lst report imu1) as [imu2 out].
      cbv zeta in IH. cbn [fst snd] in *. destruct IH as [IHd IHs]. split.
      * intros d [<-|Hd]; [cbn; auto|now apply IHd].
      * rewrite IHs. cbn [map]. rewrite last_cons. reflexivity.
Qed.

(** C4.  For a triple of 8 bit counters that is a slot rotation of
    [n], [n+1], [n+2] (mod 256), [oldest_sequence_index] is the index of the
    slot that holds [n], the counter trailing the newest one, [n+2], by
    exactly 2; for a triple in which no slot's counter trails another
    slot's counter by 2, it is 0. *)
Theorem oldest_sequence_index_correct :
  (forall a b c n,
      0 <= n < 256 -> slot_rotation a b c n ->
      let i := oldest_sequence_index a b c in
      let slot := fun k => if k =? 0 then a else if k =? 1 then b else c in
      0 <= i < 3 /\ slot i = n /\
      trails_by_2 (slot i) (u8 (n + 2)) /\
      (forall k, 0 <= k < 3 -> slot k = n -> k = i) /\
      (exists k, 0 <= k < 3 /\ slot k = u8 (n + 2))) /\
  (forall a b c,
      (forall x y, In x [a; b; c] -> In y [a; b; c] -> ~ trails_by_2 x y) ->
      oldest_sequence_index a b c = 0).
Proof.
  split.
  - intros a b c n Hn Hrot. cbv zeta.
    destruct (oldest_sequence_index_rotation a b c n Hn Hrot) as [-> _].
    destruct Hrot as [(-> & -> & ->)|[(-> & -> & ->)|(-> & -> & ->)]].
    + rewrite Z.eqb_refl. simpl. repeat split; try lia; try reflexivity.
      * intros k Hk. assert (k = 0 \/ k = 1 \/ k = 2) as [-> | [-> | ->]] by lia;
          simpl; intros E; try reflexivity; exfalso; u8_lia.
      * exists 2. simpl. split; [lia|reflexivity].
    + destruct (Z.eqb_spec (u8 (n + 2)) n) as [E|_]; [exfalso; u8_lia|].
      rewrite Z.eqb_refl. simpl. repeat split; try lia; try reflexivity.
      * intros k Hk. assert (k = 0 \/ k = 1 \/ k = 2) as [-> | [-> | ->]] by lia;
          simpl; intros E; try reflexivity; exfalso; u8_lia.
      * exists 0. simpl. split; [lia|reflexivity].
    + destruct (Z.eqb_spec (u8 (n + 1)) n) as [E|_]; [exfalso; u8_lia|].
      destruct (Z.eqb_spec (u8 (n + 2)) n) as [E|_]; [exfalso; u8_lia|].
      simpl. repeat split; try lia; try reflexivity.
      * intros k Hk. assert (k = 0 \/ k = 1 \/ k = 2) as [-> | [-> | ->]] by lia;
          simpl; intros E; try reflexivity; exfalso; u8_lia.
      * exists 1. simpl. split; [lia|reflexivity].
  - intros a b c Hno. unfold oldest_sequence_index.
    destruct (Z.eqb_spec a (u8 (b + 2))) as [E|_].
    + exfalso. apply (Hno b a); simpl; auto. symmetry. exact E.
    + destruct (Z.eqb_spec b (u8 (c + 2))) as [E|_]; [|reflexivity].
      exfalso. apply (Hno c b); simpl; auto. symmetry. exact E.
Qed.

(** The counters 255, 0, 1 with the oldest in slot 1, and a triple of
    equal counters. *)
Lemma oldest_sequence_index_correct_witness :
  oldest_sequence_index 1 255 0 = 1 /\ oldest_sequence_index 7 7 7 = 0.
Proof.
  split.
  - assert (R : slot_rotation 1 255 0 255)
      by (right; left; repeat split; reflexivity).
    destruct (proj1 oldest_sequence_index_correct 1 255 0 255
                ltac:(lia) R) as (_ & _ & _ & U & _).
    symmetry. apply U; [lia|reflexivity].
  - apply (proj2 oldest_sequence_index_correct 7 7 7).
    intros x y Hx Hy. simpl in Hx, Hy. unfold trails_by_2.
    assert (x = 7) as -> by intuition congruence.
    assert (y = 7) as -> by intuition congruence.
    vm_compute. discriminate.
Defined.

(** The slots in the order the loop visits them, on a round-robin triple. *)
Lemma visit_order report n :
  0 <= n < 256 ->
  slot_rotation (seq (sample0 report)) (seq (sample1 report))
                (seq (sample2 report)) n ->
  let i := oldest_sequence_index (seq (sample0 report))
             (seq (sample1 report)) (seq (sample2 report)) in
  let order := [i; (i + 1) mod 3; ((i + 1) mod 3 + 1) mod 3] in
  map (fun k => seq (sample_at report k)) order = [n; u8 (n + 1); u8 (n + 2)] /\
  NoDup order /\ (forall k, 0 <= k < 3 -> In k order).
Proof.
  intros Hn Hrot. cbv zeta.
  destruct (oldest_sequence_index_rotation _ _ _ n Hn Hrot) as [-> _].
  destruct Hrot as [(E0 & E1 & E2)|[(E1 & E2 & E0)|(E2 & E0 & E1)]].
  - rewrite E0, Z.eqb_refl. cbn. rewrite E0, E1, E2. repeat split.
    + repeat constructor; cbn; intuition lia.
    + intros k Hk. cbn. lia.
  - destruct (Z.eqb_spec (seq (sample0 report)) n) as [E|_];
      [exfalso; u8_lia|].
    rewrite E1, Z.eqb_refl. cbn. rewrite E0, E1, E2. repeat split.
    + repeat constructor; cbn; intuition lia.
    + intros k Hk. cbn. lia.
  - destruct (Z.eqb_spec (seq (sample0 report)) n) as [E|_];
      [exfalso; u8_lia|].
    destruct (Z.eqb_spec (seq (sample1 report)) n) as [E|_];
      [exfalso; u8_lia|].
    cbn. rewrite E0, E1, E2. repeat split.
    + repeat constructor; cbn; intuition lia.
    + intros k Hk. cbn. lia.
Qed.

(** C1.  When the three slots hold a round-robin triple [n], [n+1], [n+2]
    (mod 256), whatever sequence number was delivered last,
    [vive_imu_decode_message] hands on the samples whose sequence number is
    neither the last delivered one nor one of its two predecessors: each of
    them once, in the order [n], [n+1], [n+2], with the data of its slot,
    and no sample inside that window; the device then remembers the last
    sequence number handed on. *)
Theorem vive_imu_decode_message_delivers
    (imu : vive_imu) (report : vive_imu_report) (n : Z) :
  0 <= n < 256 ->
  0 <= sequence imu < 256 ->
  slot_rotation (seq (sample0 report)) (seq (sample1 report))
                (seq (sample2 report)) n ->
  let r := vive_imu_decode_message imu report in
  map (delivered_seq report) (snd r) =
    filter (fun q => negb (in_windowb (sequence imu) q))
           [n; u8 (n + 1); u8 (n + 2)] /\
  NoDup (map fst (snd r)) /\
  (forall i, 0 <= i < 3 ->
     ~ in_window (sequence imu) (seq (sample_at report i)) ->
     In i (map fst (snd r))) /\
  (forall d, In d (snd r) ->
     ~ in_window (sequence imu) (delivered_seq report d)) /\
  (forall d, In d (snd r) ->
     0 <= fst d < 3 /\
     raw_acc (snd d) = triple_map int16 (acc (sample_at report (fst d))) /\
     raw_gyro (snd d) = triple_map int16 (gyro (sample_at report (fst d)))) /\
  sequence (fst r) =
    List.last (map (delivered_seq report) (snd r)) (sequence imu).
Proof.
  intros Hn Hlast Hrot r.
  destruct (visit_order report n Hn Hrot) as (Hseqs & Hnd & Hall).
  pose proof (decode_loop_slots
                (oldest_sequence_index (seq (sample0 report))
                   (seq (sample1 report)) (seq (sample2 report)))
                (sequence imu) report imu) as Hslots.
  fold (vive_imu_decode_message imu report) in Hslots. fold r in Hslots.
  assert (Hp : forall k,
             negb (already_seen (sequence imu) (seq (sample_at report k))) = true
             <-> ~ in_window (sequence imu) (seq (sample_at report k))).
  { intros k. rewrite already_seen_window by assumption.
    rewrite <- in_windowb_spec.
    destruct (in_windowb (sequence imu) (seq (sample_at report k))); simpl;
      split; congruence. }
  destruct (decode_loop_data 3
              (oldest_sequence_index (seq (sample0 report))
                 (seq (sample1 report)) (seq (sample2 report)))
              (sequence imu) report imu
              (oldest_sequence_index_range _ _ _)) as [Hdata Hmem].
  fold (vive_imu_decode_message imu report) in Hdata, Hmem.
  fold r in Hdata, Hmem.
  repeat split.
  - unfold delivered_seq.
    rewrite <- (map_map fst (fun k => seq (sample_at report k))), Hslots.
    rewrite <- Hseqs.
    rewrite <- (map_filter_comm (fun k => seq (sample_at report k))
                  (fun q => negb (in_windowb (sequence imu) q))).
    f_equal. apply filter_ext. intros k.
    now rewrite already_seen_window.
  - rewrite Hslots. apply NoDup_filter. exact Hnd.
  - intros i Hi Hw. rewrite Hslots. apply filter_In. split.
    + apply Hall. exact Hi.
    + apply Hp. exact Hw.
  - intros d Hd. unfold delivered_seq. apply Hp.
    assert (Hin : In (fst d) (map fst (snd r))) by (apply in_map; exact Hd).
    rewrite Hslots in Hin. apply filter_In in Hin. apply Hin.
  - apply Hdata; assumption.
  - apply Hdata; assumption.
  - apply Hdata; assumption.
  - apply Hdata; assumption.
  - exact Hmem.
Qed.

(** After sample 5 the report 6, 7, 5 yields 6 and then 7. *)
Lemma vive_imu_decode_message_delivers_witness :
  map (delivered_seq report_675)
      (snd (vive_imu_decode_message {| sequence := 5; imu_time := 1000 |}
              report_675)) = [6; 7].
Proof.
  destruct (vive_imu_decode_message_delivers
              {| sequence := 5; imu_time := 1000 |} report_675 5)
    as [H _].
  - lia.
  - simpl. lia.
  - right. right. repeat split; reflexivity.
  - rewrite H. reflexivity.
Defined.

(** The second half of the specification's scripted example: once 7 was
    delivered, a report holding 6, 7, 7 yields nothing. *)
Example repeated_report_yields_nothing :
  snd (vive_imu_decode_message {| sequence := 7; imu_time := 3000 |}
         {| sample0 := tick_sample 6 2000;
            sample1 := tick_sample 7 3000;
            sample2 := tick_sample 7 3000 |}) = [].
Proof. reflexivity. Qed.

(** *** The time of a sample *)

Lemma not_uint_ffffffff : not_uint 0xffffffff = 0.
Proof. reflexivity. Qed.

(** What lines 110 to 114 compute: the upper half of the stored time is
    masked away, so the result is the tick, plus 2^32 when the tick is
    below the stored low half. *)
Lemma sample_time_value stored t :
  0 <= t < 2 ^ 32 ->
  sample_time stored t =
    if t <? Z.land stored 0xffffffff then 2 ^ 32 + t else t.
Proof.
  intros Ht. unfold sample_time. rewrite not_uint_ffffffff, Z.land_0_r.
  destruct (t <? Z.land stored 0xffffffff).
  - change (u64 (0 + 0x100000000)) with (2 ^ 32).
    assert (L : Z.land (2 ^ 32) t = 0).
    { apply Z.bits_inj'. intros k Hk. rewrite Z.land_spec, Z.bits_0.
      destruct (Z.eq_dec k 32) as [->|Hne].
      - replace (Z.testbit t 32) with false; [reflexivity|].
        symmetry. destruct (Z.eq_dec t 0) as [->|]; [reflexivity|].
        apply Z.bits_above_log2; [lia|]. apply Z.log2_lt_pow2; lia.
      - rewrite (Z.pow2_bits_false 32 k) by lia. reflexivity. }
    pose proof (Z.add_lor_land (2 ^ 32) t) as H. rewrite L in H. lia.
  - apply Z.lor_0_l.
Qed.

(** Once the stored time has left the first two periods of the tick, the
    time of the next sample lies before it, whatever the tick. *)
Lemma sample_time_forgets_base stored t :
  2 ^ 33 <= stored -> 0 <= t < 2 ^ 32 -> sample_time stored t < stored.
Proof.
  intros Hs Ht. rewrite sample_time_value by assumption.
  destruct (t <? Z.land stored 0xffffffff); lia.
Qed.

(** The unwrapper as the specification words it never goes back. *)
Lemma unwrap_spec_monotone stored t :
  0 <= stored -> 0 <= t < 2 ^ 32 -> stored <= unwrap_spec stored t.
Proof.
  intros Hs Ht. unfold unwrap_spec.
  pose proof (Z.mod_pos_bound stored (2 ^ 32) ltac:(lia)) as Hm.
  destruct (Z.ltb_spec t (stored mod 2 ^ 32)); lia.
Qed.

(** C2 (fails on the code).  On ticks 0xfffffff0, 0x5, 0x10, one wrap
    between the first two, [vive_imu_decode_message] produces the times
    2^32 - 16, 2^32 + 5 and then 16: the carry of the wrap is lost with the
    next sample, and the times go back.  The unwrapper of the specification
    yields 2^32 + 16 there. *)
Theorem vive_imu_time_goes_back :
  let r := vive_imu_decode_message {| sequence := 0; imu_time := 0 |}
             report_wrap in
  raw_times (snd r) = [4294967280; 4294967301; 16] /\
  imu_time (fst r) = 16 /\
  unwrap_spec (unwrap_spec (unwrap_spec 0 0xfffffff0) 0x5) 0x10 = 4294967312.
Proof. cbv zeta. repeat split; reflexivity. Qed.

End ViveImuFacts.

(** ** Properties of rift.c *)

Module RiftFacts.
Import Rift.

Ltac ten_cases i :=
  let C := fresh "C" in
  assert (C : i = 0 \/ i = 1 \/ i = 2 \/ i = 3 \/ i = 4 \/
              i = 5 \/ i = 6 \/ i = 7 \/ i = 8 \/ i = 9) by lia;
  repeat (destruct C as [C|C]); subst i.

(** Replaces the bits of constants by their values, leaving those of [p]. *)
Ltac const_bits p :=
  repeat match goal with
         | |- context [Z.testbit ?c ?k] =>
             lazymatch c with
             | p => fail
             | _ => let v := eval vm_compute in (Z.testbit c k) in
                    change (Z.testbit c k) with v
             end
         end.

(** *** The blink patterns *)

(** A symbol is made of two bits of the packed value. *)
Lemma symbol_bits p i :
  0 <= i ->
  symbol p i =
    2 * Z.b2z (Z.testbit p (2 * i + 1)) + Z.b2z (Z.testbit p (2 * i)).
Proof.
  intros Hi. unfold symbol.
  change 3 with (Z.ones 2). rewrite Z.land_ones by lia.
  set (x := Z.shiftr p (2 * i)).
  assert (H0 : Z.testbit p (2 * i) = Z.testbit x 0).
  { unfold x. rewrite Z.shiftr_spec by lia. f_equal. }
  assert (H1 : Z.testbit p (2 * i + 1) = Z.testbit x 1).
  { unfold x. rewrite Z.shiftr_spec by lia. f_equal. lia. }
  rewrite H0, H1, Z.bit0_mod, (Z.testbit_spec' x 1) by lia.
  change (2 ^ 1) with 2. change (2 ^ 2) with 4.
  Z.div_mod_to_equations. lia.
Qed.

Lemma symbol_dark_or_bright p i :
  0 <= i ->
  (symbol p i = DARK \/ symbol p i = BRIGHT) <-> Z.testbit p (2 * i) = true.
Proof.
  intros Hi. rewrite symbol_bits by assumption. unfold DARK, BRIGHT.
  destruct (Z.testbit p (2 * i + 1)), (Z.testbit p (2 * i)); simpl;
    intuition (try lia; try congruence).
Qed.

Lemma symbol_bright p i :
  0 <= i -> Z.testbit p (2 * i) = true ->
  (symbol p i =? BRIGHT) = Z.testbit p (2 * i + 1).
Proof.
  intros Hi H0. rewrite symbol_bits, H0 by assumption. unfold BRIGHT.
  destruct (Z.testbit p (2 * i + 1)); reflexivity.
Qed.

(** The test of line 217 demands the low bit of each of the ten symbols. *)
Lemma well_formed_bits p :
  pattern_well_formed p = true ->
  forall i, 0 <= i < 10 -> Z.testbit p (2 * i) = true.
Proof.
  unfold pattern_well_formed. intros H i Hi. apply Z.eqb_eq in H.
  assert (B : Z.testbit (Z.land p (u32 (not_int 0xaaaaa))) (2 * i)
              = Z.testbit 0x55555 (2 * i)) by (rewrite H; reflexivity).
  rewrite Z.land_spec in B.
  ten_cases i;
    (change (Z.testbit (u32 (not_int 699050)) _) with true in B;
     change (Z.testbit 349525 _) with true in B;
     rewrite andb_true_r in B; exact B).
Qed.

(** A 20 bit value with these ten bits set passes it. *)
Lemma well_formed_intro p :
  0 <= p < 2 ^ 20 ->
  (forall i, 0 <= i < 10 -> Z.testbit p (2 * i) = true) ->
  pattern_well_formed p = true.
Proof.
  intros Hp H. unfold pattern_well_formed. apply Z.eqb_eq.
  apply Z.bits_inj'. intros k Hk. rewrite Z.land_spec.
  destruct (Z.lt_ge_cases k 20) as [Hlt|Hge].
  - assert (C : exists i, 0 <= i < 10 /\ (k = 2 * i \/ k = 2 * i + 1)).
    { exists (k / 2). Z.div_mod_to_equations. lia. }
    destruct C as (i & Hi & [-> | ->]).
    + rewrite (H i Hi). ten_cases i; reflexivity.
    + ten_cases i;
        (change (Z.testbit (u32 (not_int 699050)) _) with false;
         change (Z.testbit 349525 _) with false; apply andb_false_r).
  - replace (Z.testbit p k) with false.
    + replace (Z.testbit 349525 k) with false; [reflexivity|].
      symmetry. apply Z.bits_above_log2; [lia|].
      change (Z.log2 349525) with 18. lia.
    + symmetry. destruct (Z.eq_dec p 0) as [->|]; [apply Z.bits_0|].
      apply Z.bits_above_log2; [lia|].
      apply Z.lt_le_trans with 20; [apply Z.log2_lt_pow2; lia|lia].
Qed.

(** Lines 224 to 232 gather the high bits of the ten symbols. *)
Lemma deinterleave_bit p i :
  0 <= i < 10 -> Z.testbit (deinterleave p) i = Z.testbit p (2 * i + 1).
Proof.
  intros Hi. unfold deinterleave.
  ten_cases i;
    repeat first [rewrite Z.land_spec | rewrite Z.lor_spec
                 | rewrite Z.shiftr_spec by lia];
    const_bits p;
    rewrite ?andb_false_r, ?andb_true_r, ?orb_false_r, ?orb_false_l;
    reflexivity.
Qed.

Lemma deinterleave_range p : 0 <= deinterleave p < 2 ^ 10.
Proof.
  unfold deinterleave. change 0x3ff with (Z.ones 10).
  rewrite Z.land_ones by lia. apply Z.mod_pos_bound. lia.
Qed.

Lemma all_patterns_complete bits : 0 <= bits < 2 ^ 10 -> In bits all_patterns.
Proof.
  intros H. unfold all_patterns.
  rewrite <- (Z2Nat.id bits) by lia. apply in_map. apply in_seq.
  change (2 ^ 10) with 1024 in H. lia.
Qed.

Lemma pack_symbols_nonneg n : forall bits, 0 <= pack_symbols n bits.
Proof.
  induction n as [|n IH]; intros bits; cbn [pack_symbols]; [lia|].
  apply Z.lor_nonneg. split.
  - destruct (Z.odd bits); unfold BRIGHT, DARK; lia.
  - apply Z.shiftl_nonneg. apply IH.
Qed.

Lemma round_trip_all : forallb round_trip_ok all_patterns = true.
Proof. vm_compute. reflexivity. Qed.

Lemma led_pattern_record_some num report table table' :
  led_pattern_record num report table = Some table' ->
  record_valid report /\ led_index report < num.
Proof.
  unfold led_pattern_record, record_valid.
  destruct (Z.geb_spec (led_index report) num); [discriminate|].
  destruct (Z.eqb_spec (led_pattern_length report) 10); [|discriminate].
  destruct (pattern_well_formed (led_pattern report)) eqn:W; [|discriminate].
  intros _. repeat split; try lia; try assumption.
  intros i Hi. apply symbol_dark_or_bright; [lia|].
  apply well_formed_bits; assumption.
Qed.

(** The read of the patterns returns 0 or a negative value. *)
Lemma led_pattern_loop_ret script : forall i num report table,
  fst (led_pattern_loop script i num report table) <= 0.
Proof.
  induction script as [|[ret r'] script IH]; intros i num report table;
    cbn [led_pattern_loop];
    destruct (led_pattern_record num report table) as [table'|];
    try (cbn; lia);
    destruct (i + 1 =? num); try (cbn; lia).
  destruct (Z.ltb_spec ret 0); [cbn; lia|apply IH].
Qed.

(** A read of the patterns that returns 0 has checked every record it
    went through. *)
Lemma led_pattern_loop_success script : forall i num report table,
  fst (led_pattern_loop script i num report table) = 0 ->
  Forall record_valid
    (report :: firstn (Z.to_nat (num - i - 1)) (map snd script)).
Proof.
  induction script as [|[ret r'] script IH]; intros i num report table;
    cbn [led_pattern_loop];
    destruct (led_pattern_record num report table) as [table'|] eqn:R;
    try (cbn; discriminate);
    apply led_pattern_record_some in R; destruct R as (V & _);
    destruct (Z.eqb_spec (i + 1) num) as [E|NE].
  - intros _. rewrite firstn_nil. constructor; [exact V|constructor].
  - cbn. discriminate.
  - intros _. replace (num - i - 1) with 0 by lia.
    constructor; [exact V|constructor].
  - destruct (Z.ltb_spec ret 0) as [Hneg|Hpos]; [cbn; lia|].
    intros H. apply IH in H. constructor; [exact V|].
    destruct (Z.to_nat (num - i - 1)) as [|k] eqn:K; [constructor|].
    cbn [map snd firstn].
    replace k with (Z.to_nat (num - (i + 1) - 1)) by lia. exact H.
Qed.

Lemma rift_get_led_patterns_success MAX_LEDS script table :
  fst (rift_get_led_patterns MAX_LEDS script table) = 0 ->
  exists ret report rest,
    script = (ret, report) :: rest /\
    Forall record_valid
      (report :: firstn (Z.to_nat (led_num report - 1)) (map snd rest)).
Proof.
  destruct script as [|[ret report] rest]; cbn; [discriminate|].
  destruct (Z.ltb_spec ret 0); [cbn; lia|].
  destruct (led_num report >? MAX_LEDS); [cbn; discriminate|].
  intros Hz. apply led_pattern_loop_success in Hz.
  exists ret, report, rest. split; [reflexivity|].
  replace (led_num report - 1) with (led_num report - 0 - 1) by lia.
  exact Hz.
Qed.

Lemma rift_get_led_patterns_ret MAX_LEDS script table :
  fst (rift_get_led_patterns MAX_LEDS script table) <= 0.
Proof.
  destruct script as [|[ret report] rest]; cbn; [lia|].
  destruct (Z.ltb_spec ret 0); [cbn; lia|].
  destruct (led_num report >? MAX_LEDS); [cbn; lia|].
  apply led_pattern_loop_ret.
Qed.

(** [rift_start] gives up when the patterns cannot be read. *)
Lemma rift_start_needs_patterns MAX_LEDS env dev table :
  fst (rift_get_led_patterns MAX_LEDS (led_script env) table) < 0 ->
  exists r dev' table',
    rift_start MAX_LEDS env dev table = Some (r, dev', table', false) /\
    r < 0.
Proof.
  intros H. unfold rift_start.
  destruct (Z.ltb_spec (positions_ret env) 0);
    [eexists _, _, _; split; [reflexivity|lia]|].
  destruct (rift_get_led_patterns MAX_LEDS (led_script env) table)
    as [ret table'].
  cbn in H. destruct (Z.ltb_spec ret 0); [|lia].
  eexists _, _, _; split; [reflexivity|lia].
Qed.

(** A start that returns 0 has read the patterns with success, hands on
    the table that read filled, and has registered the LEDs. *)
Lemma rift_start_success MAX_LEDS env dev table dev' table' registered :
  rift_start MAX_LEDS env dev table = Some (0, dev', table', registered) ->
  registered = true /\
  rift_get_led_patterns MAX_LEDS (led_script env) table = (0, table').
Proof.
  unfold rift_start.
  destruct (Z.ltb_spec (positions_ret env) 0) as [Hp|Hp].
  { intros E. inversion E. lia. }
  pose proof (rift_get_led_patterns_ret MAX_LEDS (led_script env) table)
    as H1.
  destruct (rift_get_led_patterns MAX_LEDS (led_script env) table)
    as [ret1 table1]. cbn [fst] in H1.
  destruct (Z.ltb_spec ret1 0) as [Hn|Hn].
  { intros E. inversion E. lia. }
  assert (ret1 = 0) by lia. subst ret1.
  destruct (rift_get_config (config_get env) dev) as [[ret2 dev2]|];
    [|discriminate].
  destruct (Z.ltb_spec ret2 0).
  { intros E. inversion E. lia. }
  destruct (rift_set_report_rate (rate_get env) (rate_send_ret env) dev2 500)
    as [[ret3 dev3] sent].
  destruct (Z.ltb_spec ret3 0).
  { intros E. inversion E. lia. }
  destruct (Z.ltb_spec (tracking_ret env) 0).
  { intros E. inversion E. lia. }
  destruct (Z.ltb_spec (display_ret env) 0).
  { intros E. inversion E. lia. }
  intros E. inversion E. split; reflexivity.
Qed.

(** A valid record is stored. *)
Lemma led_pattern_record_accepted num report table :
  record_accepted num report ->
  led_pattern_record num report table = Some (store_record table report).
Proof.
  intros ((Hlen & Hsym) & Hidx & Hp).
  assert (B : forall i, 0 <= i < 10 ->
                        Z.testbit (led_pattern report) (2 * i) = true).
  { intros i Hi. apply symbol_dark_or_bright; [lia|]. now apply Hsym. }
  unfold led_pattern_record, store_record.
  destruct (Z.geb_spec (led_index report) num); [lia|].
  rewrite Hlen, (well_formed_intro _ Hp B). reflexivity.
Qed.

(** The loop on valid records and successful reads: every record is
    stored, in the order read, and the loop returns 0 after record
    [num - 1]. *)
Lemma led_pattern_loop_accepts script : forall i num report table,
  0 <= i < num ->
  (Z.to_nat (num - i - 1) <= length script)%nat ->
  Forall (fun reply => 0 <= fst reply)
         (firstn (Z.to_nat (num - i - 1)) script) ->
  Forall (record_accepted num)
         (report :: firstn (Z.to_nat (num - i - 1)) (map snd script)) ->
  led_pattern_loop script i num report table =
    (0, fold_left store_record
          (report :: firstn (Z.to_nat (num - i - 1)) (map snd script))
          table).
Proof.
  induction script as [|[ret r'] script IH];
    intros i num report table Hi Hlen Hret Hacc;
    cbn [led_pattern_loop];
    rewrite (led_pattern_record_accepted num report table)
      by (inversion Hacc; assumption);
    destruct (Z.eqb_spec (i + 1) num) as [E|NE].
  - rewrite firstn_nil. reflexivity.
  - cbn [length] in Hlen. lia.
  - replace (num - i - 1) with 0 by lia. reflexivity.
  - assert (K : Z.to_nat (num - i - 1)
                = S (Z.to_nat (num - (i + 1) - 1))) by lia.
    rewrite K in *. cbn [firstn map snd length fold_left] in *.
    inversion Hret as [|? ? Hr Hret']. subst. cbn [fst] in Hr.
    inversion Hacc as [|? ? Ha Hacc']. subst.
    destruct (Z.ltb_spec ret 0); [lia|].
    rewrite IH; [reflexivity|lia|lia|assumption|assumption].
Qed.

(** Records for other indices leave an entry of the table alone. *)
Lemma fold_store_record_other k records : forall table,
  (forall r, In r records -> led_index r <> k) ->
  fold_left store_record records table k = table k.
Proof.
  induction records as [|r records IH]; intros table H; [reflexivity|].
  cbn [fold_left]. rewrite IH by (intros r' Hr'; apply H; now right).
  unfold store_record, store.
  destruct (Z.eqb_spec k (led_index r)) as [E|NE]; [|reflexivity].
  exfalso. apply (H r); [now left|congruence].
Qed.

(** The entry of an index holds the last record stored for it. *)
Lemma fold_store_record_last before r after table :
  (forall r', In r' after -> led_index r' <> led_index r) ->
  fold_left store_record (before ++ r :: after) table (led_index r)
  = deinterleave (led_pattern r).
Proof.
  intros H. rewrite fold_left_app. cbn [fold_left].
  rewrite fold_store_record_other by assumption.
  unfold store_record, store. rewrite Z.eqb_refl. reflexivity.
Qed.

(** C3.  The decoder of the LED blink patterns rejects a record whose
    declared symbol count is not 10, or whose packed value has a 2 bit
    symbol other than 01 (dark) or 11 (bright) among its ten symbols; the
    read of the patterns then fails, and with it session start, which
    returns 0 only when every record read was valid, and then hands on
    the table the read filled.  For a valid packed value (20 bits, ten
    symbols dark or bright) the decoder stores the ten bit sequence whose
    bit [i] is 1 iff symbol [i] is bright; on valid records and successful
    reads the loop and [rift_get_led_patterns] return 0 with every record
    stored in the order read, so that the entry of each index holds the
    sequence of the last record read for it and the other entries are
    kept.  Packing a ten bit sequence into symbols and decoding it gives
    the sequence back. *)
Theorem led_pattern_decoding :
  (forall num report table,
      led_pattern_length report <> 10 \/
      (exists i, 0 <= i < 10 /\
                 symbol (led_pattern report) i <> DARK /\
                 symbol (led_pattern report) i <> BRIGHT) ->
      led_pattern_record num report table = None /\
      (forall script i, led_pattern_loop script i num report table
                        = (-1, table)) /\
      (forall MAX_LEDS ret rest env dev,
          led_script env = (ret, report) :: rest ->
          exists r dev' table',
            rift_start MAX_LEDS env dev table = Some (r, dev', table', false)
            /\ r < 0)) /\
  (forall num report table,
      0 <= led_index report < num ->
      led_pattern_length report = 10 ->
      0 <= led_pattern report < 2 ^ 20 ->
      (forall i, 0 <= i < 10 ->
                 symbol (led_pattern report) i = DARK \/
                 symbol (led_pattern report) i = BRIGHT) ->
      exists table',
        led_pattern_record num report table = Some table' /\
        (forall k, k <> led_index report -> table' k = table k) /\
        0 <= table' (led_index report) < 2 ^ 10 /\
        table' (led_index report) = deinterleave (led_pattern report) /\
        (forall i, 0 <= i < 10 ->
           Z.testbit (table' (led_index report)) i =
           (symbol (led_pattern report) i =? BRIGHT))) /\
  (forall bits,
      0 <= bits < 2 ^ 10 ->
      0 <= encode_pattern bits < 2 ^ 20 /\
      (forall i, 0 <= i < 10 ->
         symbol (encode_pattern bits) i =
         if Z.testbit bits i then BRIGHT else DARK) /\
      pattern_well_formed (encode_pattern bits) = true /\
      deinterleave (encode_pattern bits) = bits) /\
  (forall MAX_LEDS env dev table dev' table' registered,
      rift_start MAX_LEDS env dev table = Some (0, dev', table', registered) ->
      registered = true /\
      rift_get_led_patterns MAX_LEDS (led_script env) table = (0, table') /\
      exists ret report rest,
        led_script env = (ret, report) :: rest /\
        Forall record_valid (records_read report rest)) /\
  (forall script i num report table,
      0 <= i < num ->
      (Z.to_nat (num - i - 1) <= length script)%nat ->
      Forall (fun reply => 0 <= fst reply)
             (firstn (Z.to_nat (num - i - 1)) script) ->
      Forall (record_accepted num)
             (report :: firstn (Z.to_nat (num - i - 1)) (map snd script)) ->
      led_pattern_loop script i num report table =
        (0, fold_left store_record
              (report :: firstn (Z.to_nat (num - i - 1)) (map snd script))
              table)) /\
  (forall MAX_LEDS ret report rest table,
      0 <= ret ->
      led_num report <= MAX_LEDS ->
      (Z.to_nat (led_num report - 1) <= length rest)%nat ->
      Forall (fun reply => 0 <= fst reply)
             (firstn (Z.to_nat (led_num report - 1)) rest) ->
      Forall (record_accepted (led_num report)) (records_read report rest) ->
      exists table',
        rift_get_led_patterns MAX_LEDS ((ret, report) :: rest) table
        = (0, table') /\
        table' = fold_left store_record (records_read report rest) table /\
        (forall k,
            (forall r, In r (records_read report rest) -> led_index r <> k) ->
            table' k = table k) /\
        (forall before r after,
            records_read report rest = before ++ r :: after ->
            (forall r', In r' after -> led_index r' <> led_index r) ->
            table' (led_index r) = deinterleave (led_pattern r) /\
            0 <= table' (led_index r) < 2 ^ 10 /\
            forall i, 0 <= i < 10 ->
              Z.testbit (table' (led_index r)) i =
              (symbol (led_pattern r) i =? BRIGHT))).
Proof.
  repeat match goal with |- _ /\ _ => split end.
  - intros num report table Hbad.
    assert (R : forall n, led_pattern_record n report table = None).
    { intros n. unfold led_pattern_record.
      destruct (led_index report >=? n); [reflexivity|].
      destruct (Z.eqb_spec (led_pattern_length report) 10) as [L|L];
        [|reflexivity].
      destruct (pattern_well_formed (led_pattern report)) eqn:W;
        [|reflexivity].
      exfalso. destruct Hbad as [Hlen|(i & Hi & Hd & Hb)]; [tauto|].
      pose proof (well_formed_bits _ W i Hi) as B.
      apply symbol_dark_or_bright in B; [tauto|lia]. }
    split; [apply R|]. split.
    + intros script i. destruct script; cbn [led_pattern_loop];
        rewrite R; reflexivity.
    + intros MAX_LEDS ret rest env dev Hs.
      destruct (Z_lt_ge_dec (positions_ret env) 0) as [Hp|Hp].
      * unfold rift_start. destruct (Z.ltb_spec (positions_ret env) 0);
          [eexists _, _, _; split; [reflexivity|lia]|lia].
      * apply rift_start_needs_patterns. rewrite Hs. cbn.
        destruct (Z.ltb_spec ret 0); [cbn; lia|].
        destruct (led_num report >? MAX_LEDS); [cbn; lia|].
        destruct rest; cbn [led_pattern_loop]; rewrite R; cbn; lia.
  - intros num report table Hidx Hlen Hp Hsym.
    assert (B : forall i, 0 <= i < 10 ->
                          Z.testbit (led_pattern report) (2 * i) = true).
    { intros i Hi. apply symbol_dark_or_bright; [lia|]. now apply Hsym. }
    exists (store table (led_index report)
                  (deinterleave (led_pattern report))).
    unfold led_pattern_record.
    destruct (Z.geb_spec (led_index report) num); [lia|].
    rewrite Hlen, (well_formed_intro _ Hp B). cbn [Z.eqb Pos.eqb negb].
    unfold store. rewrite Z.eqb_refl. repeat split.
    + intros k Hk. destruct (Z.eqb_spec k (led_index report)); congruence.
    + apply deinterleave_range.
    + apply deinterleave_range.
    + intros i Hi. rewrite deinterleave_bit by assumption.
      symmetry. apply symbol_bright; [lia|]. now apply B.
  - intros bits Hbits.
    pose proof round_trip_all as A. rewrite forallb_forall in A.
    specialize (A bits (all_patterns_complete bits Hbits)).
    unfold round_trip_ok in A.
    apply andb_prop in A. destruct A as [A A4].
    apply andb_prop in A. destruct A as [A A3].
    apply andb_prop in A. destruct A as [A1 A2].
    rewrite forallb_forall in A4.
    repeat split.
    + apply pack_symbols_nonneg.
    + apply Z.ltb_lt. exact A3.
    + intros i Hi. apply Z.eqb_eq. apply A4. cbn. lia.
    + exact A1.
    + apply Z.eqb_eq. exact A2.
  - intros MAX_LEDS env dev table dev' table' registered H0.
    apply rift_start_success in H0. destruct H0 as (Hreg & Hget).
    split; [exact Hreg|]. split; [exact Hget|].
    apply (rift_get_led_patterns_success MAX_LEDS _ table).
    rewrite Hget. reflexivity.
  - intros script i num report table. apply led_pattern_loop_accepts.
  - intros MAX_LEDS ret report rest table Hret Hnum Hlen Hrets Hacc.
    exists (fold_left store_record (records_read report rest) table).
    assert (Hpos : 0 < led_num report).
    { inversion Hacc as [|? ? (_ & Hidx & _) _]. lia. }
    split; [|split; [reflexivity|split]].
    + cbn [rift_get_led_patterns].
      destruct (Z.ltb_spec ret 0); [lia|].
      destruct (Z.gtb_spec (led_num report) MAX_LEDS); [lia|].
      unfold records_read in *.
      replace (led_num report - 1) with (led_num report - 0 - 1) in * by lia.
      apply led_pattern_loop_accepts; [lia|assumption|assumption|assumption].
    + intros k Hk. apply fold_store_record_other. exact Hk.
    + intros before r after Hsplit Hafter. rewrite Hsplit.
      rewrite fold_store_record_last by assumption.
      assert (Hr : record_accepted (led_num report) r).
      { rewrite Forall_forall in Hacc. apply Hacc. rewrite Hsplit.
        apply in_or_app. right. now left. }
      destruct Hr as ((_ & Hsym) & _ & _).
      split; [reflexivity|]. split; [apply deinterleave_range|].
      intros i Hi. rewrite deinterleave_bit by assumption.
      symmetry. apply symbol_bright; [lia|].
      apply symbol_dark_or_bright; [lia|]. now apply Hsym.
Qed.

(** A record of nine symbols is rejected, 0x55577 decodes to 5, the ten
    bit value 682 survives the round trip, and two records of a device
    with two LEDs, read with success, fill the entries 1 and 0 of the
    table with 5 and 2. *)
Lemma led_pattern_decoding_witness :
  led_pattern_record 44 (led_record 9 0x55577) table0 = None /\
  (exists table', led_pattern_record 44 (led_record 10 0x55577) table0
                  = Some table' /\ table' 3 = 5) /\
  deinterleave (encode_pattern 682) = 682 /\
  (exists table',
      rift_get_led_patterns 44
        [(0, led_record_of_two 1 0x55577); (0, led_record_of_two 0 0x5555d)]
        table0 = (0, table') /\
      table' 1 = 5 /\ table' 0 = 2 /\ table' 7 = 0).
Proof.
  destruct led_pattern_decoding as (Hrej & Hok & Hrt & _ & _ & Hget).
  split; [|split; [|split]].
  - apply (Hrej 44 (led_record 9 0x55577) table0).
    left. cbn. discriminate.
  - destruct (Hok 44 (led_record 10 0x55577) table0)
      as (table' & E & _ & _ & V & _).
    + cbn. lia.
    + reflexivity.
    + cbn. lia.
    + intros i Hi. ten_cases i; vm_compute; tauto.
    + exists table'. split; [exact E|].
      change (led_index (led_record 10 349559)) with 3 in V.
      rewrite V. reflexivity.
  - apply (Hrt 682). lia.
  - destruct (Hget 44 0 (led_record_of_two 1 0x55577)
                [(0, led_record_of_two 0 0x5555d)] table0)
      as (table' & E & T & _).
    + lia.
    + cbn. lia.
    + cbn. lia.
    + cbn. constructor; [cbn; lia|constructor].
    + cbn. constructor; [|constructor; [|constructor]];
        (split; [split; [reflexivity
                        |intros i Hi; ten_cases i; vm_compute; tauto]
                |split; cbn; lia]).
    + exists table'. split; [exact E|]. rewrite T.
      repeat split; reflexivity.
Defined.

(** *** The report rate *)

Lemma rift_set_report_rate_value get_ret report send_ret dev r :
  0 <= get_ret -> 0 <= send_ret ->
  let rate := Z.max 5 (Z.min r (cfg_sample_rate report)) in
  rift_set_report_rate (get_ret, report) send_ret dev r =
    (0, set_rate dev rate (Z.quot 1000000 rate),
     Some {| cfg_flags := cfg_flags report;
             cfg_packet_interval :=
               u8 (Z.quot (cfg_sample_rate report) rate - 1);
             cfg_sample_rate := cfg_sample_rate report |}).
Proof.
  intros Hg Hs rate. unfold rift_set_report_rate.
  destruct (Z.ltb_spec get_ret 0); [lia|].
  destruct (Z.ltb_spec send_ret 0); [lia|].
  assert (E : (if (if r >? cfg_sample_rate report
                   then cfg_sample_rate report else r) <? 5
               then 5
               else if r >? cfg_sample_rate report
                    then cfg_sample_rate report else r) = rate).
  { unfold rate. destruct (Z.gtb_spec r (cfg_sample_rate report));
      match goal with |- context [?x <? 5] => destruct (Z.ltb_spec x 5) end;
      lia. }
  rewrite E. reflexivity.
Qed.

(** C9, amended.  When both feature report exchanges succeed,
    [rift_set_report_rate] configures the rate [max 5 (min r s)] for the
    requested rate [r] and the native sample rate [s]: provided [s] is at
    least 5 this is [r] clamped to [5, s], that is [s] when [r > s], 5 when
    [r < 5] and [r] otherwise; when [s] is below 5 it is 5. *)
Theorem rift_set_report_rate_clamps get_ret report send_ret dev r :
  0 <= get_ret -> 0 <= send_ret ->
  let s := cfg_sample_rate report in
  let '(ret, dev', _) :=
    rift_set_report_rate (get_ret, report) send_ret dev r in
  ret = 0 /\
  report_rate dev' = Z.max 5 (Z.min r s) /\
  (5 <= s ->
     5 <= report_rate dev' <= s /\
     report_rate dev' = if r >? s then s else if r <? 5 then 5 else r) /\
  (s < 5 -> report_rate dev' = 5).
Proof.
  intros Hg Hs s.
  rewrite rift_set_report_rate_value by assumption. cbn. fold s.
  split; [reflexivity|]. split; [reflexivity|]. split.
  - intros H5. split; [lia|]. destruct (Z.gtb_spec r s); [lia|].
    destruct (Z.ltb_spec r 5); lia.
  - lia.
Qed.

(** A request for 500 Hz, as [rift_start] makes it, at 1000 Hz. *)
Lemma rift_set_report_rate_clamps_witness :
  let '(ret, dev', _) :=
    rift_set_report_rate (0, config_report 1000) 0 dev0 500 in
  ret = 0 /\ report_rate dev' = 500.
Proof.
  pose proof (rift_set_report_rate_clamps 0 (config_report 1000) 0 dev0 500
                ltac:(lia) ltac:(lia)) as H.
  cbv zeta in H.
  destruct (rift_set_report_rate (0, config_report 1000) 0 dev0 500)
    as [[ret dev'] sent].
  destruct H as (H0 & H1 & _). split; [exact H0|]. rewrite H1. reflexivity.
Defined.

(** C9 as stated fails when the device reports a sample rate below 5:
    for [r = 500] and [s = 3] the rate configured is 5, not [s]. *)
Lemma rift_set_report_rate_below_five :
  let '(_, dev', _) :=
    rift_set_report_rate (0, config_report 3) 0 dev0 500 in
  500 > cfg_sample_rate (config_report 3) /\
  report_rate dev' = 5 /\
  report_rate dev' <> cfg_sample_rate (config_report 3).
Proof. cbn. repeat split; try lia; try discriminate. Qed.

(** *** The poll loop *)

Lemma poll_events_never_fatal :
  Z.land POLLIN (Z.lor (Z.lor POLLERR POLLHUP) POLLNVAL) = 0.
Proof. reflexivity. Qed.

(** The test of line 558 reads [fds.events], which holds [POLLIN]: no
    turn of the loop takes the [break]. *)
Lemma rift_thread_round_goes_on ev dev count :
  snd (rift_thread_round ev dev count) = true.
Proof.
  unfold rift_thread_round. cbn [events revents].
  rewrite poll_events_never_fatal. cbn [Z.eqb negb].
  destruct ((poll_ret ev =? -1) || (poll_ret ev =? 0) ||
            (count >? 9 * report_rate dev)); [reflexivity|].
  destruct (read_ret ev =? -1); [reflexivity|].
  destruct (read_ret ev <? 64); reflexivity.
Qed.

Lemma rift_thread_loop_never_breaks script : forall dev count,
  snd (rift_thread_loop script dev count) <> Broke.
Proof.
  induction script as [|ev script IH]; intros dev count; cbn.
  - discriminate.
  - destruct (dev_active ev); cbn; [|discriminate].
    pose proof (rift_thread_round_goes_on ev dev count) as G.
    destruct (rift_thread_round ev dev count) as [[dev' count'] go_on].
    cbn in G. subst go_on. apply IH.
Qed.

(** C6 (fails on the code).  [poll] reports a hangup on the descriptor
    in two turns in a row: the loop takes neither as a reason to leave,
    reads on, decodes the 64 bytes of the second turn and is still running
    when the script ends.  No turn ever leaves through the [break]. *)
Theorem rift_thread_polls_on_after_hangup :
  rift_thread [hangup_round; hangup_data_round] dev0 =
    (rift_decode_sensor_message (rift_send_keepalive dev0)
       (message_with_id 11) 64, 1, ScriptEnd) /\
  Z.land (poll_revents hangup_round) POLLHUP <> 0 /\
  (forall script dev, snd (rift_thread script dev) <> Broke).
Proof.
  split; [reflexivity|]. split; [discriminate|].
  intros script dev. apply rift_thread_loop_never_breaks.
Qed.

End RiftFacts.

(** ** Properties of rift-radio.c *)

Module RiftRadioFacts.
Import RiftRadio.

Section RadioFacts.

Variables MESSAGE_ID DATA_REPORT_ID : Z.
Variables REMOTE LEFT RIGHT : Z.
Variables SERIAL_CONTROL FIRMWARE_CONTROL : Z.
Variables ADC_A_X ADC_B_Y ADC_REST ADC_STICK ADC_TRIGGER : Z.

Local Abbreviation decode_touch :=
  (rift_decode_touch_message ADC_A_X ADC_B_Y ADC_REST ADC_STICK ADC_TRIGGER).
Local Abbreviation activate :=
  (rift_radio_activate DATA_REPORT_ID SERIAL_CONTROL FIRMWARE_CONTROL).
Local Abbreviation decode_radio :=
  (rift_decode_radio_message MESSAGE_ID DATA_REPORT_ID REMOTE LEFT RIGHT
     SERIAL_CONTROL FIRMWARE_CONTROL
     ADC_A_X ADC_B_Y ADC_REST ADC_STICK ADC_TRIGGER).

(** *** The touch payload *)

(** The decoder writes at most the field of one channel. *)
Lemma rift_decode_touch_message_cases touch message :
  decode_touch touch message = touch \/
  exists k, (k < 5)%nat /\
    decode_touch touch message = set_cap touch k (u16 (adc_value message)).
Proof.
  unfold rift_decode_touch_message.
  destruct (adc_channel message =? ADC_A_X);
    [right; exists 0%nat; split; [lia|reflexivity]|].
  destruct (adc_channel message =? ADC_B_Y);
    [right; exists 1%nat; split; [lia|reflexivity]|].
  destruct (adc_channel message =? ADC_REST);
    [right; exists 2%nat; split; [lia|reflexivity]|].
  destruct (adc_channel message =? ADC_STICK);
    [right; exists 3%nat; split; [lia|reflexivity]|].
  destruct (adc_channel message =? ADC_TRIGGER);
    [right; exists 4%nat; split; [lia|reflexivity]|].
  left. destruct touch; reflexivity.
Qed.

Lemma differences_refl l : differences l l = O.
Proof.
  induction l as [|x l IH]; cbn; [reflexivity|].
  rewrite Z.eqb_refl, IH. reflexivity.
Qed.

Lemma differences_set_cap touch k v :
  (differences (cap_fields touch) (cap_fields (set_cap touch k v)) <= 1)%nat.
Proof.
  destruct k as [|[|[|[|[|k]]]]]; unfold cap_fields, set_cap;
    cbn [Nat.eqb base cap_a_x cap_b_y cap_rest cap_stick cap_trigger
         differences];
    rewrite ?Z.eqb_refl;
    repeat match goal with
           | |- context [?x =? ?y] => destruct (x =? y)
           end; cbn; lia.
Qed.

Lemma only_changed_set_cap touch k v :
  (k < 5)%nat -> only_changed k touch (set_cap touch k v) v.
Proof.
  intros Hk. split.
  - destruct k as [|[|[|[|[|k]]]]]; try reflexivity. lia.
  - intros j Hj.
    destruct k as [|[|[|[|[|k]]]]]; destruct j as [|[|[|[|[|j]]]]];
      try reflexivity; try congruence; try lia; destruct j; reflexivity.
Qed.

(** C10.  [rift_decode_touch_message] changes at most one of the five
    capacitive fields of the touch state, the one that the [adc_channel]
    tag of the message selects, and leaves the other four as they were; a
    message whose tag is none of the five channels leaves the state as it
    was.  (The five channel constants are case labels of one switch, hence
    distinct.) *)
Theorem rift_decode_touch_message_frame touch message :
  let touch' := decode_touch touch message in
  let v := u16 (adc_value message) in
  let ch := adc_channel message in
  base touch' = base touch /\
  (differences (cap_fields touch) (cap_fields touch') <= 1)%nat /\
  (NoDup [ADC_A_X; ADC_B_Y; ADC_REST; ADC_STICK; ADC_TRIGGER] ->
     (ch = ADC_A_X -> only_changed 0 touch touch' v) /\
     (ch = ADC_B_Y -> only_changed 1 touch touch' v) /\
     (ch = ADC_REST -> only_changed 2 touch touch' v) /\
     (ch = ADC_STICK -> only_changed 3 touch touch' v) /\
     (ch = ADC_TRIGGER -> only_changed 4 touch touch' v)) /\
  (~ In ch [ADC_A_X; ADC_B_Y; ADC_REST; ADC_STICK; ADC_TRIGGER] ->
     touch' = touch).
Proof.
  cbv zeta. split; [|split; [|split]].
  - destruct (rift_decode_touch_message_cases touch message)
      as [->|(k & _ & ->)]; reflexivity.
  - destruct (rift_decode_touch_message_cases touch message)
      as [->|(k & _ & ->)].
    + rewrite differences_refl. lia.
    + apply differences_set_cap.
  - intros D.
    assert (N : ADC_A_X <> ADC_B_Y /\ ADC_A_X <> ADC_REST /\
                ADC_A_X <> ADC_STICK /\ ADC_A_X <> ADC_TRIGGER /\
                ADC_B_Y <> ADC_REST /\ ADC_B_Y <> ADC_STICK /\
                ADC_B_Y <> ADC_TRIGGER /\ ADC_REST <> ADC_STICK /\
                ADC_REST <> ADC_TRIGGER /\ ADC_STICK <> ADC_TRIGGER).
    { repeat match goal with
             | H : NoDup (_ :: _) |- _ => inversion H; clear H; subst
             end.
      cbn in *. intuition congruence. }
    unfold rift_decode_touch_message.
    repeat match goal with |- _ /\ _ => split end;
      intros E; rewrite E; rewrite ?Z.eqb_refl;
      repeat match goal with
             | |- context [?x =? ?y] =>
                 destruct (Z.eqb_spec x y); [intuition congruence|]
             end;
      first [ apply (only_changed_set_cap touch 0); lia
            | apply (only_changed_set_cap touch 1); lia
            | apply (only_changed_set_cap touch 2); lia
            | apply (only_changed_set_cap touch 3); lia
            | apply (only_changed_set_cap touch 4); lia ].
  - intros Hn. unfold rift_decode_touch_message.
    repeat match goal with
           | |- context [?x =? ?y] =>
               destruct (Z.eqb_spec x y);
                 [exfalso; apply Hn; cbn; intuition congruence|]
           end.
    reflexivity.
Qed.

(** *** Activation *)

Lemma hid_send_control_sent h a b c :
  sent (snd (hid_send_control h a b c)) = sent h ++ [(a, b, c)].
Proof.
  unfold hid_send_control, hid_call.
  destruct (pending h) as [|[ret f] rest]; reflexivity.
Qed.

Lemma rift_radio_transfer_sent h a b c :
  sent (snd (rift_radio_transfer h a b c)) = sent h ++ [(a, b, c)].
Proof.
  unfold rift_radio_transfer.
  pose proof (hid_send_control_sent h a b c) as S.
  destruct (hid_send_control h a b c) as [ret h1]. cbn [snd] in S.
  destruct (ret <? 0); [exact S|].
  destruct (transfer_wait (pending h1)) as [ret' rest]. exact S.
Qed.

Lemma hid_call_sent h : sent (snd (hid_call h)) = sent h.
Proof.
  unfold hid_call. destruct (pending h) as [|[ret f] rest]; reflexivity.
Qed.

Lemma rift_radio_read_sent h a b c :
  sent (snd (rift_radio_read DATA_REPORT_ID h a b c DATA_REPORT_ID))
  = sent h ++ [(a, b, c)].
Proof.
  unfold rift_radio_read. rewrite Z.eqb_refl. cbn [negb].
  pose proof (rift_radio_transfer_sent h a b c) as S.
  destruct (rift_radio_transfer h a b c) as [ret h1]. cbn [snd] in S.
  destruct (ret <? 0); [exact S|].
  rewrite hid_call_sent. exact S.
Qed.

(** Activation asks for the serial number and then for the firmware
    version.  It returns 0 with the device active, or a negative value with
    the [active] flag as it was. *)
Lemma rift_radio_activate_result dev h :
  let '(ret, dev', h') := activate dev h in
  let ask_serial := (0x03, SERIAL_CONTROL, dev_id dev) in
  let ask_firmware := (0x03, FIRMWARE_CONTROL, dev_id dev) in
  dev_id dev' = dev_id dev /\
  ((ret = 0 /\ active dev' = true /\
    sent h' = sent h ++ [ask_serial; ask_firmware]) \/
   (ret < 0 /\ active dev' = active dev /\
    (sent h' = sent h ++ [ask_serial] \/
     sent h' = sent h ++ [ask_serial; ask_firmware]))).
Proof.
  unfold rift_radio_activate, rift_radio_get_serial,
    rift_radio_get_firmware_version.
  pose proof (rift_radio_read_sent h 0x03 SERIAL_CONTROL (dev_id dev)) as S1.
  destruct (rift_radio_read DATA_REPORT_ID h 3 SERIAL_CONTROL (dev_id dev)
              DATA_REPORT_ID) as [[ret1 report1] h1].
  cbn [snd] in S1.
  destruct (Z.ltb_spec ret1 0) as [N1|P1].
  - rewrite (proj2 (Z.ltb_lt ret1 0) N1). cbn.
    split; [reflexivity|]. right. auto.
  - cbn [Z.ltb Z.compare dev_id firmware_date firmware_version].
    pose proof (rift_radio_read_sent h1 0x03 FIRMWARE_CONTROL (dev_id dev))
      as S2.
    destruct (rift_radio_read DATA_REPORT_ID h1 3 FIRMWARE_CONTROL
                (dev_id dev) DATA_REPORT_ID) as [[ret2 report2] h2].
    cbn [snd] in S2. rewrite S1, <- app_assoc in S2. cbn [app] in S2.
    destruct (Z.ltb_spec ret2 0) as [N2|P2].
    + rewrite (proj2 (Z.ltb_lt ret2 0) N2). cbn.
      split; [reflexivity|]. right. auto.
    + cbn. split; [reflexivity|]. left. auto.
Qed.

(** The sibling path: a message for the left touch controller that is
    not active yet asks for serial number and firmware version, decodes the
    payload whatever the answer, and leaves the controller inactive when a
    query failed. *)
Lemma touch_message_activates radio h bytes message len :
  LEFT <> REMOTE ->
  id message = MESSAGE_ID ->
  device_type message = LEFT ->
  active (base (touch0 radio)) = false ->
  let '(radio', h', d) := decode_radio radio h bytes message len in
  let ret := fst (fst (activate (base (touch0 radio)) h)) in
  d = Decoded /\
  cap_fields (touch0 radio') =
    cap_fields (decode_touch (touch0 radio) message) /\
  (exists rest,
      sent h' = sent h ++
        (0x03, SERIAL_CONTROL, dev_id (base (touch0 radio))) :: rest) /\
  (ret < 0 -> active (base (touch0 radio')) = false) /\
  (ret = 0 -> active (base (touch0 radio')) = true).
Proof.
  intros Hne Hid Hty Hin. unfold rift_decode_radio_message.
  rewrite Hid, Z.eqb_refl, Hty.
  destruct (Z.eqb_spec LEFT REMOTE) as [E|_]; [contradiction|].
  rewrite Z.eqb_refl. unfold activate_and_decode. rewrite Hin. cbn [negb].
  pose proof (rift_radio_activate_result (base (touch0 radio)) h) as A.
  destruct (activate (base (touch0 radio)) h) as [[ret b] h1].
  cbv zeta in A. cbn [fst snd]. destruct A as [_ A].
  assert (F : forall t, cap_fields (decode_touch (with_base (touch0 radio) t)
                                      message)
                        = cap_fields (decode_touch (touch0 radio) message)).
  { intros t. unfold rift_decode_touch_message.
    repeat match goal with
           | |- context [?x =? ?y] => destruct (x =? y)
           end; reflexivity. }
  assert (B : forall t, base (decode_touch (with_base (touch0 radio) t)
                                 message) = t).
  { intros t. unfold rift_decode_touch_message.
    repeat match goal with
           | |- context [?x =? ?y] => destruct (x =? y)
           end; reflexivity. }
  cbn [touch0]. rewrite F, B. split; [reflexivity|]. split; [reflexivity|].
  destruct A as [(R & Ha & Hs)|(R & Ha & Hs)].
  - split; [eexists; exact Hs|]. split; [lia|auto].
  - split.
    + destruct Hs as [Hs|Hs]; eexists; exact Hs.
    + split; [intros _; congruence|lia].
Qed.

(** C7 (fails on the code for the Remote).  A message for the Remote is
    decoded without any query on the control channel, active or not: the
    HID device is left untouched and the [active] flag of the Remote is
    what it was, so a Remote that was not active stays so after every
    message. *)
Theorem remote_message_skips_activation radio h bytes buttons ch v len :
  let message := radio_message MESSAGE_ID REMOTE buttons ch v in
  let '(radio', h', d) := decode_radio radio h bytes message len in
  h' = h /\
  d = Decoded /\
  active (remote_base (remote radio')) = active (remote_base (remote radio)) /\
  remote_buttons (remote radio') = int16 buttons.
Proof.
  cbv zeta. unfold rift_decode_radio_message, radio_message.
  cbn [id device_type]. rewrite !Z.eqb_refl.
  repeat split; unfold rift_decode_remote_message; cbn [remote_msg_buttons];
    destruct (Z.eqb_spec (remote_buttons (remote radio)) (int16 buttons));
    cbn; congruence.
Qed.

End RadioFacts.

(** With message id 12 and the device types 1, 2, 3: on a device that
    answers every query, a Remote message leaves the Remote inactive and
    the control channel silent, while a message for the left touch
    controller sends both queries and activates it. *)
Example remote_and_touch_compared :
  let '(radio_r, hid_r, _) :=
    rift_decode_radio_message 12 13 1 2 3 0x88 0x82 1 2 3 4 5
      (radio0 1 2 3) hid_answering [] (radio_message 12 1 4 0 0) 64 in
  let '(radio_t, hid_t, _) :=
    rift_decode_radio_message 12 13 1 2 3 0x88 0x82 1 2 3 4 5
      (radio0 1 2 3) hid_answering [] (radio_message 12 2 0 3 77) 64 in
  active (remote_base (remote radio_r)) = false /\
  sent hid_r = [] /\
  active (base (touch0 radio_t)) = true /\
  sent hid_t = [(0x03, 0x88, 2); (0x03, 0x82, 2)].
Proof. cbn. repeat split; reflexivity. Qed.

(** With the channels numbered 1 to 5, a message for channel 3 writes
    the third field, and one for channel 9 writes nothing. *)
Lemma rift_decode_touch_message_frame_witness :
  cap_fields (rift_decode_touch_message 1 2 3 4 5 (touch_controller0 2)
                (radio_message 12 2 0 3 77)) = [10; 20; 77; 40; 50] /\
  rift_decode_touch_message 1 2 3 4 5 (touch_controller0 2)
    (radio_message 12 2 0 9 77) = touch_controller0 2.
Proof.
  pose proof (rift_decode_touch_message_frame 1 2 3 4 5 (touch_controller0 2)
                (radio_message 12 2 0 3 77)) as Hsel.
  destruct (rift_decode_touch_message_frame 1 2 3 4 5 (touch_controller0 2)
              (radio_message 12 2 0 9 77)) as (_ & _ & _ & Hnone).
  split.
  - cbv zeta in Hsel.
    set (t' := rift_decode_touch_message 1 2 3 4 5 (touch_controller0 2)
                 (radio_message 12 2 0 3 77)) in *.
    destruct Hsel as (_ & _ & Hsel & _).
    destruct Hsel as (_ & _ & H3 & _).
    + repeat constructor; cbn; intuition discriminate.
    + destruct (H3 eq_refl) as [Hv Hothers].
      pose proof (Hothers 0%nat ltac:(discriminate)) as F0.
      pose proof (Hothers 1%nat ltac:(discriminate)) as F1.
      pose proof (Hothers 3%nat ltac:(discriminate)) as F3.
      pose proof (Hothers 4%nat ltac:(discriminate)) as F4.
      unfold cap_fields in *. cbn [nth] in Hv, F0, F1, F3, F4.
      rewrite Hv, F0, F1, F3, F4. reflexivity.
  - apply Hnone. cbn. intuition discriminate.
Defined.

End RiftRadioFacts.

(** ** Properties of vive-controller-usb.c *)

Module ViveControllerUsbFacts.
Import ViveImu ViveControllerUsb.

(** Mappings whose bits all read the same in both bitmasks give no
    event. *)
Lemma ouvrt_handle_buttons_quiet dev_id buttons last map :
  (forall m, In m map ->
     Z.testbit buttons (bit m) = Z.testbit last (bit m)) ->
  ouvrt_handle_buttons dev_id buttons last map = [].
Proof.
  induction map as [|m map IH]; intros H; cbn; [reflexivity|].
  rewrite (H m) by (left; reflexivity). rewrite Bool.eqb_reflx.
  apply IH. intros m' Hm'. apply H. right. exact Hm'.
Qed.

(** One mapped bit differs, the bits of the mappings are distinct: one
    event, for that mapping. *)
Lemma ouvrt_handle_buttons_single dev_id buttons last map m :
  NoDup (List.map bit map) ->
  In m map ->
  Z.testbit buttons (bit m) <> Z.testbit last (bit m) ->
  (forall m', In m' map -> bit m' <> bit m ->
     Z.testbit buttons (bit m') = Z.testbit last (bit m')) ->
  ouvrt_handle_buttons dev_id buttons last map =
    [edge_event dev_id buttons m].
Proof.
  induction map as [|m0 map IH]; intros Hnd Hin Hdiff Hsame; [destruct Hin|].
  cbn [List.map] in Hnd. inversion Hnd as [|b l Hnotin Hnd']; subst.
  cbn [ouvrt_handle_buttons]. destruct Hin as [->|Hin].
  - destruct (Bool.eqb (Z.testbit buttons (bit m))
                       (Z.testbit last (bit m))) eqn:E.
    + apply Bool.eqb_prop in E. contradiction.
    + rewrite ouvrt_handle_buttons_quiet; [reflexivity|].
      intros m' Hm'. apply Hsame; [right; exact Hm'|].
      intros Hb. apply Hnotin. rewrite <- Hb. apply in_map. exact Hm'.
  - assert (Hb : bit m0 <> bit m).
    { intros Hb. apply Hnotin. rewrite Hb. apply in_map. exact Hin. }
    rewrite (Hsame m0) by (auto; left; reflexivity).
    rewrite Bool.eqb_reflx. apply IH; try assumption.
    intros m' Hm' Hb'. apply Hsame; [right; exact Hm'|exact Hb'].
Qed.

Section ControllerFacts.

Variables BIT_TRIGGER BIT_GRIP BIT_MENU BIT_SYSTEM BIT_THUMB BIT_TOUCH : Z.
Variables KEY_TRIGGER KEY_GRIP KEY_MENU KEY_SYSTEM KEY_THUMB KEY_TOUCH : Z.

Local Abbreviation button_map_ :=
  (vive_controller_usb_button_map
     BIT_TRIGGER BIT_GRIP BIT_MENU BIT_SYSTEM BIT_THUMB BIT_TOUCH
     KEY_TRIGGER KEY_GRIP KEY_MENU KEY_SYSTEM KEY_THUMB KEY_TOUCH).
Local Abbreviation decode_buttons :=
  (vive_controller_decode_button_message
     BIT_TRIGGER BIT_GRIP BIT_MENU BIT_SYSTEM BIT_THUMB BIT_TOUCH
     KEY_TRIGGER KEY_GRIP KEY_MENU KEY_SYSTEM KEY_THUMB KEY_TOUCH).

(** C8.  For a decoded button report: a bitmask equal to the stored one
    gives no event and leaves the state as it was; a report with a nonzero
    battery flag and an all-zero button field is a heartbeat, with no
    event, no release of the buttons held and the stored bitmask kept; and
    a bitmask of a report that is no heartbeat, differing from the stored
    one in exactly one mapped bit, gives exactly one event, the press or
    the release of that button, and becomes the stored bitmask.  (The six
    mapped bits are distinct.) *)
Theorem vive_controller_decode_button_message_edges
    (self : controller) (report : button_report) :
  let buttons' := u32 (report_buttons report) in
  let self' := decode_buttons self report in
  (buttons' = buttons self -> self' = self) /\
  (heartbeat report -> self' = self) /\
  (forall m,
      NoDup (List.map bit button_map_) ->
      ~ heartbeat report ->
      In m button_map_ ->
      Z.testbit buttons' (bit m) <> Z.testbit (buttons self) (bit m) ->
      (forall m', In m' button_map_ -> bit m' <> bit m ->
         Z.testbit buttons' (bit m') = Z.testbit (buttons self) (bit m')) ->
      events self' = events self ++ [edge_event (dev_id self) buttons' m] /\
      buttons self' = buttons').
Proof.
  cbv zeta. unfold vive_controller_decode_button_message, heartbeat.
  split; [|split].
  - intros E. rewrite E, Z.eqb_refl. cbn [negb].
    destruct (negb (battery report =? 0) && (buttons self =? 0));
      reflexivity.
  - intros [Hb Hz].
    destruct (Z.eqb_spec (battery report) 0) as [|_]; [contradiction|].
    rewrite Hz. reflexivity.
  - intros m Hnd Hnh Hin Hdiff Hsame.
    destruct (negb (battery report =? 0) &&
              (u32 (report_buttons report) =? 0)) eqn:Hh.
    + exfalso. apply Hnh. apply andb_prop in Hh. destruct Hh as [Hb Hz].
      split; [|now apply Z.eqb_eq].
      intros E. rewrite E in Hb. discriminate.
    + destruct (Z.eqb_spec (u32 (report_buttons report)) (buttons self))
        as [E|_]; [rewrite E in Hdiff; contradiction|].
      cbn [negb events buttons]. split; [|reflexivity]. f_equal.
      change (firstn 6 button_map_) with button_map_.
      apply ouvrt_handle_buttons_single; assumption.
Qed.

End ControllerFacts.

(** The example of the specification, with the hardware bits 0, 2, 12,
    13, 18 and 20: bitmask 1 after bitmask 0 presses the trigger. *)
Lemma vive_controller_decode_button_message_edges_witness :
  events (vive_controller_decode_button_message 0 2 12 13 18 20
            1 2 3 4 5 6 controller0
            {| battery := 0; report_buttons := 1 |}) = [Pressed 7 1] /\
  vive_controller_decode_button_message 0 2 12 13 18 20 1 2 3 4 5 6
    controller0 {| battery := 0; report_buttons := 0 |} = controller0 /\
  vive_controller_decode_button_message 0 2 12 13 18 20 1 2 3 4 5 6
    controller0 {| battery := 1; report_buttons := 0 |} = controller0.
Proof.
  split; [|split].
  - destruct (vive_controller_decode_button_message_edges
                0 2 12 13 18 20 1 2 3 4 5 6 controller0
                {| battery := 0; report_buttons := 1 |}) as (_ & _ & H).
    destruct (H {| bit := 0; button := 1 |}) as [He _].
    + repeat constructor; cbn; intuition discriminate.
    + unfold heartbeat. cbn. intuition discriminate.
    + left. reflexivity.
    + cbn. discriminate.
    + intros m' Hm' Hb. cbn in Hm'.
      repeat (destruct Hm' as [<-|Hm']; [try reflexivity; now elim Hb|]).
      destruct Hm'.
    + rewrite He. reflexivity.
  - destruct (vive_controller_decode_button_message_edges
                0 2 12 13 18 20 1 2 3 4 5 6 controller0
                {| battery := 0; report_buttons := 0 |}) as (H & _ & _).
    apply H. reflexivity.
  - destruct (vive_controller_decode_button_message_edges
                0 2 12 13 18 20 1 2 3 4 5 6 controller0
                {| battery := 1; report_buttons := 0 |}) as (_ & H & _).
    apply H. unfold heartbeat. cbn. split; [discriminate|reflexivity].
Defined.

End ViveControllerUsbFacts.

(** ** Short reports and foreign reports *)

Module ReportRejection.
Import ViveImu Rift ViveControllerUsb.

(** The Rift sensor path does not look at the leading byte: what it does
    with a buffer is the same for every ID. *)
Lemma rift_decode_sensor_message_ignores_id dev m i len :
  rift_decode_sensor_message dev (set_msg_id m i) len =
  rift_decode_sensor_message dev m len.
Proof. reflexivity. Qed.

(** The part of the rejection rule that the code keeps.  A buffer shorter
    than the fixed size of the report is rejected with no field read and no
    state changed: by [rift_decode_sensor_message] below the size of the
    sensor message, by a turn of [rift_thread] whose read gives less than
    64 bytes (the device and the count of reports are what they were), and
    by the three interfaces of the Vive controller for a read that has not
    exactly 52, 58 or 64 bytes.  A buffer whose leading byte is not the
    expected report ID is rejected in the same way by the three interfaces
    of the Vive controller. *)
Theorem short_and_foreign_reports :
  (forall dev m len,
      len < SENSOR_MESSAGE_SIZE -> rift_decode_sensor_message dev m len = dev) /\
  (forall ev dev count,
      poll_ret ev <> -1 -> poll_ret ev <> 0 ->
      count <= 9 * report_rate dev ->
      read_ret ev < 64 ->
      rift_thread_round ev dev count = (dev, count, true)) /\
  (forall IMU_ID ev self,
      rd_ret (u_read0 ev) <> 52 \/ rd_id (u_read0 ev) <> IMU_ID ->
      fst (imu_interface IMU_ID ev self) = self) /\
  (forall PULSE_ID ev self,
      rd_ret (u_read1 ev) <> 58 \/ rd_id (u_read1 ev) <> PULSE_ID ->
      fst (pulse_interface PULSE_ID ev self) = self) /\
  (forall BUTTON_ID b1 b2 b3 b4 b5 b6 k1 k2 k3 k4 k5 k6 ev self,
      rd_ret (u_read2 ev) <> 64 \/ rd_id (u_read2 ev) <> BUTTON_ID ->
      fst (button_interface BUTTON_ID b1 b2 b3 b4 b5 b6 k1 k2 k3 k4 k5 k6
             ev self) = self).
Proof.
  repeat match goal with |- _ /\ _ => split end.
  - intros dev m len H. unfold rift_decode_sensor_message.
    destruct (Z.ltb_spec len SENSOR_MESSAGE_SIZE); [reflexivity|lia].
  - intros ev dev count H1 H0 Hc H. unfold rift_thread_round.
    cbn [Rift.events Rift.revents]. rewrite RiftFacts.poll_events_never_fatal.
    cbn [Z.eqb negb].
    destruct (Z.eqb_spec (poll_ret ev) (-1)); [lia|].
    destruct (Z.eqb_spec (poll_ret ev) 0); [lia|].
    destruct (Z.gtb_spec count (9 * report_rate dev)); [lia|].
    cbn [orb].
    destruct (read_ret ev =? -1); [reflexivity|].
    destruct (Z.ltb_spec (read_ret ev) 64); [reflexivity|lia].
  - intros IMU_ID ev self H. unfold imu_interface.
    destruct (negb (Z.land (u_revents0 ev) POLLIN =? 0)); [|reflexivity].
    destruct (rd_ret (u_read0 ev) =? -1); [reflexivity|].
    destruct (Z.eqb_spec (rd_ret (u_read0 ev)) 52);
      destruct (Z.eqb_spec (rd_id (u_read0 ev)) IMU_ID);
      try reflexivity.
    exfalso. tauto.
  - intros PULSE_ID ev self H. unfold pulse_interface.
    destruct (negb (Z.land (u_revents1 ev) POLLIN =? 0)); [|reflexivity].
    destruct (rd_ret (u_read1 ev) =? -1); [reflexivity|].
    destruct (Z.eqb_spec (rd_ret (u_read1 ev)) 58);
      destruct (Z.eqb_spec (rd_id (u_read1 ev)) PULSE_ID);
      try reflexivity.
    exfalso. tauto.
  - intros BUTTON_ID b1 b2 b3 b4 b5 b6 k1 k2 k3 k4 k5 k6 ev self H.
    unfold button_interface.
    destruct (negb (Z.land (u_revents2 ev) POLLIN =? 0)); [|reflexivity].
    destruct (rd_ret (u_read2 ev) =? -1); [reflexivity|].
    destruct (Z.eqb_spec (rd_ret (u_read2 ev)) 64);
      destruct (Z.eqb_spec (rd_id (u_read2 ev)) BUTTON_ID);
      try reflexivity.
    exfalso. tauto.
Qed.

(** A read of 20 bytes on the Rift, in the decoder and in a turn of the
    thread, and on the Vive controller a full IMU report that starts with
    0x21 where 0x20 is expected. *)
Lemma short_and_foreign_reports_witness :
  rift_decode_sensor_message dev0 (message_with_id 11) 20 = dev0 /\
  rift_thread_round
    {| Rift.dev_active := true; poll_ret := 1; poll_revents := POLLIN;
       read_ret := 20; read_message := message_with_id 11 |} dev0 7
  = (dev0, 7, true) /\
  fst (imu_interface 0x20 (imu_round 52 0x21 report_675) controller0)
  = controller0.
Proof.
  destruct short_and_foreign_reports as (Hshort & Hround & Himu & _).
  split; [|split].
  - apply Hshort. reflexivity.
  - apply Hround; cbn; lia.
  - apply Himu. right. cbn. discriminate.
Defined.

(** C5 (fails on the code).  The Rift sensor path never compares the
    leading byte of a report with an ID: [rift_thread] hands every read of
    64 bytes to [rift_decode_sensor_message], which tests the length only.
    A 64 byte buffer is therefore decoded whatever its first byte: the
    device takes over its timestamp and pushes its sample, and there is no
    expected ID for which a buffer that starts with another byte leaves the
    state as it was. *)
Theorem rift_decodes_foreign_report :
  (forall i,
      rift_thread [data_round i] dev0 =
        (rift_decode_sensor_message (rift_send_keepalive dev0)
           (message_with_id i) 64, 1, ScriptEnd)) /\
  (forall i,
      let dev' := fst (fst (rift_thread [data_round i] dev0)) in
      last_sample_timestamp dev' = 2000 /\
      last_sample_timestamp dev' <> last_sample_timestamp dev0 /\
      length (fifo dev') = S (length (fifo dev0))) /\
  (forall dev m i len,
      rift_decode_sensor_message dev (set_msg_id m i) len =
      rift_decode_sensor_message dev m len) /\
  ~ (exists expected,
        forall dev m len,
          len < SENSOR_MESSAGE_SIZE \/ msg_id m <> expected ->
          rift_decode_sensor_message dev m len = dev).
Proof.
  repeat match goal with |- _ /\ _ => split end.
  - intros i. reflexivity.
  - intros i. cbv zeta.
    split; [reflexivity|split; [cbn; discriminate|reflexivity]].
  - intros dev m i len. apply rift_decode_sensor_message_ignores_id.
  - intros [expected H].
    specialize (H dev0 (message_with_id (expected + 1)) 64).
    assert (E : rift_decode_sensor_message dev0
                  (message_with_id (expected + 1)) 64 = dev0).
    { apply H. right. cbn. lia. }
    apply (f_equal last_sample_timestamp) in E. cbn in E. discriminate.
Qed.

End ReportRejection.

(** ** Further properties of vive-imu.c *)

Module ViveImuExtra.
Import ViveImu ViveImuFacts.

(** Three turns from any start visit each slot once. *)
Lemma visit_order_any i :
  0 <= i < 3 ->
  let order := [i; (i + 1) mod 3; ((i + 1) mod 3 + 1) mod 3] in
  NoDup order /\ (forall k, In k order <-> 0 <= k < 3).
Proof.
  intros Hi. assert (C : i = 0 \/ i = 1 \/ i = 2) by lia.
  destruct C as [-> | [-> | ->]]; cbn; split;
    try (repeat constructor; cbn; intuition lia); intros k; lia.
Qed.

Lemma seen_iff_window imu s :
  0 <= sequence imu < 256 ->
  already_seen (sequence imu) s = true <-> in_window (sequence imu) s.
Proof.
  intros H. rewrite already_seen_window by assumption.
  apply in_windowb_spec.
Qed.

(** Whatever the three counters are, [vive_imu_decode_message] handles
    each slot whose counter lies outside the window of the last delivered
    sequence number exactly once, and no slot whose counter lies inside. *)
Theorem vive_imu_decode_message_any_report imu report :
  0 <= sequence imu < 256 ->
  let out := snd (vive_imu_decode_message imu report) in
  NoDup (map fst out) /\
  (forall i, In i (map fst out) <->
             0 <= i < 3 /\
             ~ in_window (sequence imu) (seq (sample_at report i))) /\
  (length out <= 3)%nat.
Proof.
  intros Hs out.
  pose proof (decode_loop_slots
                (oldest_sequence_index (seq (sample0 report))
                   (seq (sample1 report)) (seq (sample2 report)))
                (sequence imu) report imu) as Hslots.
  fold (vive_imu_decode_message imu report) in Hslots. fold out in Hslots.
  destruct (visit_order_any _ (oldest_sequence_index_range
                                 (seq (sample0 report)) (seq (sample1 report))
                                 (seq (sample2 report))))
    as [Hnd Hall].
  split; [|split].
  - rewrite Hslots. apply NoDup_filter. exact Hnd.
  - intros i. rewrite Hslots, filter_In, Hall.
    rewrite <- seen_iff_window by assumption.
    destruct (already_seen (sequence imu) (seq (sample_at report i)));
      cbn; intuition congruence.
  - rewrite <- (length_map fst), Hslots.
    etransitivity; [apply filter_length_le|]. cbn. lia.
Qed.

(** After sample 5, a report whose slots all hold 9 is handled slot by
    slot. *)
Lemma vive_imu_decode_message_any_report_witness :
  map fst (snd (vive_imu_decode_message {| sequence := 5; imu_time := 0 |}
                  {| sample0 := tick_sample 9 10;
                     sample1 := tick_sample 9 10;
                     sample2 := tick_sample 9 10 |})) = [0; 1; 2] /\
  (length (snd (vive_imu_decode_message {| sequence := 5; imu_time := 0 |}
                  report_675)) <= 3)%nat.
Proof.
  split; [reflexivity|].
  apply (vive_imu_decode_message_any_report
           {| sequence := 5; imu_time := 0 |} report_675).
  cbn. lia.
Defined.

(** When every slot has been seen the loop changes nothing. *)
Lemma decode_loop_all_seen j : forall i lst report imu,
  (forall k, already_seen lst (seq (sample_at report k)) = true) ->
  decode_loop j i lst report imu = (imu, []).
Proof.
  induction j as [|j IH]; intros i lst report imu H; cbn [decode_loop];
    [reflexivity|].
  cbv zeta. rewrite H. apply IH. exact H.
Qed.

(** The sequence numbers handed on, for a round-robin triple. *)
Lemma delivered_seqs_rotation imu report n :
  0 <= n < 256 ->
  slot_rotation (seq (sample0 report)) (seq (sample1 report))
                (seq (sample2 report)) n ->
  map (delivered_seq report) (snd (vive_imu_decode_message imu report)) =
    filter (fun q => negb (already_seen (sequence imu) q))
           [n; u8 (n + 1); u8 (n + 2)].
Proof.
  intros Hn Hrot.
  destruct (visit_order report n Hn Hrot) as (Hseqs & _ & _).
  pose proof (decode_loop_slots
                (oldest_sequence_index (seq (sample0 report))
                   (seq (sample1 report)) (seq (sample2 report)))
                (sequence imu) report imu) as Hslots.
  fold (vive_imu_decode_message imu report) in Hslots.
  unfold delivered_seq.
  rewrite <- (map_map fst (fun k => seq (sample_at report k))), Hslots.
  rewrite <- Hseqs.
  apply (map_filter_comm (fun k => seq (sample_at report k))
           (fun q => negb (already_seen (sequence imu) q))).
Qed.

(** When the newest sample of a round-robin report is handed on, it is the
    one the device remembers, and decoding the same report again hands on
    nothing and leaves the device as it is. *)
Theorem vive_imu_decode_message_again imu report n :
  0 <= n < 256 ->
  slot_rotation (seq (sample0 report)) (seq (sample1 report))
                (seq (sample2 report)) n ->
  already_seen (sequence imu) (u8 (n + 2)) = false ->
  let imu' := fst (vive_imu_decode_message imu report) in
  sequence imu' = u8 (n + 2) /\
  vive_imu_decode_message imu' report = (imu', []).
Proof.
  intros Hn Hrot Hnew imu'.
  assert (Hseq : sequence imu' = u8 (n + 2)).
  { destruct (decode_loop_data 3
                (oldest_sequence_index (seq (sample0 report))
                   (seq (sample1 report)) (seq (sample2 report)))
                (sequence imu) report imu
                (oldest_sequence_index_range _ _ _)) as [_ Hmem].
    fold (vive_imu_decode_message imu report) in Hmem. fold imu' in Hmem.
    rewrite Hmem, (delivered_seqs_rotation imu report n Hn Hrot).
    cbn [filter]. rewrite Hnew. cbn [negb].
    destruct (already_seen (sequence imu) n),
             (already_seen (sequence imu) (u8 (n + 1))); reflexivity. }
  split; [exact Hseq|].
  unfold vive_imu_decode_message. apply decode_loop_all_seen.
  intros k. rewrite Hseq. unfold already_seen.
  assert (Hk : seq (sample_at report k) = n \/
               seq (sample_at report k) = u8 (n + 1) \/
               seq (sample_at report k) = u8 (n + 2)).
  { unfold sample_at.
    destruct Hrot as [(E0 & E1 & E2)|[(E1 & E2 & E0)|(E2 & E0 & E1)]];
      destruct (k =? 0); try tauto; destruct (k =? 1); tauto. }
  destruct Hk as [-> | [-> | ->]]; eqb_cases; try reflexivity;
    exfalso; u8_lia.
Qed.

(** After sample 5 the report 6, 7, 5 leaves the device at 7, and a
    second decoding of it yields nothing. *)
Lemma vive_imu_decode_message_again_witness :
  let imu' := fst (vive_imu_decode_message
                     {| sequence := 5; imu_time := 1000 |} report_675) in
  sequence imu' = 7 /\ snd (vive_imu_decode_message imu' report_675) = [].
Proof.
  destruct (vive_imu_decode_message_again
              {| sequence := 5; imu_time := 1000 |} report_675 5)
    as [H1 H2].
  - lia.
  - right. right. repeat split; reflexivity.
  - reflexivity.
  - cbv zeta. split; [exact H1|]. rewrite H2. reflexivity.
Defined.

(** The low half of the time of a sample is its tick, so the test for a
    wrap at the next sample compares the new tick with the previous one:
    the time of the next sample is its tick, plus 2^32 exactly when the
    tick went back. *)
Theorem sample_time_successive stored t t' :
  0 <= t < 2 ^ 32 -> 0 <= t' < 2 ^ 32 ->
  Z.land (sample_time stored t) 0xffffffff = t /\
  0 <= sample_time stored t < 2 ^ 33 /\
  sample_time (sample_time stored t) t' =
    if t' <? t then 2 ^ 32 + t' else t'.
Proof.
  intros Ht Ht'.
  assert (L : Z.land (sample_time stored t) 0xffffffff = t).
  { rewrite sample_time_value by assumption.
    change 0xffffffff with (Z.ones 32).
    destruct (t <? Z.land stored (Z.ones 32));
      rewrite Z.land_ones by lia.
    - rewrite Z.add_comm, <- (Z.mul_1_l (2 ^ 32)), Z.mod_add by lia.
      apply Z.mod_small. exact Ht.
    - apply Z.mod_small. exact Ht. }
  split; [exact L|]. split.
  - rewrite sample_time_value by assumption.
    destruct (t <? Z.land stored 0xffffffff); lia.
  - rewrite sample_time_value by assumption. rewrite L. reflexivity.
Qed.

Lemma sample_time_successive_witness :
  sample_time (sample_time 0 0xfffffff0) 5 = 2 ^ 32 + 5.
Proof.
  destruct (sample_time_successive 0 0xfffffff0 5) as (_ & _ & H).
  - lia.
  - lia.
  - rewrite H. reflexivity.
Defined.

End ViveImuExtra.

(** ** Further properties of rift.c *)

Module RiftExtra.
Import Rift RiftFacts.

(** *** unpack_3x21bit *)

(** The top 21 bits of a 64 bit word, read as a signed number. *)
Lemma top_lane X r :
  0 <= X < 2 ^ 21 -> 0 <= r < 2 ^ 43 ->
  Z.shiftr (int64 (X * 2 ^ 43 + r)) 43 =
    if X <? 2 ^ 20 then X else X - 2 ^ 21.
Proof.
  intros HX Hr. unfold int64, u64. rewrite Z.shiftr_div_pow2 by lia.
  assert (B : 0 <= X * 2 ^ 43 + r < 2 ^ 64) by nia.
  rewrite (Z.mod_small _ (2 ^ 64)) by exact B.
  destruct (Z.ltb_spec X (2 ^ 20)) as [Hlo|Hhi].
  - destruct (Z.ltb_spec (X * 2 ^ 43 + r) (2 ^ 63)); [|nia].
    rewrite Z.div_add_l by lia. rewrite Z.div_small by lia. lia.
  - destruct (Z.ltb_spec (X * 2 ^ 43 + r) (2 ^ 63)); [nia|].
    replace (X * 2 ^ 43 + r - 2 ^ 64) with ((X - 2 ^ 21) * 2 ^ 43 + r)
      by (change (2 ^ 64) with (2 ^ 21 * 2 ^ 43); ring).
    rewrite Z.div_add_l by lia. rewrite Z.div_small by lia. lia.
Qed.

Lemma signed_lane x :
  - 2 ^ 20 <= x < 2 ^ 20 ->
  (if x mod 2 ^ 21 <? 2 ^ 20 then x mod 2 ^ 21 else x mod 2 ^ 21 - 2 ^ 21)
  = x.
Proof.
  intros Hx. destruct (Z_lt_ge_dec x 0) as [Hn|Hp].
  - replace (x mod 2 ^ 21) with (x + 2 ^ 21).
    + destruct (Z.ltb_spec (x + 2 ^ 21) (2 ^ 20)); lia.
    + symmetry. rewrite <- (Z.mod_add x 1 (2 ^ 21)) by lia.
      apply Z.mod_small. lia.
  - rewrite Z.mod_small by lia. destruct (Z.ltb_spec x (2 ^ 20)); lia.
Qed.

(** [unpack_3x21bit] gives back three signed 21 bit values packed into
    the lanes of a word, whatever the spare low bit holds. *)
Theorem unpack_3x21bit_round_trip x y z b :
  - 2 ^ 20 <= x < 2 ^ 20 ->
  - 2 ^ 20 <= y < 2 ^ 20 ->
  - 2 ^ 20 <= z < 2 ^ 20 ->
  0 <= b <= 1 ->
  unpack_3x21bit (pack_3x21bit x y z b) = (x, y, z).
Proof.
  intros Hx Hy Hz Hb. unfold unpack_3x21bit, pack_3x21bit.
  pose proof (Z.mod_pos_bound x (2 ^ 21) ltac:(lia)) as BX.
  pose proof (Z.mod_pos_bound y (2 ^ 21) ltac:(lia)) as BY.
  pose proof (Z.mod_pos_bound z (2 ^ 21) ltac:(lia)) as BZ.
  set (X := x mod 2 ^ 21) in *. set (Y := y mod 2 ^ 21) in *.
  set (Z0 := z mod 2 ^ 21) in *.
  assert (E1 : X * 2 ^ 43 + Y * 2 ^ 22 + Z0 * 2 + b
               = X * 2 ^ 43 + (Y * 2 ^ 22 + Z0 * 2 + b)) by ring.
  assert (E2 : u64 (Z.shiftl (X * 2 ^ 43 + Y * 2 ^ 22 + Z0 * 2 + b) 21)
               = Y * 2 ^ 43 + (Z0 * 2 + b) * 2 ^ 21).
  { unfold u64. rewrite Z.shiftl_mul_pow2 by lia.
    replace ((X * 2 ^ 43 + Y * 2 ^ 22 + Z0 * 2 + b) * 2 ^ 21)
      with (Y * 2 ^ 43 + (Z0 * 2 + b) * 2 ^ 21 + X * 2 ^ 64)
      by (change (2 ^ 64) with (2 ^ 43 * 2 ^ 21);
          change (2 ^ 43) with (2 ^ 22 * 2 ^ 21); ring).
    rewrite Z.mod_add by lia. apply Z.mod_small. nia. }
  assert (E3 : u64 (Z.shiftl (X * 2 ^ 43 + Y * 2 ^ 22 + Z0 * 2 + b) 42)
               = Z0 * 2 ^ 43 + b * 2 ^ 42).
  { unfold u64. rewrite Z.shiftl_mul_pow2 by lia.
    replace ((X * 2 ^ 43 + Y * 2 ^ 22 + Z0 * 2 + b) * 2 ^ 42)
      with (Z0 * 2 ^ 43 + b * 2 ^ 42 + (X * 2 ^ 21 + Y) * 2 ^ 64)
      by (change (2 ^ 64) with (2 ^ 22 * 2 ^ 42);
          change (2 ^ 43) with (2 * 2 ^ 42);
          change (2 ^ 22) with (2 * 2 ^ 21); ring).
    rewrite Z.mod_add by lia. apply Z.mod_small. nia. }
  rewrite E2, E3, E1.
  rewrite !top_lane by nia.
  unfold X, Y, Z0. rewrite !signed_lane by assumption. reflexivity.
Qed.

Lemma unpack_3x21bit_round_trip_witness :
  unpack_3x21bit (pack_3x21bit (-98066) 12345 (-1) 1) = (-98066, 12345, -1).
Proof. apply unpack_3x21bit_round_trip; lia. Defined.

(** *** rift_get_led_patterns *)

Lemma led_pattern_loop_prefix script : forall i num report table,
  0 <= i < num ->
  led_pattern_loop script i num report table =
  led_pattern_loop (firstn (Z.to_nat (num - i - 1)) script) i num report
                   table.
Proof.
  induction script as [|[ret r'] script IH]; intros i num report table Hi.
  - rewrite firstn_nil. reflexivity.
  - destruct (Z.to_nat (num - i - 1)) as [|k] eqn:K.
    + assert (E : i + 1 = num) by lia.
      cbn [firstn led_pattern_loop].
      destruct (led_pattern_record num report table); [|reflexivity].
      rewrite (proj2 (Z.eqb_eq (i + 1) num) E). reflexivity.
    + cbn [firstn led_pattern_loop].
      destruct (led_pattern_record num report table); [|reflexivity].
      destruct (i + 1 =? num); [reflexivity|].
      destruct (ret <? 0); [reflexivity|].
      rewrite (IH (i + 1) num r' p) by lia.
      replace (Z.to_nat (num - (i + 1) - 1)) with k by lia. reflexivity.
Qed.

(** [rift_get_led_patterns] reads no more feature reports than the
    first one announces: what it returns and stores is decided by the first
    [num] reports, and it never reads the first report again. *)
Theorem rift_get_led_patterns_reads MAX_LEDS ret report rest table :
  1 <= led_num report ->
  rift_get_led_patterns MAX_LEDS ((ret, report) :: rest) table =
  rift_get_led_patterns MAX_LEDS
    ((ret, report) :: firstn (Z.to_nat (led_num report - 1)) rest) table.
Proof.
  intros Hnum. cbn [rift_get_led_patterns].
  destruct (ret <? 0); [reflexivity|].
  destruct (led_num report >? MAX_LEDS); [reflexivity|].
  rewrite (led_pattern_loop_prefix rest 0 (led_num report)) by lia.
  replace (led_num report - 0 - 1) with (led_num report - 1) by lia.
  reflexivity.
Qed.

(** Two LEDs are announced: a third report is never looked at. *)
Lemma rift_get_led_patterns_reads_witness :
  let r := fun i => {| led_pattern_length := 10; led_pattern := 0x55577;
                       led_index := i; led_num := 2 |} in
  fst (rift_get_led_patterns 44 [(0, r 0); (0, r 1); (-1, r 0)] table0)
  = fst (rift_get_led_patterns 44 [(0, r 0); (0, r 1)] table0).
Proof.
  cbv zeta.
  rewrite (rift_get_led_patterns_reads 44 0
             {| led_pattern_length := 10; led_pattern := 0x55577;
                led_index := 0; led_num := 2 |}) by (cbn; lia).
  reflexivity.
Defined.

Lemma led_pattern_record_frame num report table table' k :
  led_pattern_record num report table = Some table' ->
  num <= k -> table' k = table k.
Proof.
  unfold led_pattern_record.
  destruct (Z.geb_spec (led_index report) num); [discriminate|].
  destruct (negb (led_pattern_length report =? 10)); [discriminate|].
  destruct (negb (pattern_well_formed (led_pattern report)));
    [discriminate|].
  intros E Hk. inversion E. unfold store.
  destruct (Z.eqb_spec k (led_index report)); [lia|reflexivity].
Qed.

Lemma led_pattern_loop_frame script : forall i num report table k,
  num <= k -> snd (led_pattern_loop script i num report table) k = table k.
Proof.
  induction script as [|[ret r'] script IH]; intros i num report table k Hk;
    cbn [led_pattern_loop];
    destruct (led_pattern_record num report table) as [table'|] eqn:R;
    try reflexivity;
    pose proof (led_pattern_record_frame _ _ _ _ k R Hk) as F;
    destruct (i + 1 =? num); try exact F.
  destruct (ret <? 0); [exact F|].
  rewrite IH by exact Hk. exact F.
Qed.

(** Whatever the device sends, [rift_get_led_patterns] writes no entry
    of the pattern table at or beyond its capacity [MAX_LEDS]. *)
Theorem rift_get_led_patterns_in_bounds MAX_LEDS script table k :
  MAX_LEDS <= k ->
  snd (rift_get_led_patterns MAX_LEDS script table) k = table k.
Proof.
  intros Hk. destruct script as [|[ret report] rest]; cbn; [reflexivity|].
  destruct (ret <? 0); [reflexivity|].
  destruct (Z.gtb_spec (led_num report) MAX_LEDS); [reflexivity|].
  apply led_pattern_loop_frame. lia.
Qed.

(** A record for LED 43 of 44, with a table of 44 entries. *)
Lemma rift_get_led_patterns_in_bounds_witness :
  snd (rift_get_led_patterns 44
         [(0, {| led_pattern_length := 10; led_pattern := 0x55577;
                 led_index := 43; led_num := 44 |})] table0) 44 = 0.
Proof.
  rewrite rift_get_led_patterns_in_bounds by lia. reflexivity.
Defined.

(** A device that announces no LED at all makes the read fail, with
    nothing stored: the first index cannot be below 0. *)
Theorem rift_get_led_patterns_none MAX_LEDS ret report rest table :
  0 <= ret -> led_num report <= 0 -> 0 <= led_index report ->
  rift_get_led_patterns MAX_LEDS ((ret, report) :: rest) table = (-1, table).
Proof.
  intros Hret Hnum Hidx. cbn [rift_get_led_patterns].
  destruct (Z.ltb_spec ret 0); [lia|].
  destruct (led_num report >? MAX_LEDS); [reflexivity|].
  destruct rest as [|[ret' r'] rest]; cbn [led_pattern_loop];
    unfold led_pattern_record;
    destruct (Z.geb_spec (led_index report) (led_num report));
    try reflexivity; lia.
Qed.

Lemma rift_get_led_patterns_none_witness :
  fst (rift_get_led_patterns 44
         [(0, {| led_pattern_length := 10; led_pattern := 0x55577;
                 led_index := 0; led_num := 0 |})] table0) = -1.
Proof.
  rewrite rift_get_led_patterns_none by (cbn; lia). reflexivity.
Defined.

(** *** rift_start *)

Lemma rift_get_config_ret get dev ret dev' :
  rift_get_config get dev = Some (ret, dev') -> ret <= 0.
Proof.
  unfold rift_get_config. destruct get as [r report].
  destruct (Z.ltb_spec r 0); [intros E; inversion E; lia|].
  match goal with |- context [?x =? 0] => destruct (x =? 0) end;
    [discriminate|intros E; inversion E; lia].
Qed.

(** [rift_get_config] fails to return exactly on a successful read of a
    report that gives the report rate 0. *)
Lemma rift_get_config_none get dev :
  rift_get_config get dev = None <->
  0 <= fst get /\
  u16 (Z.quot (cfg_sample_rate (snd get))
              (cfg_packet_interval (snd get) + 1)) = 0.
Proof.
  unfold rift_get_config. destruct get as [r report]. cbn [fst snd].
  destruct (Z.ltb_spec r 0).
  - split; [discriminate|lia].
  - match goal with |- context [?x =? 0] => destruct (Z.eqb_spec x 0) end.
    + split; [intros _; split; [lia|assumption]|reflexivity].
    + split; [discriminate|tauto].
Qed.

Lemma rift_set_report_rate_ret get send_ret dev r :
  fst (fst (rift_set_report_rate get send_ret dev r)) <= 0.
Proof.
  unfold rift_set_report_rate. destruct get as [ret report].
  destruct (Z.ltb_spec ret 0); [cbn; lia|].
  destruct (Z.ltb_spec send_ret 0); cbn; lia.
Qed.

(** [rift_start] returns 0 with the LEDs registered with the tracker, or
    a negative value without: the tracker never sees the LEDs of a device
    whose start failed at any of its steps.  It fails to return in one
    case only, the division by zero of [rift_get_config]: the positions
    and the patterns were read, the configuration was read with success,
    and its sample rate divided by its packet interval plus one is 0. *)
Theorem rift_start_outcome MAX_LEDS env dev table :
  let divides_by_zero :=
    0 <= positions_ret env /\
    fst (rift_get_led_patterns MAX_LEDS (led_script env) table) = 0 /\
    0 <= fst (config_get env) /\
    u16 (Z.quot (cfg_sample_rate (snd (config_get env)))
                (cfg_packet_interval (snd (config_get env)) + 1)) = 0 in
  match rift_start MAX_LEDS env dev table with
  | Some (ret, _, _, registered) =>
      ~ divides_by_zero /\
      ((ret = 0 /\ registered = true) \/ (ret < 0 /\ registered = false))
  | None => divides_by_zero
  end.
Proof.
  cbv zeta. unfold rift_start.
  destruct (Z.ltb_spec (positions_ret env) 0) as [Hp|Hp].
  { split; [lia|]. right; split; [lia|reflexivity]. }
  pose proof (rift_get_led_patterns_ret MAX_LEDS (led_script env) table)
    as H1.
  destruct (rift_get_led_patterns MAX_LEDS (led_script env) table)
    as [ret1 table1]. cbn [fst] in *.
  destruct (Z.ltb_spec ret1 0).
  { split; [lia|]. right; split; [lia|reflexivity]. }
  pose proof (rift_get_config_none (config_get env) dev) as N.
  pose proof (rift_get_config_ret (config_get env) dev) as H2.
  destruct (rift_get_config (config_get env) dev) as [[ret2 dev2]|].
  2:{ split; [lia|]. split; [lia|]. apply N. reflexivity. }
  specialize (H2 ret2 dev2 eq_refl).
  assert (Hno : ~ (0 <= positions_ret env /\ ret1 = 0 /\
                   0 <= fst (config_get env) /\
                   u16 (Z.quot (cfg_sample_rate (snd (config_get env)))
                          (cfg_packet_interval (snd (config_get env)) + 1))
                   = 0)).
  { intros (_ & _ & A & B).
    assert (E : Some (ret2, dev2) = None) by (apply N; split; assumption).
    discriminate. }
  destruct (Z.ltb_spec ret2 0).
  { split; [exact Hno|]. right; split; [lia|reflexivity]. }
  pose proof (rift_set_report_rate_ret (rate_get env) (rate_send_ret env)
                dev2 500) as H3.
  destruct (rift_set_report_rate (rate_get env) (rate_send_ret env) dev2 500)
    as [[ret3 dev3] sent]. cbn [fst] in H3.
  destruct (Z.ltb_spec ret3 0).
  { split; [exact Hno|]. right; split; [lia|reflexivity]. }
  destruct (Z.ltb_spec (tracking_ret env) 0).
  { split; [exact Hno|]. right; split; [lia|reflexivity]. }
  destruct (Z.ltb_spec (display_ret env) 0).
  { split; [exact Hno|]. right; split; [lia|reflexivity]. }
  split; [exact Hno|]. left; split; reflexivity.
Qed.

(** A device with two LEDs whose configuration report has the sample
    rate 10 and the packet interval 19: the start does not return. *)
Lemma rift_start_outcome_witness :
  rift_start 44
    {| positions_ret := 0;
       led_script := [(0, led_record_of_two 1 0x55577);
                      (0, led_record_of_two 0 0x5555d)];
       config_get := (0, config_report 10);
       rate_get := (0, config_report 10);
       rate_send_ret := 0; tracking_ret := 0; display_ret := 0 |}
    dev0 table0 = None.
Proof.
  pose proof (rift_start_outcome 44
    {| positions_ret := 0;
       led_script := [(0, led_record_of_two 1 0x55577);
                      (0, led_record_of_two 0 0x5555d)];
       config_get := (0, config_report 10);
       rate_get := (0, config_report 10);
       rate_send_ret := 0; tracking_ret := 0; display_ret := 0 |}
    dev0 table0) as H.
  cbv zeta in H.
  match type of H with
  | match ?x with _ => _ end => destruct x as [[[[r d] t] g]|]
  end; [|reflexivity].
  exfalso. destruct H as [H _]. apply H.
  repeat split; try reflexivity; cbn; lia.
Defined.

(** *** The report rate, set and read back *)

(** When the packet interval that [rift_set_report_rate] sends fits its
    byte and the device reports it back, [rift_get_config] returns 0 and
    the rate it then computes is at least the rate configured and at most
    the sample rate, and it is the rate configured when that divides the
    sample rate. *)
Theorem report_rate_read_back get_ret report send_ret dev r :
  0 <= get_ret -> 0 <= send_ret ->
  let s := cfg_sample_rate report in
  let c := Z.max 5 (Z.min r s) in
  5 <= s < 2 ^ 16 ->
  Z.quot s c - 1 <= 255 ->
  let '(_, dev1, sent) :=
    rift_set_report_rate (get_ret, report) send_ret dev r in
  exists cfg,
    sent = Some cfg /\
    0 <= cfg_packet_interval cfg <= 255 /\
    cfg_packet_interval cfg = Z.quot s c - 1 /\
    report_rate dev1 = c /\
    exists dev2,
      rift_get_config (0, cfg) dev1 = Some (0, dev2) /\
      c <= report_rate dev2 <= s /\
      (s mod c = 0 -> report_rate dev2 = c).
Proof.
  intros Hg Hs s c Hrange Hfit.
  rewrite rift_set_report_rate_value by assumption.
  fold s. fold c.
  assert (Hc : 5 <= c <= s) by (unfold c; lia).
  assert (Q : Z.quot s c = s / c) by (apply Z.quot_div_nonneg; lia).
  assert (Hq : 1 <= s / c).
  { apply Z.div_le_lower_bound; lia. }
  assert (U : u8 (Z.quot s c - 1) = Z.quot s c - 1).
  { unfold u8. apply Z.mod_small. rewrite Q in *. lia. }
  eexists. split; [reflexivity|]. cbn [cfg_packet_interval]. rewrite U.
  split; [rewrite Q in *; lia|]. split; [reflexivity|].
  split; [reflexivity|].
  unfold rift_get_config. cbn [Z.ltb Z.compare cfg_sample_rate
                                 cfg_packet_interval set_rate report_rate].
  fold s. rewrite ?U.
  replace (Z.quot s c - 1 + 1) with (s / c) by (rewrite Q; lia).
  rewrite Z.quot_div_nonneg by lia.
  assert (Lo : c <= s / (s / c)).
  { apply Z.div_le_lower_bound; [lia|].
    rewrite Z.mul_comm. apply Z.mul_div_le. lia. }
  assert (Hi : s / (s / c) <= s).
  { apply Z.div_le_upper_bound; [lia|]. nia. }
  unfold u16. rewrite Z.mod_small by lia.
  destruct (Z.eqb_spec (s / (s / c)) 0); [lia|].
  eexists. split; [reflexivity|]. cbn [report_rate set_rate].
  split; [lia|].
  intros Hdiv.
  assert (E : s = c * (s / c)).
  { pose proof (Z.div_mod s c ltac:(lia)). lia. }
  set (q := s / c) in *. rewrite E. apply Z.div_mul. lia.
Qed.

(** A request for 300 Hz at a sample rate of 1000 Hz reads back as 333 Hz. *)
Lemma report_rate_read_back_witness :
  let '(_, dev1, sent) :=
    rift_set_report_rate (0, config_report 1000) 0 dev0 300 in
  exists cfg dev2, sent = Some cfg /\
    rift_get_config (0, cfg) dev1 = Some (0, dev2) /\
    300 <= report_rate dev2 <= 1000.
Proof.
  pose proof (report_rate_read_back 0 (config_report 1000) 0 dev0 300
                ltac:(lia) ltac:(lia)) as H.
  cbv zeta in H.
  destruct (rift_set_report_rate (0, config_report 1000) 0 dev0 300)
    as [[ret dev1] sent].
  destruct H as (cfg & E & _ & _ & _ & dev2 & G & H & _).
  - cbn. lia.
  - cbn. lia.
  - exists cfg, dev2. split; [exact E|]. split; [exact G|].
    cbn in H. exact H.
Defined.

(** *** rift_thread *)

Lemma rift_decode_sensor_message_rate dev m len :
  report_rate (rift_decode_sensor_message dev m len) = report_rate dev /\
  keepalives (rift_decode_sensor_message dev m len) = keepalives dev.
Proof.
  unfold rift_decode_sensor_message.
  destruct (len <? SENSOR_MESSAGE_SIZE); split; reflexivity.
Qed.

Lemma rift_decode_sensor_message_fifo dev m len :
  exists pushed,
    fifo (rift_decode_sensor_message dev m len) = fifo dev ++ pushed /\
    (length pushed <= 2)%nat.
Proof.
  unfold rift_decode_sensor_message.
  destruct (len <? SENSOR_MESSAGE_SIZE).
  - exists []. rewrite app_nil_r. split; [reflexivity|cbn; lia].
  - cbv zeta. cbn [fifo].
    destruct ((if msg_num_samples m >? 1 then 2 else 1) =? 2);
      eexists; (split; [reflexivity|cbn; lia]).
Qed.

(** What a turn of the loop keeps: the report rate, a counter of at most
    [9 * rate + 1] reports since the last keepalive, and the FIFO, which
    grows by at most two samples. *)
Lemma rift_thread_round_keeps ev dev count :
  0 <= count <= 9 * report_rate dev + 1 ->
  let '(dev', count', _) := rift_thread_round ev dev count in
  report_rate dev' = report_rate dev /\
  0 <= count' <= 9 * report_rate dev + 1 /\
  keepalives dev <= keepalives dev' /\
  exists pushed, fifo dev' = fifo dev ++ pushed /\ (length pushed <= 2)%nat.
Proof.
  intros Hc. unfold rift_thread_round.
  assert (N : exists pushed : list imu_sample,
             fifo dev = fifo dev ++ pushed /\ (length pushed <= 2)%nat)
    by (exists []; rewrite app_nil_r; split; [reflexivity|cbn; lia]).
  destruct (Z.gtb_spec count (9 * report_rate dev)) as [Hgt|Hle].
  - rewrite !orb_true_r.
    cbn [rift_send_keepalive report_rate keepalives fifo].
    repeat split; try lia. exact N.
  - rewrite orb_false_r.
    destruct ((poll_ret ev =? -1) || (poll_ret ev =? 0)).
    + cbn [rift_send_keepalive report_rate keepalives fifo].
      repeat split; try lia. exact N.
    + cbn [events revents]. rewrite poll_events_never_fatal.
      cbn [Z.eqb negb].
      destruct (read_ret ev =? -1); [repeat split; try lia; exact N|].
      destruct (read_ret ev <? 64); [repeat split; try lia; exact N|].
      destruct (rift_decode_sensor_message_rate dev (read_message ev) 64)
        as [R K].
      rewrite R, K. repeat split; try lia.
      apply rift_decode_sensor_message_fifo.
Qed.

Lemma rift_thread_loop_keeps script : forall dev count,
  0 <= count <= 9 * report_rate dev + 1 ->
  let '(dev', count', _) := rift_thread_loop script dev count in
  report_rate dev' = report_rate dev /\
  0 <= count' <= 9 * report_rate dev + 1 /\
  keepalives dev <= keepalives dev' /\
  exists pushed,
    fifo dev' = fifo dev ++ pushed /\
    (length pushed <= 2 * length script)%nat.
Proof.
  induction script as [|ev script IH]; intros dev count Hc;
    cbn [rift_thread_loop].
  - repeat split; try lia. exists []. rewrite app_nil_r.
    split; [reflexivity|cbn; lia].
  - destruct (dev_active ev); cbn [negb].
    + pose proof (rift_thread_round_keeps ev dev count Hc) as R.
      pose proof (rift_thread_round_goes_on ev dev count) as G.
      destruct (rift_thread_round ev dev count) as [[dev1 count1] go_on].
      cbn in G. subst go_on. destruct R as (R1 & R2 & R3 & p1 & F1 & L1).
      specialize (IH dev1 count1). rewrite R1 in IH. specialize (IH R2).
      destruct (rift_thread_loop script dev1 count1) as [[dev2 count2] how].
      destruct IH as (I1 & I2 & I3 & p2 & F2 & L2).
      repeat split; try lia.
      exists (p1 ++ p2). rewrite F2, F1, app_assoc. split; [reflexivity|].
      rewrite length_app. cbn [length]. lia.
    + repeat split; try lia. exists []. rewrite app_nil_r.
      split; [reflexivity|cbn; lia].
Qed.

(** [rift_thread] sends its first keepalive at once and then never lets
    more than [9 * rate + 1] reports go by without another: the counter of
    reports decoded since the last keepalive stays within that bound, and
    the report rate is not changed by the loop. *)
Theorem rift_thread_keepalive_bound script dev :
  0 <= report_rate dev ->
  let '(dev', count', _) := rift_thread script dev in
  report_rate dev' = report_rate dev /\
  0 <= count' <= 9 * report_rate dev + 1 /\
  keepalives dev + 1 <= keepalives dev'.
Proof.
  intros Hr. unfold rift_thread.
  pose proof (rift_thread_loop_keeps script (rift_send_keepalive dev) 0) as K.
  cbn [rift_send_keepalive report_rate keepalives] in K.
  destruct (rift_thread_loop script (rift_send_keepalive dev) 0)
    as [[dev' count'] how].
  destruct K as (K1 & K2 & K3 & _); [lia|].
  repeat split; try lia; exact K1.
Qed.

Lemma rift_thread_keepalive_bound_witness :
  let '(dev', count', _) :=
    rift_thread [hangup_data_round; hangup_data_round] dev0 in
  report_rate dev' = 500 /\ 0 <= count' <= 4501.
Proof.
  pose proof (rift_thread_keepalive_bound
                [hangup_data_round; hangup_data_round] dev0) as H.
  destruct (rift_thread [hangup_data_round; hangup_data_round] dev0)
    as [[dev' count'] how].
  destruct H as (H1 & H2 & _); [cbn; lia|].
  split; [exact H1|exact H2].
Defined.

(** [rift_thread] only ever appends to the FIFO: the samples handed on
    before stay, in order, and each turn of the loop adds at most two. *)
Theorem rift_thread_fifo_grows script dev :
  0 <= report_rate dev ->
  let '(dev', _, _) := rift_thread script dev in
  exists pushed,
    fifo dev' = fifo dev ++ pushed /\
    (length pushed <= 2 * length script)%nat.
Proof.
  intros Hr. unfold rift_thread.
  pose proof (rift_thread_loop_keeps script (rift_send_keepalive dev) 0) as K.
  cbn [rift_send_keepalive report_rate keepalives fifo] in K.
  destruct (rift_thread_loop script (rift_send_keepalive dev) 0)
    as [[dev' count'] how].
  destruct K as (_ & _ & _ & K); [lia|]. exact K.
Qed.

Lemma rift_thread_fifo_grows_witness :
  let '(dev', _, _) := rift_thread [hangup_round; hangup_data_round] dev0 in
  (length (fifo dev') <= 4)%nat.
Proof.
  pose proof (rift_thread_fifo_grows [hangup_round; hangup_data_round] dev0)
    as H.
  destruct (rift_thread [hangup_round; hangup_data_round] dev0)
    as [[dev' count'] how].
  destruct H as (pushed & F & L); [cbn; lia|].
  rewrite F. cbn [fifo dev0 app length] in *. lia.
Defined.

(** *** rift_get_positions *)

Lemma position_record_frame num report g g' k :
  position_record num report g = Some g' ->
  num <= k ->
  led_positions g' k = led_positions g k /\
  led_directions g' k = led_directions g k.
Proof.
  unfold position_record.
  destruct (Z.geb_spec (pos_index report) num); [discriminate|].
  intros E Hk.
  destruct (u8 (pos_type report) =? 0);
    [|destruct (u8 (pos_type report) =? 1)];
    inversion E; subst; cbn [led_positions led_directions];
    unfold store3; try (split; reflexivity).
  destruct (Z.eqb_spec k (pos_index report)); [lia|split; reflexivity].
Qed.

Lemma position_loop_frame script : forall i num report g k,
  num <= k ->
  led_positions (snd (position_loop script i num report g)) k
    = led_positions g k /\
  led_directions (snd (position_loop script i num report g)) k
    = led_directions g k.
Proof.
  induction script as [|[ret r'] script IH]; intros i num report g k Hk;
    cbn [position_loop];
    destruct (position_record num report g) as [g'|] eqn:R;
    try (split; reflexivity);
    pose proof (position_record_frame _ _ _ _ k R Hk) as F;
    destruct (i + 1 =? num); try exact F.
  destruct (ret <? 0); [exact F|].
  destruct (IH (i + 1) num r' g' k Hk) as [I1 I2].
  destruct F as [F1 F2]. split; congruence.
Qed.

(** Whatever the device sends, [rift_get_positions] writes no entry of
    the position and direction tables at or beyond [MAX_POSITIONS]. *)
Theorem rift_get_positions_in_bounds MAX_POSITIONS script g k :
  MAX_POSITIONS <= k ->
  let g' := snd (rift_get_positions MAX_POSITIONS script g) in
  led_positions g' k = led_positions g k /\
  led_directions g' k = led_directions g k.
Proof.
  intros Hk. cbv zeta.
  destruct script as [|[ret report] rest]; cbn [rift_get_positions];
    [split; reflexivity|].
  destruct (ret <? 0); [split; reflexivity|].
  destruct (Z.gtb_spec (u16 (pos_num report)) MAX_POSITIONS);
    [split; reflexivity|].
  pose proof (position_loop_frame rest 0 (u16 (pos_num report)) report g k
                ltac:(lia)) as F.
  destruct (position_loop rest 0 (u16 (pos_num report)) report g)
    as [ret' g'].
  destruct (ret' <? 0); exact F.
Qed.

Lemma rift_get_positions_in_bounds_witness :
  led_positions
    (snd (rift_get_positions 45 [(0, position_report 45 44 0)] geometry0)) 45
  = (0, 0, 0).
Proof.
  destruct (rift_get_positions_in_bounds 45 [(0, position_report 45 44 0)]
              geometry0 45 ltac:(lia)) as [H _].
  rewrite H. reflexivity.
Defined.

(** When [rift_get_positions] returns 0 the device announced at least one
    and at most [MAX_POSITIONS] records, and the number of LEDs is set to
    one less than that, whatever the types of the records were. *)
Theorem rift_get_positions_success MAX_POSITIONS ret report rest g :
  0 <= pos_index report ->
  let r := rift_get_positions MAX_POSITIONS ((ret, report) :: rest) g in
  fst r = 0 ->
  1 <= u16 (pos_num report) <= MAX_POSITIONS /\
  leds_num (snd r) = u16 (pos_num report) - 1 /\
  0 <= leds_num (snd r).
Proof.
  intros Hidx r. unfold r. cbn [rift_get_positions].
  destruct (Z.ltb_spec ret 0); [cbn; lia|].
  destruct (Z.gtb_spec (u16 (pos_num report)) MAX_POSITIONS);
    [cbn; lia|].
  assert (N : fst (position_loop rest 0 (u16 (pos_num report)) report g) < 0
              \/ 1 <= u16 (pos_num report)).
  { destruct rest as [|[ret' r'] rest]; cbn [position_loop];
      unfold position_record;
      destruct (Z.geb_spec (pos_index report) (u16 (pos_num report)));
      try (left; cbn; lia); right; lia. }
  destruct (position_loop rest 0 (u16 (pos_num report)) report g)
    as [ret' g'].
  cbn [fst] in N.
  destruct (Z.ltb_spec ret' 0); cbn [fst snd leds_num]; [lia|].
  intros _. lia.
Qed.

(** Two LEDs and the IMU: three records, two LEDs. *)
Lemma rift_get_positions_success_witness :
  leds_num (snd (rift_get_positions 45
                   [(0, position_report 3 0 0); (0, position_report 3 1 0);
                    (0, position_report 3 2 1)] geometry0)) = 2.
Proof.
  destruct (rift_get_positions_success 45 0 (position_report 3 0 0)
              [(0, position_report 3 1 0); (0, position_report 3 2 1)]
              geometry0) as (_ & H & _).
  - cbn. lia.
  - reflexivity.
  - rewrite H. reflexivity.
Defined.

(** *** rift_send_display *)

(** [rift_send_display] sends back the flags it read with the
    direct-pentile bits cleared and the read-pixel bits as requested, and
    changes no other bit; the persistence it sends never exceeds the number
    of rows. *)
Theorem rift_send_display_flags READ_PIXEL DIRECT_PENTILE
    get_ret report send_ret low_persistence pixel_readback :
  0 <= get_ret ->
  exists sent,
    rift_send_display READ_PIXEL DIRECT_PENTILE (get_ret, report) send_ret
      low_persistence pixel_readback = (send_ret, Some sent) /\
    (forall n, 0 <= n ->
       Z.testbit (dsp_flags2 sent) n =
         if Z.testbit DIRECT_PENTILE n then false
         else if Z.testbit READ_PIXEL n then pixel_readback
         else Z.testbit (dsp_flags2 report) n) /\
    0 <= dsp_persistence sent <= u16 (dsp_total_rows report) /\
    dsp_brightness sent = (if low_persistence then 255 else 0).
Proof.
  intros Hg. unfold rift_send_display.
  destruct (Z.ltb_spec get_ret 0); [lia|].
  eexists. split; [reflexivity|].
  cbn [dsp_flags2 dsp_persistence dsp_brightness].
  split; [|split; [|reflexivity]].
  - intros n Hn. unfold not_int.
    destruct pixel_readback;
      rewrite ?Z.land_spec, ?Z.lor_spec, ?Z.lnot_spec by assumption;
      destruct (Z.testbit DIRECT_PENTILE n), (Z.testbit READ_PIXEL n),
               (Z.testbit (dsp_flags2 report) n); reflexivity.
  - pose proof (Z.mod_pos_bound (dsp_total_rows report) (2 ^ 16) ltac:(lia))
      as B.
    fold (u16 (dsp_total_rows report)) in B.
    destruct low_persistence; [|lia].
    assert (Q : 0 <= Z.quot (u16 (dsp_total_rows report) * 18) 100
                <= u16 (dsp_total_rows report)).
    { rewrite Z.quot_div_nonneg by lia. split.
      - apply Z.div_pos; lia.
      - apply Z.div_le_upper_bound; lia. }
    unfold u16 at 1 3. rewrite Z.mod_small by (fold (u16 (dsp_total_rows report)); lia).
    exact Q.
Qed.

Lemma rift_send_display_flags_witness :
  exists sent,
    rift_send_display 0x08 0x04 (0, {| dsp_brightness := 0; dsp_flags2 := 0x15;
                                       dsp_persistence := 0;
                                       dsp_total_rows := 1200 |})
                      0 true true = (0, Some sent) /\
    dsp_persistence sent <= 1200.
Proof.
  destruct (rift_send_display_flags 0x08 0x04 0
              {| dsp_brightness := 0; dsp_flags2 := 0x15;
                 dsp_persistence := 0; dsp_total_rows := 1200 |}
              0 true true ltac:(lia)) as (sent & E & _ & P & _).
  exists sent. split; [exact E|]. cbn in P. lia.
Defined.

(** *** rift_cv1_power_up and rift_cv1_power_down *)

(** Powering components up and, on a device that reports back what it
    was sent, down again leaves those components off and every other
    component as it was at first. *)
Theorem rift_cv1_power_up_down get_ret send_ret components before :
  0 <= get_ret -> 0 <= send_ret ->
  exists up,
    rift_cv1_power_up (get_ret, before) send_ret components
      = (send_ret, Some up) /\
    (forall n, 0 <= n -> Z.testbit (u8 components) n = true ->
               Z.testbit up n = true) /\
    rift_cv1_power_down (get_ret, up) send_ret components
      = (send_ret, Some (Z.land before (not_int (u8 components)))).
Proof.
  intros Hg Hs. unfold rift_cv1_power_up, rift_cv1_power_down.
  destruct (Z.ltb_spec get_ret 0); [lia|].
  eexists. split; [reflexivity|]. split.
  - intros n Hn Hb. rewrite Z.lor_spec, Hb. apply orb_true_r.
  - do 2 f_equal. unfold not_int. apply Z.bits_inj'. intros n Hn.
    rewrite !Z.land_spec, Z.lor_spec, Z.lnot_spec by assumption.
    destruct (Z.testbit before n), (Z.testbit (u8 components) n);
      reflexivity.
Qed.

Lemma rift_cv1_power_up_down_witness :
  rift_cv1_power_down (0, 0x07) 0 0x03 = (0, Some 0x04).
Proof.
  destruct (rift_cv1_power_up_down 0 0 0x03 0x05 ltac:(lia) ltac:(lia))
    as (up & E & _ & D).
  cbn in E. inversion E. subst up. rewrite D. reflexivity.
Defined.

(** *** rift_stop *)

(** [rift_stop] sends the tracking flags it read with the enable bits
    cleared and every other bit kept, and leaves the report rate at 50 Hz
    clamped to [5, s] when the two exchanges of [rift_set_report_rate]
    succeed. *)
Theorem rift_stop_effect ENABLE tracking_ret tracking get_ret report
    send_ret dev :
  0 <= tracking_ret -> 0 <= get_ret -> 0 <= send_ret ->
  let '(dev', sent) :=
    rift_stop ENABLE (tracking_ret, tracking) (get_ret, report) send_ret
              dev in
  Z.land (trk_flags sent) ENABLE = 0 /\
  (forall n, 0 <= n -> Z.testbit ENABLE n = false ->
             Z.testbit (trk_flags sent) n = Z.testbit (trk_flags tracking) n) /\
  trk_others sent = trk_others tracking /\
  report_rate dev' = Z.max 5 (Z.min 50 (cfg_sample_rate report)).
Proof.
  intros Ht Hg Hs. unfold rift_stop. cbn [fst snd].
  destruct (Z.ltb_spec tracking_ret 0); [lia|].
  rewrite rift_set_report_rate_value by assumption.
  cbn [trk_flags trk_others set_rate report_rate]. unfold not_int.
  repeat split.
  - apply Z.bits_inj'. intros n Hn.
    rewrite !Z.land_spec, Z.lnot_spec, Z.bits_0 by assumption.
    destruct (Z.testbit (trk_flags tracking) n), (Z.testbit ENABLE n);
      reflexivity.
  - intros n Hn Hb. rewrite Z.land_spec, Z.lnot_spec, Hb by assumption.
    apply andb_true_r.
Qed.

Lemma rift_stop_effect_witness :
  let '(dev', sent) :=
    rift_stop 0x01 (0, {| trk_flags := 0x07; trk_others := [1; 2] |})
              (0, config_report 1000) 0 dev0 in
  trk_flags sent = 0x06 /\ report_rate dev' = 50.
Proof.
  pose proof (rift_stop_effect 0x01 0
                {| trk_flags := 0x07; trk_others := [1; 2] |} 0
                (config_report 1000) 0 dev0
                ltac:(lia) ltac:(lia) ltac:(lia)) as H.
  destruct (rift_stop 1 (0, {| trk_flags := 7; trk_others := [1; 2] |})
              (0, config_report 1000) 0 dev0) as [dev' sent] eqn:E.
  destruct H as (_ & _ & _ & R). split.
  - cbn in E. inversion E. reflexivity.
  - rewrite R. reflexivity.
Defined.

End RiftExtra.

(** ** Further properties of rift-radio.c *)

Module RiftRadioExtra.
Import RiftRadio RiftRadioFacts.

(** *** The control transfer *)

(** [rift_radio_transfer] sends the control triple and then reads the
    control report until it no longer says busy: replies that succeed and
    say busy are read and passed over, the first reply that does not say
    busy ends the transfer, with [-EIO] when it carries the error bit and
    with 0 otherwise, and no reply after it is read. *)
Theorem rift_radio_transfer_polls h a b c sret f0 busy ret f rest :
  pending h = (sret, f0) :: busy ++ (ret, f) :: rest ->
  0 <= sret -> 0 <= ret ->
  Forall (fun r => 0 <= fst r /\ Z.land (ctl_unknown0 (snd r)) 0x80 <> 0)
         busy ->
  Z.land (ctl_unknown0 f) 0x80 = 0 ->
  rift_radio_transfer h a b c =
    (if Z.land (ctl_unknown0 f) 0x08 =? 0 then 0 else - EIO,
     {| pending := rest; sent := sent h ++ [(a, b, c)] |}).
Proof.
  intros Hp Hs Hr Hbusy Hf.
  unfold rift_radio_transfer, hid_send_control, hid_call. rewrite Hp.
  destruct (Z.ltb_spec sret 0); [lia|]. cbn [pending sent]. clear Hp.
  assert (W : transfer_wait (busy ++ (ret, f) :: rest) =
              (if Z.land (ctl_unknown0 f) 0x08 =? 0 then 0 else - EIO, rest)).
  { induction Hbusy as [|[r0 g0] busy [Hr0 Hb0] _ IH]; cbn [app transfer_wait].
    - destruct (Z.ltb_spec ret 0); [lia|]. rewrite Hf. cbn [Z.eqb negb].
      destruct (Z.land (ctl_unknown0 f) 8 =? 0); reflexivity.
    - cbn [fst snd] in Hr0, Hb0. destruct (Z.ltb_spec r0 0); [lia|].
      destruct (Z.eqb_spec (Z.land (ctl_unknown0 g0) 128) 0);
        [contradiction|].
      cbn [negb]. exact IH. }
  rewrite W. reflexivity.
Qed.

(** Two busy replies, then one that is ready. *)
Lemma rift_radio_transfer_polls_witness :
  rift_radio_transfer
    {| pending := [(0, feature_ok); (0, feature_busy); (0, feature_busy);
                   (0, feature_ok); (0, feature_ok)];
       sent := [] |} 3 4 5 =
  (0, {| pending := [(0, feature_ok)]; sent := [(3, 4, 5)] |}).
Proof.
  rewrite (rift_radio_transfer_polls _ 3 4 5 0 feature_ok
             [(0, feature_busy); (0, feature_busy)] 0 feature_ok
             [(0, feature_ok)]).
  - reflexivity.
  - reflexivity.
  - lia.
  - lia.
  - repeat constructor; cbn; try lia; discriminate.
  - reflexivity.
Defined.

(** *** Serial numbers *)

Lemma copy_while_shape p n : forall src dst,
  exists k, (k <= n)%nat /\ (k <= length src)%nat /\
    copy_while p n src dst = firstn k src ++ skipn k dst /\
    Forall (fun c => p c = true) (firstn k src) /\
    (k = n \/ k = length src \/ p (nth k src 0) = false).
Proof.
  induction n as [|n IH]; intros src dst.
  - exists 0%nat. cbn [copy_while firstn skipn app].
    split; [lia|]. split; [lia|]. split; [reflexivity|].
    split; [constructor|]. left. reflexivity.
  - destruct src as [|c src].
    + exists 0%nat. cbn [copy_while firstn skipn app length].
      split; [lia|]. split; [lia|]. split; [reflexivity|].
      split; [constructor|]. right. left. reflexivity.
    + cbn [copy_while]. destruct (p c) eqn:Pc.
      * destruct (IH src (tl dst)) as (k & K1 & K2 & E & F & M).
        exists (S k). cbn [length firstn nth].
        split; [lia|]. split; [lia|]. split.
        { rewrite E. cbn [app]. f_equal. f_equal.
          destruct dst; cbn; [now rewrite !skipn_nil|reflexivity]. }
        split; [constructor; assumption|].
        destruct M as [M|[M|M]]; [left|right;left|right;right];
          congruence.
      * exists 0%nat. cbn [firstn skipn app nth length].
        split; [lia|]. split; [lia|]. split; [reflexivity|].
        split; [constructor|]. right. right. exact Pc.
Qed.

Section SerialFacts.

Variables DATA_REPORT_ID SERIAL_CONTROL : Z.

(** [rift_radio_get_serial] makes the one read [rift_radio_read] of the
    serial number report.  When the read fails it returns the error and
    leaves all 14 characters of the serial number as they were.  When
    the read succeeds it returns 0 and the serial number is the longest
    alphanumeric prefix of the number reported, of at most 14 characters,
    followed by the characters that were behind it before: the copy stops
    at character 14, at the end of the number reported or at the first
    character that is not alphanumeric.  The length of the buffer does not
    change. *)
Theorem rift_radio_get_serial_prefix h device_type serial :
  length serial = 14%nat ->
  let '(read_ret, report, h1) :=
    rift_radio_read DATA_REPORT_ID h 0x03 SERIAL_CONTROL device_type
                    DATA_REPORT_ID in
  let '(ret, serial', h') :=
    rift_radio_get_serial DATA_REPORT_ID SERIAL_CONTROL h device_type
                          serial in
  let reported := data_serial_number report in
  h' = h1 /\
  length serial' = 14%nat /\
  (read_ret < 0 -> ret = read_ret /\ serial' = serial) /\
  (0 <= read_ret ->
   ret = 0 /\
   exists k, (k <= 14)%nat /\ (k <= length reported)%nat /\
     serial' = firstn k reported ++ skipn k serial /\
     Forall (fun c => g_ascii_isalnum c = true) (firstn k reported) /\
     (k = 14%nat \/ k = length reported \/
      g_ascii_isalnum (nth k reported 0) = false)).
Proof.
  intros Hlen. unfold rift_radio_get_serial.
  destruct (rift_radio_read DATA_REPORT_ID h 3 SERIAL_CONTROL device_type
              DATA_REPORT_ID) as [[ret report] h'].
  cbv zeta.
  destruct (copy_while_shape g_ascii_isalnum 14
              (data_serial_number report) serial) as (k & K1 & K2 & E & F & M).
  assert (Lk : length (firstn k (data_serial_number report)) = k)
    by (apply firstn_length_le; exact K2).
  destruct (Z.ltb_spec ret 0).
  - split; [reflexivity|]. split; [exact Hlen|]. split; [|lia].
    intros _. split; reflexivity.
  - split; [reflexivity|]. split.
    + rewrite E, length_app, Lk, length_skipn. lia.
    + split; [lia|]. intros _. split; [reflexivity|].
      exists k. repeat match goal with |- _ /\ _ => split end;
        assumption.
Qed.

End SerialFacts.

(** An empty buffer of 14 characters takes the four letters reported, and
    a buffer is kept when the device does not answer. *)
Lemma rift_radio_get_serial_prefix_witness :
  snd (fst (rift_radio_get_serial 13 0x88 hid_answering 2 (repeat 0 14)))
  = [87; 77; 72; 68; 0; 0; 0; 0; 0; 0; 0; 0; 0; 0] /\
  snd (fst (rift_radio_get_serial 13 0x88 hid_failing 2 (repeat 7 14)))
  = repeat 7 14.
Proof.
  split.
  - pose proof (rift_radio_get_serial_prefix 13 0x88 hid_answering 2
                  (repeat 0 14) eq_refl) as H.
    destruct (rift_radio_read 13 hid_answering 3 0x88 2 13)
      as [[rret report] h1] eqn:R.
    destruct (rift_radio_get_serial 13 0x88 hid_answering 2 (repeat 0 14))
      as [[ret serial'] h'] eqn:E.
    destruct H as (_ & L & _). cbn in E. inversion E. reflexivity.
  - pose proof (rift_radio_get_serial_prefix 13 0x88 hid_failing 2
                  (repeat 7 14) eq_refl) as H.
    destruct (rift_radio_read 13 hid_failing 3 0x88 2 13)
      as [[rret report] h1] eqn:R.
    destruct (rift_radio_get_serial 13 0x88 hid_failing 2 (repeat 7 14))
      as [[ret serial'] h'] eqn:E.
    destruct H as (_ & _ & H & _).
    cbn in R. inversion R. subst rret.
    destruct H as [_ H]; [lia|]. cbn [fst snd]. exact H.
Defined.

Section RouterFacts.

Variables MESSAGE_ID DATA_REPORT_ID : Z.
Variables REMOTE LEFT RIGHT : Z.
Variables SERIAL_CONTROL FIRMWARE_CONTROL : Z.
Variables ADC_A_X ADC_B_Y ADC_REST ADC_STICK ADC_TRIGGER : Z.

Local Abbreviation decode_touch :=
  (rift_decode_touch_message ADC_A_X ADC_B_Y ADC_REST ADC_STICK ADC_TRIGGER).
Local Abbreviation decode_radio :=
  (rift_decode_radio_message MESSAGE_ID DATA_REPORT_ID REMOTE LEFT RIGHT
     SERIAL_CONTROL FIRMWARE_CONTROL
     ADC_A_X ADC_B_Y ADC_REST ADC_STICK ADC_TRIGGER).

Lemma rift_decode_touch_message_base touch message :
  base (decode_touch touch message) = base touch.
Proof.
  destruct (rift_decode_touch_message_cases ADC_A_X ADC_B_Y ADC_REST
              ADC_STICK ADC_TRIGGER touch message) as [->|(k & _ & ->)];
    reflexivity.
Qed.

(** *** The router *)

(** Activation is done once: when both touch controllers are active no
    message, whatever it holds, makes the router use the control channel,
    and both stay active. *)
Theorem rift_decode_radio_message_active radio h bytes message len :
  active (base (touch0 radio)) = true ->
  active (base (touch1 radio)) = true ->
  let '(radio', h', _) :=
    rift_decode_radio_message MESSAGE_ID DATA_REPORT_ID REMOTE LEFT RIGHT
      SERIAL_CONTROL FIRMWARE_CONTROL
      ADC_A_X ADC_B_Y ADC_REST ADC_STICK ADC_TRIGGER radio h bytes message len in
  h' = h /\
  base (touch0 radio') = base (touch0 radio) /\
  base (touch1 radio') = base (touch1 radio).
Proof.
  intros A0 A1. unfold rift_decode_radio_message, activate_and_decode.
  rewrite A0, A1. cbn [negb].
  destruct (id message =? MESSAGE_ID).
  - destruct (device_type message =? REMOTE); [repeat split|].
    destruct (device_type message =? LEFT).
    { cbn [touch0 touch1]. repeat split.
      apply rift_decode_touch_message_base. }
    destruct (device_type message =? RIGHT); [|repeat split].
    cbn [touch0 touch1]. repeat split.
    apply rift_decode_touch_message_base.
  - destruct (negb (scan_zero (tl bytes) 1 len =? len)); repeat split.
Qed.

(** A buffer that is no radio message, or a message for a device type
    that is none of the three known ones, changes neither the radio state
    nor the control channel, and is not reported as decoded. *)
Theorem rift_decode_radio_message_foreign radio h bytes message len :
  id message <> MESSAGE_ID \/
  (device_type message <> REMOTE /\ device_type message <> LEFT /\
   device_type message <> RIGHT) ->
  let '(radio', h', d) :=
    rift_decode_radio_message MESSAGE_ID DATA_REPORT_ID REMOTE LEFT RIGHT
      SERIAL_CONTROL FIRMWARE_CONTROL
      ADC_A_X ADC_B_Y ADC_REST ADC_STICK ADC_TRIGGER radio h bytes message len in
  radio' = radio /\ h' = h /\ d <> Decoded.
Proof.
  intros H. unfold rift_decode_radio_message.
  destruct (Z.eqb_spec (id message) MESSAGE_ID) as [E|NE].
  - destruct H as [H|(H1 & H2 & H3)]; [contradiction|].
    destruct (Z.eqb_spec (device_type message) REMOTE); [contradiction|].
    destruct (Z.eqb_spec (device_type message) LEFT); [contradiction|].
    destruct (Z.eqb_spec (device_type message) RIGHT); [contradiction|].
    repeat split. discriminate.
  - destruct (negb (scan_zero (tl bytes) 1 len =? len));
      repeat split; discriminate.
Qed.

Lemma scan_zero_bound l : forall i len,
  i <= scan_zero l i len <= i + Z.of_nat (length l).
Proof.
  induction l as [|b l IH]; intros i len; cbn [scan_zero length]; [lia|].
  destruct ((i <? len) && (b =? 0)); [|lia].
  specialize (IH (i + 1) len). lia.
Qed.

Lemma scan_zero_all l : forall i,
  scan_zero l i (i + Z.of_nat (length l)) = i + Z.of_nat (length l)
  <-> Forall (fun b => b = 0) l.
Proof.
  induction l as [|b l IH]; intros i; cbn [scan_zero length].
  - split; [constructor|lia].
  - destruct (Z.ltb_spec i (i + Z.of_nat (S (length l)))); [|lia].
    cbn [andb]. destruct (Z.eqb_spec b 0) as [->|Hb].
    + replace (i + Z.of_nat (S (length l)))
        with (i + 1 + Z.of_nat (length l)) by lia.
      rewrite IH. split; [constructor; auto|].
      intros F. inversion F. assumption.
    + split; [lia|]. intros F. inversion F. contradiction.
Qed.

(** A buffer that is no radio message is a heartbeat when all its bytes
    after the first are zero and is reported as an unknown message
    otherwise, and so is a read of no bytes at all; in each case the
    devices and the HID device are left as they were. *)
Theorem rift_decode_radio_message_heartbeat radio h bytes message :
  id message <> MESSAGE_ID ->
  (bytes <> [] ->
   (Forall (fun b => b = 0) (tl bytes) ->
    rift_decode_radio_message MESSAGE_ID DATA_REPORT_ID REMOTE LEFT RIGHT
      SERIAL_CONTROL FIRMWARE_CONTROL
      ADC_A_X ADC_B_Y ADC_REST ADC_STICK ADC_TRIGGER radio h bytes message
      (Z.of_nat (length bytes)) = (radio, h, Heartbeat)) /\
   (~ Forall (fun b => b = 0) (tl bytes) ->
    rift_decode_radio_message MESSAGE_ID DATA_REPORT_ID REMOTE LEFT RIGHT
      SERIAL_CONTROL FIRMWARE_CONTROL
      ADC_A_X ADC_B_Y ADC_REST ADC_STICK ADC_TRIGGER radio h bytes message
      (Z.of_nat (length bytes)) = (radio, h, UnknownMessage))) /\
  rift_decode_radio_message MESSAGE_ID DATA_REPORT_ID REMOTE LEFT RIGHT
      SERIAL_CONTROL FIRMWARE_CONTROL
      ADC_A_X ADC_B_Y ADC_REST ADC_STICK ADC_TRIGGER radio h bytes message 0
  = (radio, h, UnknownMessage).
Proof.
  intros NE. unfold rift_decode_radio_message.
  destruct (Z.eqb_spec (id message) MESSAGE_ID); [contradiction|]. split.
  - intros Hb. destruct bytes as [|b0 l]; [contradiction|].
    cbn [tl length].
    pose proof (scan_zero_all l 1) as A.
    replace (Z.of_nat (S (length l))) with (1 + Z.of_nat (length l)) by lia.
    destruct (Z.eqb_spec (scan_zero l 1 (1 + Z.of_nat (length l)))
                (1 + Z.of_nat (length l))) as [E|E]; cbn [negb].
    + split; [reflexivity|]. intros N. exfalso. apply N, A, E.
    + split; [|reflexivity]. intros F. exfalso. apply E, A, F.
  - assert (E : scan_zero (tl bytes) 1 0 = 1).
    { destruct (tl bytes); reflexivity. }
    rewrite E. reflexivity.
Qed.

End RouterFacts.

Lemma rift_decode_radio_message_active_witness :
  snd (fst (rift_decode_radio_message 12 13 1 2 3 0x88 0x82 1 2 3 4 5
              (radio_active 1 2 3) hid_answering []
              (radio_message 12 2 0 3 77) 64)) = hid_answering.
Proof.
  pose proof (rift_decode_radio_message_active 12 13 1 2 3 0x88 0x82
                1 2 3 4 5 (radio_active 1 2 3) hid_answering []
                (radio_message 12 2 0 3 77) 64 eq_refl eq_refl) as H.
  destruct (rift_decode_radio_message 12 13 1 2 3 0x88 0x82 1 2 3 4 5
              (radio_active 1 2 3) hid_answering []
              (radio_message 12 2 0 3 77) 64) as [[radio' h'] d].
  destruct H as [H _]. exact H.
Defined.

Lemma rift_decode_radio_message_foreign_witness :
  fst (fst (rift_decode_radio_message 12 13 1 2 3 0x88 0x82 1 2 3 4 5
              (radio0 1 2 3) hid_answering []
              (radio_message 12 9 0 3 77) 64)) = radio0 1 2 3.
Proof.
  pose proof (rift_decode_radio_message_foreign 12 13 1 2 3 0x88 0x82
                1 2 3 4 5 (radio0 1 2 3) hid_answering []
                (radio_message 12 9 0 3 77) 64) as H.
  destruct (rift_decode_radio_message 12 13 1 2 3 0x88 0x82 1 2 3 4 5
              (radio0 1 2 3) hid_answering []
              (radio_message 12 9 0 3 77) 64) as [[radio' h'] d].
  destruct H as [H _]; [|exact H].
  right. cbn. repeat split; discriminate.
Defined.

Lemma rift_decode_radio_message_heartbeat_witness :
  snd (rift_decode_radio_message 12 13 1 2 3 0x88 0x82 1 2 3 4 5
         (radio0 1 2 3) hid_answering [0; 0; 0; 0]
         (radio_message 0 0 0 0 0) 4) = Heartbeat /\
  snd (rift_decode_radio_message 12 13 1 2 3 0x88 0x82 1 2 3 4 5
         (radio0 1 2 3) hid_answering [0; 0; 9; 0]
         (radio_message 0 0 0 0 0) 4) = UnknownMessage.
Proof.
  split.
  - destruct (rift_decode_radio_message_heartbeat 12 13 1 2 3 0x88 0x82
                1 2 3 4 5 (radio0 1 2 3) hid_answering [0; 0; 0; 0]
                (radio_message 0 0 0 0 0)) as [H _].
    + cbn. discriminate.
    + destruct H as [H _]; [discriminate|].
      change (Z.of_nat (length [0; 0; 0; 0])) with 4 in H.
      rewrite H; [reflexivity|]. repeat constructor.
  - destruct (rift_decode_radio_message_heartbeat 12 13 1 2 3 0x88 0x82
                1 2 3 4 5 (radio0 1 2 3) hid_answering [0; 0; 9; 0]
                (radio_message 0 0 0 0 0)) as [H _].
    + cbn. discriminate.
    + destruct H as [_ H]; [discriminate|].
      change (Z.of_nat (length [0; 0; 9; 0])) with 4 in H.
      rewrite H; [reflexivity|].
      intros F. cbn [tl] in F.
      inversion F as [|? ? _ F1]. inversion F1 as [|? ? E9 _].
      discriminate.
Defined.

(** On a device whose first call fails, a message for the left touch
    controller is decoded and the controller stays inactive. *)
Lemma touch_message_activates_witness :
  let radio' :=
    fst (fst (rift_decode_radio_message 12 13 1 2 3 0x88 0x82 1 2 3 4 5
                (radio0 1 2 3) hid_failing []
                (radio_message 12 2 0 3 77) 64)) in
  active (base (touch0 radio')) = false /\
  cap_fields (touch0 radio') = [10; 20; 77; 40; 50].
Proof.
  pose proof (touch_message_activates 12 13 1 2 3 0x88 0x82 1 2 3 4 5
                (radio0 1 2 3) hid_failing []
                (radio_message 12 2 0 3 77) 64
                ltac:(discriminate) eq_refl eq_refl eq_refl) as H.
  cbv zeta.
  destruct (rift_decode_radio_message 12 13 1 2 3 0x88 0x82 1 2 3 4 5
              (radio0 1 2 3) hid_failing []
              (radio_message 12 2 0 3 77) 64) as [[radio' h'] d].
  cbv zeta in H. destruct H as (_ & Hcap & _ & Hfail & _).
  cbn [fst]. split.
  - apply Hfail. vm_compute. reflexivity.
  - rewrite Hcap. reflexivity.
Defined.

(** *** The packed axes *)

Lemma lanes_ok_all :
  forallb (fun lo => forallb (lanes_ok lo) all_bytes) all_bytes = true.
Proof. vm_compute. reflexivity. Qed.

Lemma all_bytes_complete b : is_byte b -> In b all_bytes.
Proof.
  unfold is_byte, all_bytes. intros H.
  rewrite <- (Z2Nat.id b) by lia. apply in_map. apply in_seq. lia.
Qed.

Lemma lanes_ok_bytes lo hi : is_byte lo -> is_byte hi -> lanes_ok lo hi = true.
Proof.
  intros Hlo Hhi. pose proof lanes_ok_all as A.
  rewrite forallb_forall in A.
  specialize (A lo (all_bytes_complete lo Hlo)).
  rewrite forallb_forall in A. apply A. apply all_bytes_complete. exact Hhi.
Qed.

Lemma lane_of_bytes P pre lo hi R s q :
  0 < P -> 0 <= pre < P -> 0 < s -> s * q = 64 ->
  ((pre + P * (lo + 256 * hi + 65536 * R)) / (P * s)) mod 1024
  = ((lo + 256 * hi) / s) mod 1024.
Proof.
  intros HP Hpre Hs Hq.
  rewrite <- Z.div_div by lia.
  replace (pre + P * (lo + 256 * hi + 65536 * R))
    with ((lo + 256 * hi + 65536 * R) * P + pre) by ring.
  rewrite Z.div_add_l by lia. rewrite (Z.div_small pre P) by lia.
  rewrite Z.add_0_r.
  replace (65536 * R) with ((1024 * q * R) * s)
    by (replace 65536 with (1024 * (s * q)) by lia; ring).
  rewrite Z.div_add by lia.
  replace (1024 * q * R) with (q * R * 1024) by ring.
  apply Z.mod_add. lia.
Qed.

(** The five bytes [trigger_grip_stick], read as a little-endian word of 40
    bits, hold the trigger, the grip and the two stick axes in its four
    lanes of 10 bits, in this order. *)
Theorem touch_axes_lanes m :
  (let '(t0, t1, t2, t3, t4) := trigger_grip_stick m in
   is_byte t0 /\ is_byte t1 /\ is_byte t2 /\ is_byte t3 /\ is_byte t4) ->
  touch_trigger m = lane10 (tgs_word m) 0 /\
  touch_grip m = lane10 (tgs_word m) 1 /\
  touch_stick m = (lane10 (tgs_word m) 2, lane10 (tgs_word m) 3).
Proof.
  unfold touch_trigger, touch_grip, touch_stick, tgs_word, lane10.
  destruct (trigger_grip_stick m) as [[[[t0 t1] t2] t3] t4].
  intros (B0 & B1 & B2 & B3 & B4).
  pose proof (lanes_ok_bytes t0 t1 B0 B1) as L0.
  pose proof (lanes_ok_bytes t1 t2 B1 B2) as L1.
  pose proof (lanes_ok_bytes t2 t3 B2 B3) as L2.
  pose proof (lanes_ok_bytes t3 t4 B3 B4) as L3.
  unfold lanes_ok in *.
  repeat match goal with
         | H : _ && _ = true |- _ => apply andb_prop in H; destruct H
         | H : (_ =? _) = true |- _ => apply Z.eqb_eq in H
         end.
  unfold is_byte in *.
  change (2 ^ (10 * 0)) with 1. change (2 ^ (10 * 1)) with 1024.
  change (2 ^ (10 * 2)) with 1048576. change (2 ^ (10 * 3)) with 1073741824.
  change (2 ^ 10) with 1024. change (2 ^ 8) with 256.
  change (2 ^ 16) with 65536. change (2 ^ 24) with 16777216.
  change (2 ^ 32) with 4294967296.
  repeat match goal with
         | H : Z.lor _ _ = _ |- _ => rewrite H; clear H
         end.
  assert (U : forall x, 0 <= x < 1024 -> u16 x = x)
    by (intros x Hx; apply Z.mod_small; lia).
  rewrite !U by (apply Z.mod_pos_bound; lia).
  split; [|split; [|f_equal]].
  - rewrite Z.div_1_r.
    replace (t0 + 256 * t1 + 65536 * t2 + 16777216 * t3 + 4294967296 * t4)
      with (t0 + 256 * t1 + (64 * t2 + 16384 * t3 + 4194304 * t4) * 1024)
      by ring.
    rewrite Z.mod_add by lia. reflexivity.
  - rewrite <- (lane_of_bytes 256 t0 t1 t2 (t3 + 256 * t4) 4 16) by lia.
    f_equal. f_equal. ring.
  - rewrite <- (lane_of_bytes 65536 (t0 + 256 * t1) t2 t3 t4 16 4) by lia.
    f_equal. f_equal. ring.
  - rewrite <- (lane_of_bytes 16777216 (t0 + 256 * t1 + 65536 * t2)
                  t3 t4 0 64 1) by lia.
    f_equal. f_equal. ring.
Qed.

Lemma touch_axes_lanes_witness :
  touch_trigger (axes_message 0xff 0x03 0 0 0) = 1023 /\
  touch_stick (axes_message 0 0 0 0xc0 0xff) = (0, 1023).
Proof.
  split.
  - destruct (touch_axes_lanes (axes_message 0xff 0x03 0 0 0)) as [H _].
    + cbn. unfold is_byte. lia.
    + rewrite H. reflexivity.
  - destruct (touch_axes_lanes (axes_message 0 0 0 0xc0 0xff))
      as (_ & _ & H).
    + cbn. unfold is_byte. lia.
    + rewrite H. reflexivity.
Defined.

End RiftRadioExtra.

(** ** Further properties of vive-controller-usb.c *)

Module ViveControllerUsbExtra.
Import ViveImu ViveControllerUsb.

(** *** The Lighthouse pulses *)

Lemma decode_pulses_in_range report :
  Forall pulse_in_range (decode_pulses report) /\
  (length (decode_pulses report) <= length report)%nat.
Proof.
  induction report as [|p report [IH1 IH2]]; cbn [decode_pulses length].
  - split; [constructor|lia].
  - destruct (u16 (pulse_id p) =? 0xffff); [split; [exact IH1|lia]|].
    destruct (Z.gtb_spec (u16 (pulse_id p)) 31);
      [split; [constructor|cbn; lia]|].
    split; [|cbn [length]; lia].
    constructor; [|exact IH1]. unfold pulse_in_range.
    pose proof (Z.mod_pos_bound (pulse_id p) (2 ^ 16) ltac:(lia)).
    pose proof (Z.mod_pos_bound (pulse_duration p) (2 ^ 16) ltac:(lia)).
    pose proof (Z.mod_pos_bound (pulse_timestamp p) (2 ^ 32) ltac:(lia)).
    unfold u16, u32 in *. lia.
Qed.

(** [vive_controller_decode_pulse_report] hands at most seven pulses to
    the Lighthouse receiver, each with a sensor id of at most 31, after the
    pulses handed on before, and changes nothing else of the controller:
    the IMU state, the range, the buttons, the samples and events handed
    on, the device id and the active flag are what they were. *)
Theorem vive_controller_decode_pulse_report_bounded self report :
  let self' := vive_controller_decode_pulse_report self report in
  exists handed,
    pulses self' = pulses self ++ handed /\
    (length handed <= 7)%nat /\
    Forall pulse_in_range handed /\
    imu self' = imu self /\ buttons self' = buttons self /\
    events self' = events self /\ imu_out self' = imu_out self /\
    dev_active self' = dev_active self /\
    dev_id self' = dev_id self /\ imu_range self' = imu_range self.
Proof.
  cbv zeta. exists (decode_pulses (firstn 7 report)).
  destruct (decode_pulses_in_range (firstn 7 report)) as [F L].
  repeat split; try exact F.
  etransitivity; [exact L|]. rewrite length_firstn. lia.
Qed.

(** *** The range modes *)

(** [vive_imu_get_range_modes] reads the report once, and a second time
    only when a mode of the first read is zero; further replies are never
    looked at. *)
Theorem vive_imu_get_range_modes_reads replies :
  vive_imu_get_range_modes replies =
  vive_imu_get_range_modes (firstn 2 replies) /\
  (forall ret report rest,
      replies = (ret, report) :: rest ->
      gyro_range report <> 0 -> accel_range report <> 0 ->
      vive_imu_get_range_modes replies =
      vive_imu_get_range_modes [(ret, report)]).
Proof.
  split.
  - destruct replies as [|[ret report] [|[ret2 report2] rest]]; reflexivity.
  - intros ret report rest -> Hg Ha. cbn [vive_imu_get_range_modes].
    destruct (Z.eqb_spec (gyro_range report) 0); [contradiction|].
    destruct (Z.eqb_spec (accel_range report) 0); [contradiction|].
    reflexivity.
Qed.

Lemma vive_imu_get_range_modes_reads_witness :
  vive_imu_get_range_modes
    [(0, {| gyro_range := 1; accel_range := 2 |});
     (-1, {| gyro_range := 0; accel_range := 0 |})] = (0, Some (500, 8)).
Proof.
  destruct (vive_imu_get_range_modes_reads
              [(0, {| gyro_range := 1; accel_range := 2 |});
               (-1, {| gyro_range := 0; accel_range := 0 |})]) as [_ H].
  rewrite (H 0 {| gyro_range := 1; accel_range := 2 |}
             [(-1, {| gyro_range := 0; accel_range := 0 |})] eq_refl).
  - reflexivity.
  - cbn. discriminate.
  - cbn. discriminate.
Defined.

Lemma range_factors g a :
  0 <= g <= 4 -> 0 <= a <= 4 ->
  In (Z.shiftl 250 g) [250; 500; 1000; 2000; 4000] /\
  In (Z.shiftl 2 a) [2; 4; 8; 16; 32].
Proof.
  intros Hg Ha.
  assert (Cg : g = 0 \/ g = 1 \/ g = 2 \/ g = 3 \/ g = 4) by lia.
  assert (Ca : a = 0 \/ a = 1 \/ a = 2 \/ a = 3 \/ a = 4) by lia.
  split.
  - destruct Cg as [-> | [-> | [-> | [-> | ->]]]]; cbn; tauto.
  - destruct Ca as [-> | [-> | [-> | [-> | ->]]]]; cbn; tauto.
Qed.

(** The end of [vive_imu_get_range_modes], from the test of the modes. *)
Lemma range_modes_end ret report :
  0 <= ret ->
  (if ret <? 0 then (ret, None)
   else if (gyro_range report >? 4) || (accel_range report >? 4)
        then (- EINVAL, None)
        else (0, Some (Z.shiftl 250 (gyro_range report),
                       Z.shiftl 2 (accel_range report)))) =
  if (gyro_range report <=? 4) && (accel_range report <=? 4)
  then (0, Some (Z.shiftl 250 (gyro_range report),
                 Z.shiftl 2 (accel_range report)))
  else (- EINVAL, None).
Proof.
  intros H. destruct (Z.ltb_spec ret 0); [lia|].
  destruct (Z.gtb_spec (gyro_range report) 4),
           (Z.leb_spec (gyro_range report) 4); try lia;
    destruct (Z.gtb_spec (accel_range report) 4),
             (Z.leb_spec (accel_range report) 4); try lia; reflexivity.
Qed.

(** [vive_imu_get_range_modes] returns 0 or a negative value with no
    range set.  When it returns 0 the range comes from one of the first
    two reports read, whose modes are both at most 4, and is the gyro
    factor [250 << mode] (250 to 4000 degrees per second) with the
    accelerometer factor [2 << mode] (2 to 32 g).  A mode above 4 is
    refused with [-EINVAL]: in the first report when both its modes are
    non-zero, and otherwise in the report read again. *)
Theorem vive_imu_get_range_modes_outcome replies :
  let '(ret, range) := vive_imu_get_range_modes replies in
  ((ret = 0 /\
    exists report,
      In report (map snd (firstn 2 replies)) /\
      gyro_range report <= 4 /\ accel_range report <= 4 /\
      range = Some (Z.shiftl 250 (gyro_range report),
                    Z.shiftl 2 (accel_range report)) /\
      (0 <= gyro_range report -> 0 <= accel_range report ->
       In (Z.shiftl 250 (gyro_range report)) [250; 500; 1000; 2000; 4000] /\
       In (Z.shiftl 2 (accel_range report)) [2; 4; 8; 16; 32])) \/
   (ret < 0 /\ range = None)) /\
  (forall ret1 report rest,
      replies = (ret1, report) :: rest -> 0 <= ret1 ->
      gyro_range report <> 0 -> accel_range report <> 0 ->
      4 < gyro_range report \/ 4 < accel_range report ->
      ret = - EINVAL /\ range = None) /\
  (forall ret1 report1 ret2 report2 rest,
      replies = (ret1, report1) :: (ret2, report2) :: rest ->
      0 <= ret1 -> 0 <= ret2 ->
      gyro_range report1 = 0 \/ accel_range report1 = 0 ->
      4 < gyro_range report2 \/ 4 < accel_range report2 ->
      ret = - EINVAL /\ range = None) /\
  (Forall (fun reply => 4 < gyro_range (snd reply) \/
                        4 < accel_range (snd reply)) (firstn 2 replies) ->
   ret < 0 /\ range = None).
Proof.
  assert (End : forall report : range_modes_report,
            let '(ret, range) :=
              (if (gyro_range report <=? 4) && (accel_range report <=? 4)
               then (0, Some (Z.shiftl 250 (gyro_range report),
                              Z.shiftl 2 (accel_range report)))
               else (- EINVAL, None)) in
            ((ret = 0 /\
              gyro_range report <= 4 /\ accel_range report <= 4 /\
              range = Some (Z.shiftl 250 (gyro_range report),
                            Z.shiftl 2 (accel_range report))) \/
             (ret < 0 /\ range = None)) /\
            (4 < gyro_range report \/ 4 < accel_range report ->
             ret = - EINVAL /\ range = None)).
  { intros report.
    destruct (Z.leb_spec (gyro_range report) 4);
      destruct (Z.leb_spec (accel_range report) 4); cbn [andb];
      (split; [first [left; repeat split; (reflexivity || lia)
                     |right; split; [unfold EINVAL; lia|reflexivity]]
              |intros; first [lia|split; reflexivity]]). }
  destruct replies as [|[ret report] rest]; cbn [vive_imu_get_range_modes].
  { split; [right; split; [lia|reflexivity]|].
    split; [intros; discriminate|]. split; [intros; discriminate|].
    intros _. split; [lia|reflexivity]. }
  destruct (Z.ltb_spec ret 0) as [Hn|Hp].
  { split; [right; split; [lia|reflexivity]|].
    split; [intros ? ? ? E; inversion E; lia|].
    split; [intros ? ? ? ? ? E; inversion E; lia|].
    intros _. split; [lia|reflexivity]. }
  destruct ((gyro_range report =? 0) || (accel_range report =? 0)) eqn:Again.
  - destruct rest as [|[ret2 report2] rest2].
    + cbn. split; [right; split; [lia|reflexivity]|].
      split.
      { intros ? ? ? E Hr Hg Ha. inversion E. subst.
        apply orb_true_iff in Again. rewrite !Z.eqb_eq in Again. tauto. }
      split; [intros; discriminate|].
      intros _. split; [lia|reflexivity].
    + destruct (Z.ltb_spec ret2 0) as [Hn2|Hp2].
      { split; [right; split; [lia|reflexivity]|].
        split.
        { intros ? ? ? E Hr Hg Ha. inversion E. subst.
          apply orb_true_iff in Again. rewrite !Z.eqb_eq in Again. tauto. }
        split; [intros ? ? ? ? ? E; inversion E; lia|].
        intros _. split; [lia|reflexivity]. }
      pose proof (range_modes_end ret2 report2 Hp2) as R.
      destruct (Z.ltb_spec ret2 0); [lia|]. rewrite R. clear R.
      pose proof (End report2) as E2.
      destruct (if (gyro_range report2 <=? 4) && (accel_range report2 <=? 4)
                then (0, Some (Z.shiftl 250 (gyro_range report2),
                               Z.shiftl 2 (accel_range report2)))
                else (- EINVAL, None)) as [r range].
      destruct E2 as [Out Ref]. split.
      { destruct Out as [(R0 & G & A & S)|Neg]; [left|right; exact Neg].
        split; [exact R0|]. exists report2. cbn [firstn map snd In].
        repeat match goal with |- _ /\ _ => split end;
          try assumption; [tauto|].
        intros; apply range_factors; lia. }
      split.
      { intros ? ? ? E Hr Hg Ha. inversion E. subst.
        apply orb_true_iff in Again. rewrite !Z.eqb_eq in Again. tauto. }
      split.
      { intros ? ? ? ? ? E _ _ _ Hbad. inversion E. subst. now apply Ref. }
      intros F. cbn [firstn] in F.
      inversion F as [|? ? _ F2]. inversion F2 as [|? ? Hbad _].
      cbn [snd] in Hbad.
      destruct (Ref Hbad) as [-> ->]. split; [unfold EINVAL; lia|reflexivity].
  - pose proof (range_modes_end ret report Hp) as R.
    destruct (Z.ltb_spec ret 0); [lia|]. rewrite R. clear R.
    pose proof (End report) as E1.
    destruct (if (gyro_range report <=? 4) && (accel_range report <=? 4)
              then (0, Some (Z.shiftl 250 (gyro_range report),
                             Z.shiftl 2 (accel_range report)))
              else (- EINVAL, None)) as [r range].
    destruct E1 as [Out Ref]. split.
    { destruct Out as [(R0 & G & A & S)|Neg]; [left|right; exact Neg].
      split; [exact R0|]. exists report.
      repeat match goal with |- _ /\ _ => split end; try assumption.
      - destruct rest; cbn; tauto.
      - intros; apply range_factors; lia. }
    split.
    { intros ? ? ? E _ _ _ Hbad. inversion E. subst. now apply Ref. }
    split.
    { intros ? ? ? ? ? E _ _ Hz. inversion E. subst.
      apply orb_false_iff in Again. rewrite !Z.eqb_neq in Again. tauto. }
    intros F.
    assert (Hbad : 4 < gyro_range report \/ 4 < accel_range report).
    { destruct rest; cbn [firstn] in F; inversion F; assumption. }
    destruct (Ref Hbad) as [-> ->]. split; [unfold EINVAL; lia|reflexivity].
Qed.

(** The mode 5 of the gyroscope is refused, also when it comes with the
    second read. *)
Lemma vive_imu_get_range_modes_outcome_witness :
  vive_imu_get_range_modes [(0, {| gyro_range := 5; accel_range := 1 |})]
  = (- EINVAL, None) /\
  vive_imu_get_range_modes
    [(0, {| gyro_range := 0; accel_range := 1 |});
     (0, {| gyro_range := 5; accel_range := 1 |})] = (- EINVAL, None).
Proof.
  split.
  - pose proof (vive_imu_get_range_modes_outcome
                  [(0, {| gyro_range := 5; accel_range := 1 |})]) as H.
    destruct (vive_imu_get_range_modes
                [(0, {| gyro_range := 5; accel_range := 1 |})])
      as [ret range].
    destruct H as (_ & H & _).
    destruct (H 0 {| gyro_range := 5; accel_range := 1 |} [] eq_refl)
      as [-> ->]; first [reflexivity|cbn; lia|cbn; discriminate].
  - pose proof (vive_imu_get_range_modes_outcome
                  [(0, {| gyro_range := 0; accel_range := 1 |});
                   (0, {| gyro_range := 5; accel_range := 1 |})]) as H.
    destruct (vive_imu_get_range_modes
                [(0, {| gyro_range := 0; accel_range := 1 |});
                 (0, {| gyro_range := 5; accel_range := 1 |})])
      as [ret range].
    destruct H as (_ & _ & H & _).
    destruct (H 0 {| gyro_range := 0; accel_range := 1 |}
                0 {| gyro_range := 5; accel_range := 1 |} [] eq_refl)
      as [-> ->]; first [reflexivity|cbn; lia|cbn; tauto].
Defined.

Section ThreadFacts.

Variables IMU_ID PULSE_ID BUTTON_ID : Z.
Variables BIT_TRIGGER BIT_GRIP BIT_MENU BIT_SYSTEM BIT_THUMB BIT_TOUCH : Z.
Variables KEY_TRIGGER KEY_GRIP KEY_MENU KEY_SYSTEM KEY_THUMB KEY_TOUCH : Z.

Local Abbreviation decode_buttons :=
  (vive_controller_decode_button_message
     BIT_TRIGGER BIT_GRIP BIT_MENU BIT_SYSTEM BIT_THUMB BIT_TOUCH
     KEY_TRIGGER KEY_GRIP KEY_MENU KEY_SYSTEM KEY_THUMB KEY_TOUCH).
Local Abbreviation thread_round :=
  (vive_controller_usb_thread_round IMU_ID PULSE_ID BUTTON_ID
     BIT_TRIGGER BIT_GRIP BIT_MENU BIT_SYSTEM BIT_THUMB BIT_TOUCH
     KEY_TRIGGER KEY_GRIP KEY_MENU KEY_SYSTEM KEY_THUMB KEY_TOUCH).
Local Abbreviation thread :=
  (vive_controller_usb_thread IMU_ID PULSE_ID BUTTON_ID
     BIT_TRIGGER BIT_GRIP BIT_MENU BIT_SYSTEM BIT_THUMB BIT_TOUCH
     KEY_TRIGGER KEY_GRIP KEY_MENU KEY_SYSTEM KEY_THUMB KEY_TOUCH).

(** *** The buttons *)

(** Decoding the same button report a second time changes nothing and
    emits no further event, heartbeat or not. *)
Theorem vive_controller_decode_button_message_twice self report :
  vive_controller_decode_button_message
     BIT_TRIGGER BIT_GRIP BIT_MENU BIT_SYSTEM BIT_THUMB BIT_TOUCH
     KEY_TRIGGER KEY_GRIP KEY_MENU KEY_SYSTEM KEY_THUMB KEY_TOUCH
    (vive_controller_decode_button_message
     BIT_TRIGGER BIT_GRIP BIT_MENU BIT_SYSTEM BIT_THUMB BIT_TOUCH
     KEY_TRIGGER KEY_GRIP KEY_MENU KEY_SYSTEM KEY_THUMB KEY_TOUCH self report) report
  = vive_controller_decode_button_message
     BIT_TRIGGER BIT_GRIP BIT_MENU BIT_SYSTEM BIT_THUMB BIT_TOUCH
     KEY_TRIGGER KEY_GRIP KEY_MENU KEY_SYSTEM KEY_THUMB KEY_TOUCH self report.
Proof.
  unfold vive_controller_decode_button_message.
  destruct (negb (battery report =? 0) && (u32 (report_buttons report) =? 0))
    eqn:H.
  - reflexivity.
  - destruct (Z.eqb_spec (u32 (report_buttons report)) (buttons self))
      as [E|NE]; cbn [negb].
    + rewrite (proj2 (Z.eqb_eq _ _) E). reflexivity.
    + cbn [buttons]. rewrite Z.eqb_refl. reflexivity.
Qed.

(** *** The thread *)

(** When [poll] reports an error, a hangup or an invalid handle on the IMU
    or on the Lighthouse interface, [vive_controller_usb_thread] marks the
    device inactive and returns, without reading or decoding anything in
    that turn or after it. *)
Theorem vive_controller_usb_thread_disconnect ev script self :
  u_active ev = true -> dev_active self = true ->
  u_poll_ret ev <> -1 -> u_poll_ret ev <> 0 ->
  poll_failed (u_revents0 ev) = true \/ poll_failed (u_revents1 ev) = true ->
  vive_controller_usb_thread IMU_ID PULSE_ID BUTTON_ID
     BIT_TRIGGER BIT_GRIP BIT_MENU BIT_SYSTEM BIT_THUMB BIT_TOUCH
     KEY_TRIGGER KEY_GRIP KEY_MENU KEY_SYSTEM KEY_THUMB KEY_TOUCH (ev :: script) self = set_inactive self.
Proof.
  intros Ha Hd Hm1 H0 Hf. cbn [vive_controller_usb_thread].
  rewrite Ha, Hd. cbn [andb negb].
  unfold vive_controller_usb_thread_round.
  destruct (Z.eqb_spec (u_poll_ret ev) (-1)); [contradiction|].
  destruct (Z.eqb_spec (u_poll_ret ev) 0); [contradiction|].
  assert (E : poll_failed (u_revents0 ev) || poll_failed (u_revents1 ev)
              = true).
  { destruct Hf as [-> | ->]; [reflexivity|apply orb_true_r]. }
  rewrite E. reflexivity.
Qed.

Lemma handle_imu_message_range self report :
  imu_range (handle_imu_message self report) = imu_range self.
Proof.
  unfold handle_imu_message.
  destruct (vive_imu_decode_message (imu self) report). reflexivity.
Qed.

Lemma decode_buttons_range self report :
  imu_range (decode_buttons self report) = imu_range self.
Proof.
  unfold vive_controller_decode_button_message.
  destruct (negb (battery report =? 0) && (u32 (report_buttons report) =? 0));
    [reflexivity|].
  destruct (negb (u32 (report_buttons report) =? buttons self));
    reflexivity.
Qed.

Lemma thread_round_range ev self r :
  imu_range self = Some r ->
  imu_range (fst (thread_round ev self)) = Some r.
Proof.
  intros H. unfold vive_controller_usb_thread_round.
  destruct (u_poll_ret ev =? -1); [exact H|].
  destruct (u_poll_ret ev =? 0); [exact H|].
  destruct (poll_failed (u_revents0 ev) || poll_failed (u_revents1 ev));
    [exact H|].
  rewrite H.
  assert (I : imu_range (fst (imu_interface IMU_ID ev self)) = Some r).
  { unfold imu_interface.
    destruct (negb (Z.land (u_revents0 ev) POLLIN =? 0)); [|exact H].
    destruct (rd_ret (u_read0 ev) =? -1); [exact H|].
    destruct ((rd_ret (u_read0 ev) =? 52) && (rd_id (u_read0 ev) =? IMU_ID));
      [|exact H].
    cbn [fst]. rewrite handle_imu_message_range. exact H. }
  destruct (imu_interface IMU_ID ev self) as [self1 go1]. cbn [fst] in I.
  destruct go1; cbn [negb]; [|exact I].
  assert (P : imu_range (fst (pulse_interface PULSE_ID ev self1)) = Some r).
  { unfold pulse_interface.
    destruct (negb (Z.land (u_revents1 ev) POLLIN =? 0)); [|exact I].
    destruct (rd_ret (u_read1 ev) =? -1); [exact I|].
    destruct ((rd_ret (u_read1 ev) =? 58) &&
              (rd_id (u_read1 ev) =? PULSE_ID)); exact I. }
  destruct (pulse_interface PULSE_ID ev self1) as [self2 go2].
  cbn [fst] in P.
  destruct go2; cbn [negb]; [|exact P].
  cbn [fst]. unfold button_interface.
  destruct (negb (Z.land (u_revents2 ev) POLLIN =? 0)); [|exact P].
  destruct (rd_ret (u_read2 ev) =? -1); [exact P|].
  destruct ((rd_ret (u_read2 ev) =? 64) &&
            (rd_id (u_read2 ev) =? BUTTON_ID)); [|exact P].
  cbn [fst]. rewrite decode_buttons_range. exact P.
Qed.

(** Once the range modes of the IMU are known,
    [vive_controller_usb_thread] never asks for them again and never
    changes them, whatever it reads. *)
Theorem vive_controller_usb_thread_keeps_range script : forall self r,
  imu_range self = Some r ->
  imu_range (vive_controller_usb_thread IMU_ID PULSE_ID BUTTON_ID
     BIT_TRIGGER BIT_GRIP BIT_MENU BIT_SYSTEM BIT_THUMB BIT_TOUCH
     KEY_TRIGGER KEY_GRIP KEY_MENU KEY_SYSTEM KEY_THUMB KEY_TOUCH script self) = Some r.
Proof.
  induction script as [|ev script IH]; intros self r H;
    cbn [vive_controller_usb_thread]; [exact H|].
  destruct (negb (u_active ev && dev_active self)); [exact H|].
  pose proof (thread_round_range ev self r H) as R.
  destruct (thread_round ev self) as [self' go_on]. cbn [fst] in R.
  destruct go_on; [apply IH; exact R|exact R].
Qed.

End ThreadFacts.

Lemma vive_controller_usb_thread_disconnect_witness :
  dev_active (vive_controller_usb_thread 0x20 0x21 0x01
                0 2 12 13 18 20 1 2 3 4 5 6
                [disconnect_round; imu_round 52 0x20 report_675] controller0)
  = false.
Proof.
  rewrite vive_controller_usb_thread_disconnect.
  - reflexivity.
  - reflexivity.
  - reflexivity.
  - cbn. discriminate.
  - cbn. discriminate.
  - left. reflexivity.
Defined.

Lemma vive_controller_usb_thread_keeps_range_witness :
  imu_range (vive_controller_usb_thread 0x20 0x21 0x01
               0 2 12 13 18 20 1 2 3 4 5 6
               [imu_round 52 0x20 report_675] controller0)
  = Some (250, 2).
Proof. apply vive_controller_usb_thread_keeps_range. reflexivity. Defined.

End ViveControllerUsbExtra.
